(** * tomopy.io.data: array normalizers, file-name indexing and writers

    A shallow embedding of [tomopy/io/data.py].

    Numeric model.  An array is kept flat, in row-major order, next to
    its shape and dtype tag.  An element is a value of [fval]: a finite
    number, an infinity or NaN; the two zeros of IEEE 754 are one value
    (their sign shows in no result of the module).  The dtypes are
    float32, float64, int64, uint8 and uint16.  A floating-point
    operation returns the exact result rounded to the format (binary32
    or binary64, to nearest, ties to even, with gradual underflow and
    overflow to infinity); a store into an array converts the value to
    the dtype of the array.  The type of the result of an operation
    follows numpy 1.x: a Python float is a float64 scalar, and a scalar
    combined with an array of the same kind takes the type of the
    array.

    Errors.  A Python exception is a constructor of [exn]; a function
    that can raise returns a [result]. *)

From Stdlib Require Import ZArith QArith Qround Qminmax Qabs Qpower Qreduction.
From Stdlib Require Import Lia Lqa.
From Stdlib Require Import String Ascii DecimalString DecimalZ.
From stdpp Require Import base option list gmap strings.

Local Open Scope Z_scope.

(* ===================================================================== *)
(** ** Exceptions *)
(* ===================================================================== *)

Inductive exn : Set :=
| ValueError          (* np.max of an empty array, shape unpacking *)
| TypeError           (* None + str *)
| IndexError          (* list index out of range *)
| KeyError            (* missing HDF5 object *)
| IOError             (* missing file *)
| AttributeError      (* object without a shape *)
| UnboundLocalError   (* local read before assignment *)
| OverflowError.      (* Python int too large for the integer dtype *)

(** Outcome of a call: a value, an exception, or [NoReturn] when the
    fuel of a modelled [while] loop ran out before the call returned. *)
Inductive result (A : Type) : Type :=
| Ok (a : A)
| Raise (e : exn)
| NoReturn.
Arguments Ok {A} a.
Arguments Raise {A} e.
Arguments NoReturn {A}.

#[global] Instance result_bind : MBind result := fun A B k m =>
  match m with
  | Ok a => k a
  | Raise e => Raise e
  | NoReturn => NoReturn
  end.

#[global] Instance result_ret : MRet result := fun A a => Ok a.

(* ===================================================================== *)
(** ** Numbers *)
(* ===================================================================== *)

(** [x < y] on rationals. *)
Definition Qltb (x y : Q) : bool := negb (Qle_bool y x).

(** The value of an array element or of a scalar. *)
Inductive fval : Type :=
| FNum (q : Q)        (* a finite number *)
| FInf (neg : bool)   (* +inf, or -inf when [neg] *)
| FNaN.

Coercion FNum : Q >-> fval.

(** [x < y] and [x == y]: false as soon as NaN is involved. *)
Definition fltb (x y : fval) : bool :=
  match x, y with
  | FNum a, FNum b => Qltb a b
  | FNum _, FInf neg => negb neg
  | FInf neg, FNum _ => neg
  | FInf a, FInf b => a && negb b
  | _, _ => false
  end.

Definition feqb (x y : fval) : bool :=
  match x, y with
  | FNum a, FNum b => Qeq_bool a b
  | FInf a, FInf b => Bool.eqb a b
  | _, _ => false
  end.

(** Rounding to the nearest integer, ties to even. *)
Definition Qround_half_even (q : Q) : Z :=
  let f := Qfloor q in
  let r := (q - inject_Z f)%Q in
  if Qltb r (1 # 2) then f
  else if Qltb (1 # 2) r then f + 1
  else if Z.even f then f else f + 1.

(** A binary floating-point format: [f_prec] bits of precision, the
    least exponent [f_emin] of a unit in the last place, and overflow
    from [2^f_emax] on. *)
Record format : Type := Format { f_prec : Z; f_emin : Z; f_emax : Z }.

Definition binary32 : format := Format 24 (-149) 128.
Definition binary64 : format := Format 53 (-1074) 1024.

(** [floor(log2 |q|)] for [q <> 0]. *)
Definition Qlog2 (q : Q) : Z :=
  let l := Z.log2 (Z.abs (Qnum q)) - Z.log2 (Zpos (Qden q)) in
  if Qle_bool (2 ^ l) (Qabs q) then l else l - 1.

(** [q] rounded to a multiple of [2^e]. *)
Definition round_at (e : Z) (q : Q) : Q :=
  (inject_Z (Qround_half_even (q / 2 ^ e)) * 2 ^ e)%Q.

(** The exponent of the unit in the last place of [q] in format [f]. *)
Definition fexp (f : format) (q : Q) : Z :=
  Z.max (f_emin f) (Qlog2 q - f_prec f + 1).

(** The exact number [q] as format [f] holds it. *)
Definition rnd (f : format) (q : Q) : fval :=
  if Qeq_bool q 0 then FNum 0
  else
    let r := Qred (round_at (fexp f q) q) in
    if Qle_bool (2 ^ f_emax f) (Qabs r) then FInf (Qltb q 0) else FNum r.

Definition round_to (f : format) (v : fval) : fval :=
  match v with
  | FNum q => rnd f q
  | _ => v
  end.

(** Subtraction, multiplication and division in format [f]. *)
Definition fsub (f : format) (x y : fval) : fval :=
  match x, y with
  | FNum a, FNum b => rnd f (a - b)
  | FNum _, FInf neg => FInf (negb neg)
  | FInf neg, FNum _ => FInf neg
  | FInf a, FInf b => if Bool.eqb a b then FNaN else FInf a
  | _, _ => FNaN
  end.

Definition fmul (f : format) (x y : fval) : fval :=
  match x, y with
  | FNum a, FNum b => rnd f (a * b)
  | FNum a, FInf neg | FInf neg, FNum a =>
      if Qeq_bool a 0 then FNaN else FInf (xorb neg (Qltb a 0))
  | FInf a, FInf b => FInf (xorb a b)
  | _, _ => FNaN
  end.

Definition fdiv (f : format) (x y : fval) : fval :=
  match x, y with
  | FNum a, FNum b =>
      if Qeq_bool b 0 then
        if Qeq_bool a 0 then FNaN else FInf (Qltb a 0)
      else rnd f (a / b)
  | FNum _, FInf _ => FNum 0
  | FInf neg, FNum b => FInf (xorb neg (Qltb b 0))
  | _, _ => FNaN
  end.

(** Conversion of a number to an integer type: the C conversion
    truncates toward zero.  Out of the range of the target type, and
    for NaN and the infinities, the C conversion is undefined; the
    model wraps around and gives 0 for NaN and the infinities, as numpy
    does on x86-64. *)
Definition Qtrunc (q : Q) : Z := Z.quot (Qnum q) (Zpos (Qden q)).

Definition wrap_int64 (z : Z) : Z := (z + 2 ^ 63) mod 2 ^ 64 - 2 ^ 63.

(** [astype('uint8')], [astype('uint16')] on one element. *)
Definition astype_uint (bits : Z) (v : fval) : Z :=
  match v with
  | FNum q => Qtrunc q mod 2 ^ bits
  | _ => 0
  end.

(* ===================================================================== *)
(** ** dtypes and scalars *)
(* ===================================================================== *)

Inductive dtype : Set := float32 | float64 | uint8 | uint16 | int64.

Definition is_float (t : dtype) : bool :=
  match t with
  | float32 | float64 => true
  | _ => false
  end.

Definition float_format (t : dtype) : format :=
  match t with
  | float32 => binary32
  | _ => binary64
  end.

Definition wrap_int (t : dtype) (z : Z) : Z :=
  match t with
  | uint8 => z mod 2 ^ 8
  | uint16 => z mod 2 ^ 16
  | int64 => wrap_int64 z
  | _ => z
  end.

Definition to_int (t : dtype) (v : fval) : fval :=
  match v with
  | FNum q => FNum (inject_Z (wrap_int t (Qtrunc q)))
  | _ => FNum 0
  end.

(** The value [v] of type [src] converted to type [dst]: unchanged
    between equal types and from float32 to float64, rounded to the
    format otherwise, truncated for an integer type. *)
Definition cast (src dst : dtype) (v : fval) : fval :=
  match dst, src with
  | float32, float32 => v
  | float32, _ => round_to binary32 v
  | float64, (float32 | float64) => v
  | float64, _ => round_to binary64 v
  | uint8, uint8 | uint16, uint16 | int64, int64 => v
  | _, _ => to_int dst v
  end.

(** [np.promote_types]. *)
Definition promote (s t : dtype) : dtype :=
  match s, t with
  | float64, _ | _, float64 => float64
  | float32, int64 | int64, float32 => float64
  | float32, _ | _, float32 => float32
  | int64, _ | _, int64 => int64
  | uint16, _ | _, uint16 => uint16
  | uint8, uint8 => uint8
  end.

(** A scalar: a numpy scalar of type [s_dtype], or a Python float
    ([s_dtype = float64]). *)
Record scalar : Type := Scalar { s_dtype : dtype; s_val : fval }.

Definition py_float (q : Q) : scalar := Scalar float64 (FNum q).

(** Two scalars are compared, and subtracted, in their common type. *)
Definition scalar_lt (a b : scalar) : bool :=
  let t := promote (s_dtype a) (s_dtype b) in
  fltb (cast (s_dtype a) t (s_val a)) (cast (s_dtype b) t (s_val b)).

Definition scalar_eq (a b : scalar) : bool :=
  let t := promote (s_dtype a) (s_dtype b) in
  feqb (cast (s_dtype a) t (s_val a)) (cast (s_dtype b) t (s_val b)).

Definition scalar_sub (a b : scalar) : scalar :=
  let t := promote (s_dtype a) (s_dtype b) in
  let x := cast (s_dtype a) t (s_val a) in
  let y := cast (s_dtype b) t (s_val b) in
  Scalar t (if is_float t then fsub (float_format t) x y
            else match x, y with
                 | FNum p, FNum q =>
                     FNum (inject_Z (wrap_int t (Qtrunc p - Qtrunc q)))
                 | _, _ => FNum 0
                 end).

(** The type in which an array of type [dt] and a scalar of type [st]
    are combined: the type of the array when it is a floating type, the
    common type otherwise. *)
Definition op_dtype (dt st : dtype) : dtype :=
  if is_float dt then dt else promote dt st.

(** The value an array of type [dt] stores for the scalar [b].  A
    Python float stored into an integer array goes through Python's
    [int]. *)
Definition store_cast (dt : dtype) (b : scalar) : result fval :=
  if is_float dt || negb (is_float (s_dtype b)) then
    Ok (cast (s_dtype b) dt (s_val b))
  else
    match s_val b with
    | FNaN => Raise ValueError
    | FInf _ => Raise OverflowError
    | FNum q =>
        let z := Qtrunc q in
        if (- 2 ^ 63 <=? z) && (z <? 2 ^ 63)
        then Ok (FNum (inject_Z (wrap_int dt z)))
        else Raise OverflowError
    end.

(* ===================================================================== *)
(** ** numpy arrays *)
(* ===================================================================== *)

Record ndarray : Type := NdArray {
  nd_dtype : dtype;
  nd_shape : list nat;
  nd_elems : list fval
}.

(** [np.max(arr)], [np.min(arr)]: a reduction with no identity, so an
    empty array raises [ValueError]; a NaN among the elements makes the
    result NaN. *)
Definition fmax2 (x y : fval) : fval :=
  match x, y with
  | FNaN, _ | _, FNaN => FNaN
  | _, _ => if fltb x y then y else x
  end.

Definition fmin2 (x y : fval) : fval :=
  match x, y with
  | FNaN, _ | _, FNaN => FNaN
  | _, _ => if fltb y x then y else x
  end.

Definition np_max (arr : list fval) : result fval :=
  match arr with
  | [] => Raise ValueError
  | x :: xs => Ok (fold_left fmax2 xs x)
  end.

Definition np_min (arr : list fval) : result fval :=
  match arr with
  | [] => Raise ValueError
  | x :: xs => Ok (fold_left fmin2 xs x)
  end.

(** [arr[arr > b] = b] and [arr[arr < b] = b] on an array of type [dt]:
    the comparison is made in the type of the operation, the value
    stored is [b] converted to [dt]. *)
Definition elem_gt (dt : dtype) (x : fval) (b : scalar) : bool :=
  let t := op_dtype dt (s_dtype b) in
  fltb (cast (s_dtype b) t (s_val b)) (cast dt t x).

Definition elem_lt (dt : dtype) (x : fval) (b : scalar) : bool :=
  let t := op_dtype dt (s_dtype b) in
  fltb (cast dt t x) (cast (s_dtype b) t (s_val b)).

Definition assign_where_gt (dt : dtype) (arr : list fval) (b : scalar)
    : result (list fval) :=
  v ← store_cast dt b;
  Ok (map (fun x => if elem_gt dt x b then v else x) arr).

Definition assign_where_lt (dt : dtype) (arr : list fval) (b : scalar)
    : result (list fval) :=
  v ← store_cast dt b;
  Ok (map (fun x => if elem_lt dt x b then v else x) arr).

(** [(dmax - dmin)] as the division of an array of type [dt] takes it:
    the difference of the two scalars, converted to the type of
    [arr * 1.0]. *)
Definition divisor (dt : dtype) (dmax dmin : scalar) : fval :=
  let d := scalar_sub dmax dmin in
  cast (s_dtype d) (op_dtype dt float64) (s_val d).

Definition is_zero (v : fval) : bool :=
  match v with
  | FNum q => Qeq_bool q 0
  | _ => false
  end.

(** The common body of [as_uint8] and [as_uint16] (the two functions
    differ in the target type and in the scale constant only), on the
    flat elements of an array of type [dt].  The guard
    [isinstance(arr, np.int8)] is false for every ndarray, so the body
    always runs; [arr.copy()] makes the function work on a private
    copy.  Next to the elements the body returns whether the division
    was by zero (numpy then signals divide-by-zero or invalid-value in
    a RuntimeWarning and goes on with inf or nan). *)
Definition as_uint_elems (bits : Z) (scale : Q) (dt : dtype)
    (arr : list fval) (dmin dmax : option scalar)
    : result (list Z * bool) :=
  dmax ← match dmax with
         | None => mx ← np_max arr; Ok (Scalar dt mx)
         | Some d => Ok d
         end;
  dmin ← match dmin with
         | None => mn ← np_min arr; Ok (Scalar dt mn)
         | Some d => Ok d
         end;
  mx ← np_max arr;
  arr ← (if scalar_lt dmax (Scalar dt mx) then assign_where_gt dt arr dmax
         else Ok arr);
  mn ← np_min arr;
  arr ← (if scalar_lt (Scalar dt mn) dmin then assign_where_lt dt arr dmin
         else Ok arr);
  if scalar_eq dmax dmin then
    Ok (map (astype_uint bits) arr, false)
  else
    let ft := op_dtype dt float64 in                      (* arr * 1.0 *)
    let f := float_format ft in
    let lo := cast (s_dtype dmin) ft (s_val dmin) in
    let dv := divisor dt dmax dmin in
    Ok (map (fun x =>
               astype_uint bits
                 (fmul f (fdiv f (fsub f (cast dt ft x) lo) dv) (FNum scale)))
            arr,
        is_zero dv).

(** Lists of finite numbers and of integers as elements. *)
Definition reals (qs : list Q) : list fval := map FNum qs.

Definition of_ints (zs : list Z) : list fval :=
  map (fun z => FNum (inject_Z z)) zs.

Definition as_uint8 (arr : ndarray) (dmin dmax : option scalar)
    : result ndarray :=
  out ← as_uint_elems 8 255 (nd_dtype arr) (nd_elems arr) dmin dmax;
  Ok (NdArray uint8 (nd_shape arr) (of_ints out.1)).

Definition as_uint16 (arr : ndarray) (dmin dmax : option scalar)
    : result ndarray :=
  out ← as_uint_elems 16 65535 (nd_dtype arr) (nd_elems arr) dmin dmax;
  Ok (NdArray uint16 (nd_shape arr) (of_ints out.1)).


(* ===================================================================== *)
(** ** Strings and file names *)
(* ===================================================================== *)

(** [str(n)] for an integer. *)
Definition str (n : Z) : string := NilZero.string_of_int (Z.to_int n).

(** ['0' * k]: empty for [k <= 0]. *)
Definition zeros (k : Z) : string :=
  string_of_list_ascii (replicate (Z.to_nat k) "0"%char).

(** [range(n)]. *)
Definition range (n : Z) : list Z := map Z.of_nat (seq 0 (Z.to_nat n)).

(** [lst[n]] for a non-negative index. *)
Definition list_item {A} (lst : list A) (n : Z) : result A :=
  match lst !! Z.to_nat n with
  | Some x => Ok x
  | None => Raise IndexError
  end.

(** [np.power(10, k)] on Python ints: computed in int64, with silent
    wrap-around. *)
Definition np_power10 (k : Z) : Z := wrap_int64 (10 ^ k).

(** The search loop of [_add_index_to_string]: the first [n] of the
    range with [ind < 10^(n+1)] returns; falling off the end of the
    loop, the function returns Python's [None]. *)
Fixpoint add_index_loop (strng : string) (ind : Z)
    (string_index : list string) (ns : list Z) : result (option string) :=
  match ns with
  | [] => Ok None
  | n :: ns' =>
      if ind <? np_power10 (n + 1) then
        z ← list_item string_index n;
        Ok (Some (strng +:+ (("_" +:+ z) +:+ str ind)))
      else add_index_loop strng ind string_index ns'
  end.

Definition _add_index_to_string (strng : string) (ind digit : Z)
    : result (option string) :=
  let string_index := map (fun m => zeros (digit - m - 1)) (range digit) in
  add_index_loop strng ind string_index (range digit).

(** [s.split(".")]. *)
Fixpoint split_dot (s : string) : list string :=
  match s with
  | EmptyString => [EmptyString]
  | String c s' =>
      if Ascii.eqb c "."%char then EmptyString :: split_dot s'
      else match split_dot s' with
           | [] => [String c EmptyString]
           | p :: ps => String c p :: ps
           end
  end.

(** [lst[-k]] for [k >= 1]. *)
Definition list_item_neg {A} (lst : list A) (k : nat) : result A :=
  if (k <=? length lst)%nat then
    match lst !! (length lst - k)%nat with
    | Some x => Ok x
    | None => Raise IndexError
    end
  else Raise IndexError.


(* ===================================================================== *)
(** ** Python objects with identity *)
(* ===================================================================== *)

(** What [as_float32] can be handed: a numpy scalar of some dtype or an
    ndarray.  Objects live in a heap, a reference is an address. *)
Inductive pyobj : Type :=
| PyScalar (t : dtype) (v : fval)
| PyNdarray (a : ndarray).

Abbreviation heap := (list pyobj) (only parsing).
Abbreviation addr := nat (only parsing).

(** [isinstance(o, np.float32)]: [np.float32] is the scalar type, of
    which an ndarray is never an instance, whatever its dtype. *)
Definition isinstance_np_float32 (o : pyobj) : bool :=
  match o with
  | PyScalar float32 _ => true
  | _ => false
  end.

(** The array built by [np.array(o, dtype='float32')] (a copy): every
    element is converted to float32, which rounds it to binary32 unless
    it is float32 already. *)
Definition np_array_float32 (o : pyobj) : ndarray :=
  match o with
  | PyScalar t v => NdArray float32 [] [cast t float32 v]
  | PyNdarray a =>
      NdArray float32 (nd_shape a) (map (cast (nd_dtype a) float32) (nd_elems a))
  end.

(** The object [as_float32] returns, as a value. *)
Definition as_float32_value (o : pyobj) : pyobj :=
  if negb (isinstance_np_float32 o) then PyNdarray (np_array_float32 o)
  else o.

(** [as_float32] on references: the returned reference and the heap
    after the call.  (A reference that names no object does not occur in
    Python; the model raises there.) *)
Definition as_float32 (h : heap) (arr : addr) : result (addr * heap) :=
  match h !! arr with
  | None => Raise UnboundLocalError
  | Some o =>
      if negb (isinstance_np_float32 o) then
        Ok (length h, h ++ [PyNdarray (np_array_float32 o)])
      else Ok (arr, h)
  end.

(** [dat[dat < 0.0] = val] on an array of type [dt]. *)
Definition assign_where_neg (dt : dtype) (arr : list fval) (val : Q)
    : result (list fval) :=
  v ← store_cast dt (py_float val);
  Ok (map (fun x => if elem_lt dt x (py_float 0) then v else x) arr).

(** [remove_neg] on references: the returned reference and the heap
    after the call.  The masked assignment writes into the object
    [as_float32] returned; a numpy scalar supports no item assignment
    ([TypeError]). *)
Definition remove_neg (h : heap) (dat : addr) (val : Q)
    : result (addr * heap) :=
  r ← as_float32 h dat;
  match r.2 !! r.1 with
  | Some (PyNdarray a) =>
      elems ← assign_where_neg (nd_dtype a) (nd_elems a) val;
      Ok (r.1, <[r.1 := PyNdarray (NdArray (nd_dtype a) (nd_shape a) elems)]>
                 r.2)
  | Some (PyScalar _ _) => Raise TypeError
  | None => Raise UnboundLocalError
  end.

(* ===================================================================== *)
(** ** The file system *)
(* ===================================================================== *)

(** A path names a file by its literal string.  A TIFF file holds one
    2-D image; an HDF5 file maps object paths to objects. *)
Inductive h5obj : Type :=
| H5String (s : string)
| H5Group
| H5Dataset (a : ndarray).

Record image : Type := Image {
  im_dtype : dtype;
  im_rows : nat;
  im_cols : nat;
  im_px : list fval
}.

Inductive file : Type :=
| TiffFile (img : image)
| Hdf5File (objs : gmap string h5obj).

Record filesystem : Type := FileSystem {
  fs_files : gmap string file;
  fs_dirs : gset string
}.

(** [os.path.abspath] and [os.path.dirname] are functions of the
    environment. *)
Class OsPath : Type := {
  abspath : string -> string;
  dirname : string -> string
}.

Definition isfile (fs : filesystem) (p : string) : bool :=
  bool_decide (is_Some (fs_files fs !! p)).

Definition path_exists (fs : filesystem) (p : string) : bool :=
  isfile fs p || bool_decide (p ∈ fs_dirs fs).

Definition makedirs (fs : filesystem) (p : string) : filesystem :=
  FileSystem (fs_files fs) ({[p]} ∪ fs_dirs fs).

Definition write_file (fs : filesystem) (p : string) (f : file) : filesystem :=
  FileSystem (<[p := f]> (fs_files fs)) (fs_dirs fs).

(** The [while not _flag] loop of [_suggest_new_fname], from [indq]. *)
Fixpoint suggest_loop (fuel : nat) (fs : filesystem) (fname ext : string)
    (indq : Z) : result string :=
  match fuel with
  | O => NoReturn
  | S fuel' =>
      let _fname := (fname +:+ "-") +:+ str indq in
      if negb (isfile fs (_fname +:+ ext)) then Ok _fname
      else suggest_loop fuel' fs fname ext (indq + 1)
  end.

(** The loop is given one more round than there are files: enough for
    it to return (see [suggest_loop_returns]). *)
Definition _suggest_new_fname (fs : filesystem) (fname : string)
    : result string :=
  e ← list_item_neg (split_dot fname) 1;
  let ext := "." +:+ e in
  fname ← list_item_neg (split_dot fname) 2;
  fname ← suggest_loop (S (size (fs_files fs))) fs fname ext 1;
  Ok (fname +:+ ext).

(* ===================================================================== *)
(** ** State and exceptions *)
(* ===================================================================== *)

(** A call that updates a state [St] and may raise: the state reached is
    kept when an exception is raised. *)
Definition M (St A : Type) : Type := St -> result A * St.

#[global] Instance M_ret {St} : MRet (M St) := fun A a s => (Ok a, s).

#[global] Instance M_bind {St} : MBind (M St) := fun A B k m s =>
  match m s with
  | (Ok a, s') => k a s'
  | (Raise e, s') => (Raise e, s')
  | (NoReturn, s') => (NoReturn, s')
  end.

Definition lift {St A} (r : result A) : M St A := fun s => (r, s).
Definition get {St} : M St St := fun s => (Ok s, s).
Definition put {St} (s : St) : M St unit := fun _ => (Ok tt, s).

Fixpoint for_each {St A} (l : list A) (body : A -> M St unit) : M St unit :=
  match l with
  | [] => mret tt
  | x :: xs => _ ← body x; for_each xs body
  end.


(* ===================================================================== *)
(** ** Slicing *)
(* ===================================================================== *)

(** [slice(start, stop)] with non-negative bounds and unit step; the
    bounds are clipped to the length of the axis. *)
Record pyslice : Type := Slice { sl_start : nat; sl_stop : nat }.

Definition prod_shape (shape : list nat) : nat := foldr Nat.mul 1%nat shape.

(** [arr[s1, s2, ...]] on row-major elements. *)
Fixpoint take_slices (shape : list nat) (sl : list pyslice)
    (elems : list fval) : list fval :=
  match shape, sl with
  | n :: shape', s :: sl' =>
      let stride := prod_shape shape' in
      let lo := Nat.min (sl_start s) n in
      let hi := Nat.min (sl_stop s) n in
      flat_map (fun i => take_slices shape' sl'
                           (take stride (drop (i * stride) elems)))
               (seq lo (hi - lo))
  | _, _ => elems
  end.

Fixpoint sliced_shape (shape : list nat) (sl : list pyslice) : list nat :=
  match shape, sl with
  | n :: shape', s :: sl' =>
      (Nat.min (sl_stop s) n - Nat.min (sl_start s) n)%nat
        :: sliced_shape shape' sl'
  | _, _ => shape
  end.

Definition getitem_slices (arr : ndarray) (sl : list pyslice) : ndarray :=
  NdArray (nd_dtype arr) (sliced_shape (nd_shape arr) sl)
          (take_slices (nd_shape arr) sl (nd_elems arr)).

Definition default_slice (dim : option pyslice) (n : nat) : pyslice :=
  match dim with
  | None => Slice 0 n
  | Some s => s
  end.

Definition _slice_array (arr : ndarray) (dim1 dim2 dim3 dim4 : option pyslice)
    : result ndarray :=
  match nd_shape arr with
  | [n1] =>
      let dim1 := default_slice dim1 n1 in
      Ok (getitem_slices arr [dim1])
  | [n1; n2] =>
      let dim1 := default_slice dim1 n1 in
      let dim2 := default_slice dim2 n2 in
      Ok (getitem_slices arr [dim1; dim2])
  | [n1; n2; n3] =>
      let dim1 := default_slice dim1 n1 in
      let dim2 := default_slice dim2 n2 in
      let dim3 := default_slice dim3 n3 in
      Ok (getitem_slices arr [dim1; dim2; dim3])
  | [n1; n2; n3; n4] =>
      let dim1 := default_slice dim1 n1 in
      let dim2 := default_slice dim2 n2 in
      let dim3 := default_slice dim3 n3 in
      let dim4 := default_slice dim4 n4 in
      Ok (getitem_slices arr [dim1; dim2; dim3; dim4])
  | [] => Raise IndexError          (* arr[:] on a 0-d array *)
  | _ => Ok arr                     (* arr[:] *)
  end.

(* ===================================================================== *)
(** ** HDF5 *)
(* ===================================================================== *)

(** [h5py.File(fname, 'w')]: creates the file, or truncates it.  The
    folder of [fname] is taken to exist: the model has no call that
    fails here. *)
Definition h5_create_file (fname : string) : M filesystem unit :=
  fs ← get; put (write_file fs fname (Hdf5File ∅)).

(** [create_dataset] / [create_group] in the open file [fname]: the name
    must be new. *)
Definition h5_create (fname name : string) (o : h5obj) : M filesystem unit :=
  fs ← get;
  match fs_files fs !! fname with
  | Some (Hdf5File objs) =>
      match objs !! name with
      | Some _ => lift (Raise ValueError)
      | None => put (write_file fs fname (Hdf5File (<[name := o]> objs)))
      end
  | _ => lift (Raise IOError)
  end.

Definition write_hdf5 (data : ndarray) (fname gname : string)
    (overwrite : bool) : M filesystem unit :=
  let fname := fname +:+ ".h5" in
  fs ← get;
  fname ← lift (if negb overwrite then
                  if isfile fs fname then _suggest_new_fname fs fname
                  else Ok fname
                else Ok fname);
  _ ← h5_create_file fname;
  _ ← h5_create fname "implements" (H5String "exchange");
  _ ← h5_create fname gname H5Group;
  _ ← h5_create fname (gname +:+ "/" +:+ "data") (H5Dataset data);
  mret tt.

(** [s.split("/")]. *)
Fixpoint split_slash (s : string) : list string :=
  match s with
  | EmptyString => [EmptyString]
  | String c s' =>
      if Ascii.eqb c "/"%char then EmptyString :: split_slash s'
      else match split_slash s' with
           | [] => [String c EmptyString]
           | p :: ps => String c p :: ps
           end
  end.

Fixpoint join_slash (l : list string) : string :=
  match l with
  | [] => EmptyString
  | [p] => p
  | p :: ps => p +:+ "/" +:+ join_slash ps
  end.

(** The object path [name] as HDF5 resolves it from the root group:
    empty components (a leading, a trailing or a doubled ["/"]) and
    ["."] components count for nothing. *)
Definition h5_path (name : string) : string :=
  join_slash (filter (fun c => negb (String.eqb c "") && negb (String.eqb c "."))
                     (split_slash name)).

(** [f[name]]: the path is resolved; the empty path is the root
    group. *)
Definition h5_getitem (objs : gmap string h5obj) (name : string)
    : result h5obj :=
  let p := h5_path name in
  if String.eqb p "" then Ok H5Group
  else match objs !! p with
       | Some o => Ok o
       | None => Raise KeyError
       end.

Definition read_hdf5 `{OsPath} (fs : filesystem) (fname gname : string)
    (dim1 dim2 dim3 dim4 : option pyslice) : result ndarray :=
  let fname := abspath fname in
  f ← match fs_files fs !! fname with
      | Some (Hdf5File objs) => Ok objs
      | _ => Raise IOError
      end;
  data ← h5_getitem f gname;
  match data with
  | H5Dataset arr => _slice_array arr dim1 dim2 dim3 dim4
  | H5Group => Raise AttributeError     (* a group has no shape *)
  | H5String _ => Raise ValueError      (* a scalar dataset is not sliced *)
  end.

(* ===================================================================== *)
(** ** TIFF stacks *)
(* ===================================================================== *)

(** [sio.imsave(fname, arr)] of a 2-D array, [sio.imread(fname)]. *)
Definition imsave (fs : filesystem) (fname : string) (arr : ndarray)
    : result filesystem :=
  match nd_shape arr with
  | [h; w] =>
      Ok (write_file fs fname
            (TiffFile (Image (nd_dtype arr) h w (nd_elems arr))))
  | _ => Raise ValueError
  end.

Definition imread (fs : filesystem) (fname : string) : result image :=
  match fs_files fs !! fname with
  | Some (TiffFile img) => Ok img
  | Some _ => Raise ValueError          (* the file is no TIFF file *)
  | None => Raise IOError
  end.

(** The state of a call of [write_tiff_stack]: the caller's array
    object [data], which the call updates in place, and the file
    system. *)
Record wstate : Type := WState { w_data : ndarray; w_fs : filesystem }.

Definition get_data : M wstate ndarray := fun s => (Ok (w_data s), s).
Definition get_fs : M wstate filesystem := fun s => (Ok (w_fs s), s).
Definition set_elems (elems : list fval) : M wstate unit := fun s =>
  (Ok tt, WState (NdArray (nd_dtype (w_data s)) (nd_shape (w_data s)) elems)
                 (w_fs s)).
Definition set_fs (fs : filesystem) : M wstate unit := fun s =>
  (Ok tt, WState (w_data s) fs).

(** The views [data[m, :, :]], [data[:, m, :]] and [data[:, :, m]] of a
    3-D array.  The writer only reads them ([as_uint8], [as_uint16] and
    [np.array] copy first), so a view is kept as a value. *)
Definition plane (data : ndarray) (axis : Z) (m : nat) : result ndarray :=
  match nd_shape data with
  | [nx; ny; nz] =>
      let e := nd_elems data in
      if axis =? 0 then
        if decide (m < nx)%nat then
          Ok (NdArray (nd_dtype data) [ny; nz]
                (take (ny * nz) (drop (m * (ny * nz)) e)))
        else Raise IndexError
      else if axis =? 1 then
        if decide (m < ny)%nat then
          Ok (NdArray (nd_dtype data) [nx; nz]
                (flat_map (fun i => take nz (drop (i * (ny * nz) + m * nz) e))
                          (seq 0 nx)))
        else Raise IndexError
      else if axis =? 2 then
        if decide (m < nz)%nat then
          Ok (NdArray (nd_dtype data) [nx; ny]
                (flat_map (fun r => take 1 (drop (r * nz + m) e))
                          (seq 0 (nx * ny))))
        else Raise IndexError
      else Raise UnboundLocalError
  | _ => Raise IndexError
  end.

(** The dtype dispatch of the writer.  The source compares with [is];
    for the interned literals callers pass this is string equality. *)
Definition convert_plane (dtype : string) (arr : ndarray)
    (dmin dmax : scalar) : result ndarray :=
  if String.eqb dtype "uint8" then as_uint8 arr (Some dmin) (Some dmax)
  else if String.eqb dtype "uint16" then as_uint16 arr (Some dmin) (Some dmax)
  else if String.eqb dtype "float32" then
    match as_float32_value (PyNdarray arr) with
    | PyNdarray a => Ok a
    | PyScalar _ _ => Raise TypeError
    end
  else Ok arr.

(** One round of the writer's loop, for position [m] of [ind]. *)
Definition write_tiff_body (fname ext : string) (axis id digit : Z)
    (overwrite : bool) (dtype : string) (dmin dmax : scalar) (m : Z)
    : M wstate unit :=
  s ← lift (_add_index_to_string fname (id + m) digit);
  new_fname ← match s with
              | Some s => mret (s +:+ ext)
              | None => lift (Raise TypeError)     (* None + ext *)
              end;
  fs ← get_fs;
  new_fname ← lift (if negb overwrite then
                      if isfile fs new_fname
                      then _suggest_new_fname fs new_fname
                      else Ok new_fname
                    else Ok new_fname);
  data ← get_data;
  arr ← lift (plane data axis (Z.to_nat m));
  arr ← lift (convert_plane dtype arr dmin dmax);
  fs ← lift (imsave fs new_fname arr);
  set_fs fs.

(** The first part of [write_tiff_stack]: the bounds are resolved and
    the caller's array is clipped in place.  A bound the caller gives
    is a Python float.  Returns [(dmin, dmax)]. *)
Definition clip_in_place (dmin dmax : option Q) : M wstate (scalar * scalar) :=
  data ← get_data;
  let dt := nd_dtype data in
  dmax ← match dmax with
         | None => mx ← lift (np_max (nd_elems data)); mret (Scalar dt mx)
         | Some d => mret (py_float d)
         end;
  dmin ← match dmin with
         | None => mn ← lift (np_min (nd_elems data)); mret (Scalar dt mn)
         | Some d => mret (py_float d)
         end;
  mx ← lift (np_max (nd_elems data));
  _ ← (if scalar_lt dmax (Scalar dt mx) then
         arr ← lift (assign_where_gt dt (nd_elems data) dmax); set_elems arr
       else mret tt);
  data ← get_data;
  mn ← lift (np_min (nd_elems data));
  _ ← (if scalar_lt (Scalar dt mn) dmin then
         arr ← lift (assign_where_lt dt (nd_elems data) dmin); set_elems arr
       else mret tt);
  mret (dmin, dmax).

(** The second part: the folder is created and the planes are saved. *)
Definition export_planes (fname ext dir_path : string) (axis id digit : Z)
    (overwrite : bool) (dtype : string) (dmin dmax : scalar)
    : M wstate unit :=
  fs ← get_fs;
  _ ← (if negb (path_exists fs dir_path) then set_fs (makedirs fs dir_path)
       else mret tt);
  data ← get_data;
  shp ← match nd_shape data with
        | [nx; ny; nz] => mret (nx, ny, nz)
        | _ => lift (Raise ValueError)
        end;
  let '(nx, ny, nz) := shp in
  end_id ← (if axis =? 0 then mret (id + Z.of_nat nx)
            else if axis =? 1 then mret (id + Z.of_nat ny)
            else if axis =? 2 then mret (id + Z.of_nat nz)
            else lift (Raise UnboundLocalError));
  (* ind = range(id, end_id); for m in range(len(ind)) *)
  for_each (range (end_id - id))
           (write_tiff_body fname ext axis id digit overwrite dtype dmin dmax).

Definition write_tiff_stack `{OsPath} (fname : string) (axis id digit : Z)
    (overwrite : bool) (dtype : string) (dmin dmax : option Q)
    : M wstate unit :=
  let ext := ".tiff" in
  let fname := abspath fname in
  let dir_path := dirname fname in
  bounds ← clip_in_place dmin dmax;
  export_planes fname ext dir_path axis id digit overwrite dtype
                (fst bounds) (snd bounds).

(** [np.arange(a, b)]. *)
Definition np_arange (a b : Z) : list Z :=
  map (fun i => a + Z.of_nat i) (seq 0 (Z.to_nat (b - a))).

(** [data[a] = out] on a buffer of shape [(sx, sy, sz)]: the image is
    broadcast to [(sy, sz)] and its elements are converted to the type
    of the buffer. *)
Definition broadcast_image (out : image) (sy sz : nat)
    : result (list fval) :=
  if decide ((im_rows out = sy ∨ im_rows out = 1%nat)
             ∧ (im_cols out = sz ∨ im_cols out = 1%nat)) then
    Ok (flat_map (fun j =>
          flat_map (fun k =>
            take 1 (drop ((if decide (im_rows out = sy) then j else 0)
                          * im_cols out
                          + (if decide (im_cols out = sz) then k else 0))%nat
                         (im_px out)))
            (seq 0 sz))
          (seq 0 sy))
  else Raise ValueError.

Definition setitem_plane (data : ndarray) (a : nat) (out : image)
    : result ndarray :=
  match nd_shape data with
  | [sx; sy; sz] =>
      if decide (a < sx)%nat then
        px ← broadcast_image out sy sz;
        Ok (NdArray (nd_dtype data) (nd_shape data)
              (take (a * (sy * sz)) (nd_elems data)
               ++ map (cast (im_dtype out) (nd_dtype data)) px
               ++ drop ((a + 1) * (sy * sz)) (nd_elems data)))
      else Raise IndexError
  | _ => Raise IndexError
  end.

Definition np_zeros_float32 (shape : list nat) : ndarray :=
  NdArray float32 shape (replicate (prod_shape shape) (FNum 0)).

(** The locals [a] and [data] of [read_tiff_stack]; [data] is unbound
    until the first image has been read. *)
Record rstate : Type := RState { r_a : nat; r_data : option ndarray }.

(** The inner loop [for n in range(digit)] for index [m]; the round
    that finds the bracket of [m] reads the image and breaks. *)
Fixpoint read_tiff_inner (fs : filesystem) (fname ext : string)
    (d : list string) (sx : nat) (m : Z) (ns : list Z) (st : rstate)
    : result rstate :=
  match ns with
  | [] => Ok st
  | n :: ns' =>
      if m <? np_power10 (n + 1) then
        z ← list_item d n;
        let img := (((fname +:+ z) +:+ str m) +:+ ".") +:+ ext in
        out ← imread fs img;
        data ← (if decide (r_a st = 0%nat) then
                  Ok (np_zeros_float32 [sx; im_rows out; im_cols out])
                else match r_data st with
                     | Some data => Ok data
                     | None => Raise UnboundLocalError
                     end);
        data ← setitem_plane data (r_a st) out;
        Ok (RState (r_a st + 1) (Some data))
      else read_tiff_inner fs fname ext d sx m ns' st
  end.

Fixpoint read_tiff_outer (fs : filesystem) (fname ext : string)
    (d : list string) (sx : nat) (digit : Z) (ind : list Z) (st : rstate)
    : result rstate :=
  match ind with
  | [] => Ok st
  | m :: ind' =>
      st ← read_tiff_inner fs fname ext d sx m (range digit) st;
      read_tiff_outer fs fname ext d sx digit ind' st
  end.

Definition read_tiff_stack (fs : filesystem) (fname : string) (span : Z * Z)
    (digit : Z) (ext : string) : result ndarray :=
  let d := map (fun x => zeros (digit - x - 1)) (range digit) in
  let ind := np_arange (fst span) (snd span + 1) in
  st ← read_tiff_outer fs fname ext d (length ind) digit ind (RState 0 None);
  match r_data st with
  | Some data => Ok data
  | None => Raise UnboundLocalError
  end.

(* ===================================================================== *)
(** ** Notions used in the statements *)
(* ===================================================================== *)

(** The larger and the smaller of two finite numbers, as the
    reductions pick them. *)
Definition Qmax2 (a b : Q) : Q := if Qltb a b then b else a.
Definition Qmin2 (a b : Q) : Q := if Qltb b a then b else a.

(** [v] clamped to [[lo, hi]], as the two masked assignments do it. *)
Definition clamp (lo hi v : Q) : Q :=
  let v1 := if Qltb hi v then hi else v in
  if Qltb v1 lo then lo else v1.

(** The expression [(c * 1.0 - lo) / (hi - lo) * scale], every
    operation of which is rounded to the format [f]. *)
Definition rescaled (f : format) (scale lo hi c : Q) : fval :=
  fmul f (fdiv f (fsub f (FNum c) (FNum lo)) (fsub f (FNum hi) (FNum lo)))
       (FNum scale).

(** The element of the output for the finite input element [v], with
    bounds [lo < hi]. *)
Definition uint_value (bits : Z) (f : format) (scale lo hi v : Q) : Z :=
  astype_uint bits (rescaled f scale lo hi (clamp lo hi v)).



(** The scalar [s] is a bound of value [q] for an array of the
    floating type [dt]: a floating scalar whose finite value the type
    of the array holds exactly (as float64 holds every Python float and
    every float32 scalar, and float32 the numbers of binary32). *)
Definition is_bound (dt : dtype) (s : scalar) (q : Q) : Prop :=
  is_float (s_dtype s) = true /\ s_val s = FNum q /\
  cast (s_dtype s) dt (FNum q) = FNum q.

(** The bounds in force: those given, or the minimum [mn] and the
    maximum [mx] of the array. *)
Definition bound_or (dt : dtype) (b : option scalar) (m : Q) : scalar :=
  default (Scalar dt (FNum m)) b.

(** Python floats as bounds. *)
Definition py_floats (b : option Q) : option scalar := py_float <$> b.

(** The two masked assignments on finite numbers, with the bound
    itself stored. *)
Definition clip_gt (qs : list Q) (b : Q) : list Q :=
  map (fun v => if Qltb b v then b else v) qs.

Definition clip_lt (qs : list Q) (b : Q) : list Q :=
  map (fun v => if Qltb v b then b else v) qs.

Definition ramp : ndarray := NdArray float64 [3%nat] (reals [0; 3; 8]%Q).


Definition int_ramp : ndarray := NdArray int64 [3%nat] (reals [0; 3; 8]%Q).


(** The decimal digits of a non-negative integer: [str n] reads back as
    [n], also behind leading zeros. *)
Definition parse_digits (s : string) : option Z :=
  Z.of_uint <$> NilEmpty.uint_of_string s.

(** The decimal index left-padded with zeros to width [w], as the
    specification words the suffix. *)
Definition zfill (w : nat) (s : string) : string :=
  zeros (Z.of_nat w - Z.of_nat (String.length s)) +:+ s.

Definition f32_array : ndarray := NdArray float32 [2%nat] (reals [1; 2]%Q).

(** A float32 volume of two planes of shape (1, 2). *)
Definition small_volume : ndarray :=
  NdArray float32 [2; 1; 2]%nat (reals [0; 1 # 2; 1; 3]%Q).

(** The candidate name the loop of [_suggest_new_fname] tests in round
    [j]. *)
Definition candidate (fname ext : string) (j : Z) : string :=
  ((fname +:+ "-") +:+ str j) +:+ ext.

(** The string holds no ["."]. *)
Fixpoint no_dot (s : string) : bool :=
  match s with
  | EmptyString => true
  | String c s' => negb (Ascii.eqb c ".") && no_dot s'
  end.

(** The objects [write_hdf5] puts into the file. *)
Definition exchange_layout (data : ndarray) (gname : string)
    : gmap string h5obj :=
  <[gname +:+ "/" +:+ "data" := H5Dataset data]>
    (<[gname := H5Group]> (<["implements" := H5String "exchange"]> ∅)).

(** The name of the file [write_hdf5] writes. *)
Definition hdf5_target (fs : filesystem) (fname : string) (overwrite : bool)
    : result string :=
  if negb overwrite then
    if isfile fs (fname +:+ ".h5") then _suggest_new_fname fs (fname +:+ ".h5")
    else Ok (fname +:+ ".h5")
  else Ok (fname +:+ ".h5").

(** A simple environment: relative paths are resolved against [/cwd],
    the folder of a path is what precedes its last slash. *)
Fixpoint before_last_slash (p : string) : option string :=
  match p with
  | EmptyString => None
  | String c p' =>
      match before_last_slash p' with
      | Some d => Some (String c d)
      | None => if Ascii.eqb c "/" then Some EmptyString else None
      end
  end.

Definition cwd_paths : OsPath := {|
  abspath p := match p with
               | String "/" _ => p
               | _ => "/cwd/" +:+ p
               end;
  dirname p := default EmptyString (before_last_slash p)
|}.

Definition no_files : filesystem := FileSystem ∅ ∅.

Definition two_outs : filesystem :=
  FileSystem (<["out-1.h5" := Hdf5File ∅]> (<["out.h5" := Hdf5File ∅]> ∅)) ∅.

Definition well_shaped (a : ndarray) : Prop :=
  length (nd_elems a) = prod_shape (nd_shape a).

(** The name the writer builds for index [ind], without extension. *)
Definition stack_name (fname : string) (digit ind : Z) : string :=
  match _add_index_to_string fname ind digit with
  | Ok (Some s) => s
  | _ => EmptyString
  end.


(** The file the writer saves for plane [m] along axis 0 with dtype
    'float32'. *)
Definition plane_file (data : ndarray) (ny nz m : nat) : file :=
  TiffFile (Image float32 ny nz
              (take (ny * nz) (drop (m * (ny * nz)) (nd_elems data)))).

(** The files after the planes [ms] have been saved. *)
Definition saved (fname : string) (id digit : Z) (data : ndarray)
    (ny nz : nat) (fs : filesystem) (ms : list Z) : filesystem :=
  foldl (fun fs m =>
           write_file fs (stack_name fname digit (id + m) +:+ ".tiff")
                      (plane_file data ny nz (Z.to_nat m)))
        fs ms.

(** What the reader does with the image [img] once the bracket of the
    index is found. *)
Definition read_one (fs : filesystem) (img : string) (sx : nat) (st : rstate)
    : result rstate :=
  out ← imread fs img;
  data ← (if decide (r_a st = 0%nat) then
            Ok (np_zeros_float32 [sx; im_rows out; im_cols out])
          else match r_data st with
               | Some data => Ok data
               | None => Raise UnboundLocalError
               end);
  data ← setitem_plane data (r_a st) out;
  Ok (RState (r_a st + 1) (Some data)).

(** The buffer of the reader after [a] planes of the elements [E] have
    been stored: the rest is still zero. *)
Definition partial_stack (E : list fval) (nx ny nz a : nat) : ndarray :=
  NdArray float32 [nx; ny; nz]
          (take (a * (ny * nz)) E
           ++ replicate ((nx - a) * (ny * nz)) (FNum 0)).

Definition rec_written : wstate :=
  snd (@write_tiff_stack cwd_paths "rec" 0 0 5 false "uint8" None None
         (WState small_volume no_files)).

(** A file system in which the name of the first plane is taken. *)
Definition one_plane_taken : filesystem :=
  FileSystem (<["/cwd/rec_00000.tiff" := Hdf5File ∅]> ∅) ∅.

(** The files after the images [img m] of the planes [ms] have been
    saved under the writer's names. *)
Definition saved_with (fname : string) (id digit : Z) (img : Z -> image)
    (fs : filesystem) (ms : list Z) : filesystem :=
  foldl (fun fs m =>
           write_file fs (stack_name fname digit (id + m) +:+ ".tiff")
                      (TiffFile (img m)))
        fs ms.

(** The image of plane [m] along axis 0 as the writer saves it with
    dtype 'float32'. *)
Definition float32_image (data : ndarray) (ny nz : nat) (m : Z) : image :=
  Image float32 ny nz
        (take (ny * nz) (drop (Z.to_nat m * (ny * nz)) (nd_elems data))).

(** The 8-bit image of plane [m] of a volume of finite elements [qs],
    rescaled in format [f] with the bounds [lo < hi]. *)
Definition uint8_image (f : format) (lo hi : Q) (qs : list Q) (ny nz : nat)
    (m : Z) : image :=
  Image uint8 ny nz
        (of_ints (map (uint_value 8 f 255 lo hi)
                      (take (ny * nz) (drop (Z.to_nat m * (ny * nz)) qs)))).

(** The state in which the first part of [write_tiff_stack] leaves the
    caller's array and the files. *)
Definition after_clip (dmin dmax : option Q) (s : wstate) : wstate :=
  snd (clip_in_place dmin dmax s).

(* ===================================================================== *)
(** * Properties *)
(* ===================================================================== *)

(** ** Comparisons *)

Lemma Qltb_lt (x y : Q) : Qltb x y = true <-> (x < y)%Q.
Proof.
  unfold Qltb. rewrite negb_true_iff, <- not_true_iff_false, Qle_bool_iff.
  split; [apply Qnot_le_lt | apply Qlt_not_le].
Qed.

Lemma Qltb_ge (x y : Q) : Qltb x y = false <-> (y <= x)%Q.
Proof. unfold Qltb. rewrite negb_false_iff. apply Qle_bool_iff. Qed.

Lemma Qltb_comp (x x' y y' : Q) :
  (x == x')%Q -> (y == y')%Q -> Qltb x y = Qltb x' y'.
Proof.
  intros Ex Ey. destruct (Qltb x' y') eqn:E.
  - apply Qltb_lt. apply Qltb_lt in E. lra.
  - apply Qltb_ge. apply Qltb_ge in E. lra.
Qed.

Lemma Qeq_bool_comp (x x' y y' : Q) :
  (x == x')%Q -> (y == y')%Q -> Qeq_bool x y = Qeq_bool x' y'.
Proof.
  intros Ex Ey. destruct (Qeq_bool x' y') eqn:E.
  - apply Qeq_bool_iff. apply Qeq_bool_iff in E. lra.
  - apply not_true_iff_false. intros H. apply Qeq_bool_iff in H.
    apply not_true_iff_false in E. apply E, Qeq_bool_iff. lra.
Qed.

Lemma Qeq_bool_false (x y : Q) : Qeq_bool x y = false <-> ~ (x == y)%Q.
Proof.
  rewrite <- not_true_iff_false. by rewrite Qeq_bool_iff.
Qed.

(** ** Rounding to the nearest integer, ties to even *)

Lemma rhe_cases (q : Q) :
  let f := Qfloor q in
  (Qround_half_even q = f /\ (q - inject_Z f <= 1 # 2)%Q
     /\ ((q - inject_Z f == 1 # 2)%Q -> Z.even f = true)) \/
  (Qround_half_even q = f + 1 /\ (1 # 2 <= q - inject_Z f)%Q
     /\ ((q - inject_Z f == 1 # 2)%Q -> Z.even f = false)).
Proof.
  intros f. unfold Qround_half_even. fold f.
  destruct (Qltb (q - inject_Z f) (1 # 2)) eqn:E1.
  - apply Qltb_lt in E1. left.
    split; [reflexivity|]. split; [lra | intros H; lra].
  - apply Qltb_ge in E1.
    destruct (Qltb (1 # 2) (q - inject_Z f)) eqn:E2.
    + apply Qltb_lt in E2. right.
      split; [reflexivity|]. split; [lra | intros H; lra].
    + apply Qltb_ge in E2. destruct (Z.even f) eqn:E3.
      * left. split; [reflexivity|]. split; [lra | reflexivity].
      * right. split; [reflexivity|]. split; [lra | reflexivity].
Qed.

Lemma Qfloor_le_lt (q : Q) :
  (inject_Z (Qfloor q) <= q)%Q /\ (q < inject_Z (Qfloor q) + 1)%Q.
Proof.
  split; [apply Qfloor_le|].
  pose proof (Qlt_floor q) as H. rewrite inject_Z_plus in H. exact H.
Qed.

Lemma rhe_mono (x y : Q) :
  (x <= y)%Q -> Qround_half_even x <= Qround_half_even y.
Proof.
  intros Hxy.
  pose proof (Qfloor_resp_le _ _ Hxy) as Hf.
  destruct (Qfloor_le_lt x) as [Hx1 Hx2].
  destruct (Qfloor_le_lt y) as [Hy1 Hy2].
  destruct (rhe_cases x) as [(-> & Hx & Ex)|(-> & Hx & Ex)];
    destruct (rhe_cases y) as [(-> & Hy & Ey)|(-> & Hy & Ey)]; try lia.
  destruct (Z.eq_dec (Qfloor x) (Qfloor y)) as [E|E]; [|lia].
  exfalso. rewrite E in *.
  assert (x - inject_Z (Qfloor y) == 1 # 2)%Q as H1 by lra.
  assert (y - inject_Z (Qfloor y) == 1 # 2)%Q as H2 by lra.
  rewrite (Ex H1) in Ey. specialize (Ey H2). discriminate.
Qed.

Lemma rhe_comp (x y : Q) :
  (x == y)%Q -> Qround_half_even x = Qround_half_even y.
Proof.
  intros H. apply Z.le_antisymm; apply rhe_mono; rewrite H; apply Qle_refl.
Qed.

Lemma rhe_Z (n : Z) : Qround_half_even (inject_Z n) = n.
Proof.
  unfold Qround_half_even. rewrite Qfloor_Z.
  assert (Qltb (inject_Z n - inject_Z n) (1 # 2) = true) as ->; [|reflexivity].
  apply Qltb_lt. lra.
Qed.

(** ** Powers of two *)

Lemma pow2_pos (e : Z) : (0 < 2 ^ e)%Q.
Proof. apply Qpower_0_lt. reflexivity. Qed.

Lemma pow2_le (a b : Z) : a <= b -> (2 ^ a <= 2 ^ b)%Q.
Proof. intros H. apply Qpower_le_compat_l; [exact H | discriminate]. Qed.

Lemma pow2_lt_inv (a b : Z) : (2 ^ a < 2 ^ b)%Q -> a < b.
Proof.
  intros H. destruct (Z_lt_le_dec a b) as [|Hle]; [assumption|].
  apply pow2_le in Hle. lra.
Qed.

Lemma pow2_plus (a b : Z) : (2 ^ (a + b) == 2 ^ a * 2 ^ b)%Q.
Proof. apply Qpower_plus. discriminate. Qed.

Lemma pow2_Z (a : Z) : 0 <= a -> (2 ^ a == inject_Z (2 ^ a))%Q.
Proof. intros H. symmetry. apply (Zpower_Qpower 2 a H). Qed.

Lemma pow2_div (k e : Z) : e <= k -> (2 ^ k / 2 ^ e == inject_Z (2 ^ (k - e)))%Q.
Proof.
  intros H. rewrite <- pow2_Z by lia.
  replace k with ((k - e) + e) at 1 by lia. rewrite pow2_plus.
  pose proof (pow2_pos e). field. lra.
Qed.

(** ** The binary logarithm of a rational *)

Lemma Qlog2_spec (q : Q) :
  ~ (q == 0)%Q -> (2 ^ Qlog2 q <= Qabs q)%Q /\ (Qabs q < 2 ^ (Qlog2 q + 1))%Q.
Proof.
  intros Hq. unfold Qlog2.
  set (n := Z.abs (Qnum q)). set (d := Zpos (Qden q)).
  set (a := Z.log2 n). set (b := Z.log2 d).
  assert (0 < n) as Hn.
  { subst n. destruct q as [[|p|p] dd]; simpl; try lia.
    exfalso. apply Hq. reflexivity. }
  assert (0 < d) as Hd by (subst d; lia).
  destruct (Z.log2_spec n Hn) as [Ha1 Ha2]. fold a in Ha1, Ha2.
  destruct (Z.log2_spec d Hd) as [Hb1 Hb2]. fold b in Hb1, Hb2.
  assert (0 <= a) as Ha0 by apply Z.log2_nonneg.
  assert (0 <= b) as Hb0 by apply Z.log2_nonneg.
  assert (Qabs q == inject_Z n / inject_Z d)%Q as Eq.
  { subst n d. destruct q as [nq dq]. unfold Qabs. simpl.
    unfold Qeq, Qdiv, Qmult, Qinv, inject_Z. simpl. lia. }
  assert (0 < inject_Z d)%Q as Hdq.
  { change 0%Q with (inject_Z 0). rewrite <- Zlt_Qlt. exact Hd. }
  assert (inject_Z (2 ^ a) <= inject_Z n)%Q as Qa1 by (rewrite <- Zle_Qle; lia).
  assert (inject_Z n < inject_Z (2 ^ Z.succ a))%Q as Qa2 by (rewrite <- Zlt_Qlt; lia).
  assert (inject_Z (2 ^ b) <= inject_Z d)%Q as Qb1 by (rewrite <- Zle_Qle; lia).
  assert (inject_Z d < inject_Z (2 ^ Z.succ b))%Q as Qb2 by (rewrite <- Zlt_Qlt; lia).
  rewrite <- !pow2_Z in Qa1, Qa2, Qb1, Qb2 by lia.
  pose proof (pow2_pos a) as Pa. pose proof (pow2_pos b) as Pb.
  assert (2 ^ Z.succ a == 2 * 2 ^ a)%Q as Ea.
  { unfold Z.succ. rewrite pow2_plus. change (2 ^ 1)%Q with 2%Q. ring. }
  assert (2 ^ Z.succ b == 2 * 2 ^ b)%Q as Eb.
  { unfold Z.succ. rewrite pow2_plus. change (2 ^ 1)%Q with 2%Q. ring. }
  rewrite Ea in Qa2. rewrite Eb in Qb2.
  assert (2 ^ (a - b) == 2 ^ a / 2 ^ b)%Q as El.
  { unfold Z.sub. rewrite pow2_plus, Qpower_opp. reflexivity. }
  assert (forall k, 2 ^ (k + 1) == 2 * 2 ^ k)%Q as Es.
  { intros k. rewrite pow2_plus. change (2 ^ 1)%Q with 2%Q. ring. }
  assert (forall k, 2 ^ (k - 1) == 2 ^ k / 2)%Q as Ep.
  { intros k. unfold Z.sub. rewrite pow2_plus, Qpower_opp.
    change (2 ^ 1)%Q with 2%Q. reflexivity. }
  (* |q| lies strictly between 2^(l-1) and 2^(l+1) *)
  assert (2 ^ (a - b) / 2 < Qabs q)%Q as Hlow.
  { rewrite Eq, El. apply Qlt_shift_div_l; [exact Hdq|].
    assert (2 ^ a / 2 ^ b / 2 * inject_Z d
            == (2 ^ a * inject_Z d) / (2 * 2 ^ b))%Q as -> by (field; lra).
    apply Qlt_shift_div_r; [lra|]. nra. }
  assert (Qabs q < 2 * 2 ^ (a - b))%Q as Hhigh.
  { rewrite Eq, El. apply Qlt_shift_div_r; [exact Hdq|].
    assert (2 * (2 ^ a / 2 ^ b) * inject_Z d
            == (2 * 2 ^ a * inject_Z d) / 2 ^ b)%Q as -> by (field; lra).
    apply Qlt_shift_div_l; [lra|]. nra. }
  destruct (Qle_bool (2 ^ (a - b)) (Qabs q)) eqn:E.
  - apply Qle_bool_iff in E. split; [exact E|]. rewrite Es. exact Hhigh.
  - assert (Qabs q < 2 ^ (a - b))%Q as Hlt.
    { apply Qnot_le_lt. intros H. apply Qle_bool_iff in H. congruence. }
    split.
    + rewrite Ep. apply Qlt_le_weak. exact Hlow.
    + replace (a - b - 1 + 1) with (a - b) by lia. exact Hlt.
Qed.

Lemma Qlog2_mono (x y : Q) :
  ~ (x == 0)%Q -> ~ (y == 0)%Q -> (Qabs x <= Qabs y)%Q -> Qlog2 x <= Qlog2 y.
Proof.
  intros Hx Hy Hxy.
  destruct (Qlog2_spec x Hx) as [H1 _].
  destruct (Qlog2_spec y Hy) as [_ H2].
  assert (2 ^ Qlog2 x < 2 ^ (Qlog2 y + 1))%Q as H by lra.
  apply pow2_lt_inv in H. lia.
Qed.

(** ** Rounding in a format *)

Lemma round_at_mono (e : Z) (x y : Q) :
  (x <= y)%Q -> (round_at e x <= round_at e y)%Q.
Proof.
  intros H. unfold round_at. pose proof (pow2_pos e) as P.
  apply Qmult_le_compat_r; [|lra].
  rewrite <- Zle_Qle. apply rhe_mono.
  unfold Qdiv. apply Qmult_le_compat_r; [exact H|].
  apply Qlt_le_weak, Qinv_lt_0_compat, P.
Qed.

Lemma round_at_pow2 (e k : Z) : e <= k -> (round_at e (2 ^ k) == 2 ^ k)%Q.
Proof.
  intros H. unfold round_at.
  rewrite (rhe_comp _ _ (pow2_div k e H)), rhe_Z.
  rewrite <- pow2_Z by lia. rewrite <- pow2_plus.
  by replace (k - e + e) with k by lia.
Qed.

Lemma round_at_0 (e : Z) : (round_at e 0 == 0)%Q.
Proof.
  unfold round_at.
  assert (0 / 2 ^ e == inject_Z 0)%Q as E.
  { pose proof (pow2_pos e). change (inject_Z 0) with 0%Q. field. lra. }
  rewrite (rhe_comp _ _ E), rhe_Z. ring.
Qed.

Section Format.
Variable f : format.
Hypothesis Hprec : 1 <= f_prec f.

(** Rounding of non-negative numbers is monotone, across the binades. *)
Lemma round_fmt_mono (x y : Q) :
  (0 < x)%Q -> (x <= y)%Q ->
  (round_at (fexp f x) x <= round_at (fexp f y) y)%Q.
Proof.
  intros Hx Hxy.
  assert (~ (x == 0)%Q) as Hx0 by lra.
  assert (~ (y == 0)%Q) as Hy0 by lra.
  assert (Qabs x == x)%Q as Ax by (apply Qabs_pos; lra).
  assert (Qabs y == y)%Q as Ay by (apply Qabs_pos; lra).
  pose proof (Qlog2_mono x y Hx0 Hy0 ltac:(lra)) as Hl.
  destruct (Qlog2_spec x Hx0) as [_ Hx2]. rewrite Ax in Hx2.
  destruct (Qlog2_spec y Hy0) as [Hy1 _]. rewrite Ay in Hy1.
  destruct (Z.eq_dec (fexp f x) (fexp f y)) as [E|E].
  - rewrite E. by apply round_at_mono.
  - assert (fexp f x < fexp f y) as Hlt by (unfold fexp in *; lia).
    assert (fexp f y = Qlog2 y - f_prec f + 1) as Ey by (unfold fexp in *; lia).
    assert (x <= 2 ^ Qlog2 y)%Q as HxB.
    { apply Qlt_le_weak. eapply Qlt_le_trans; [exact Hx2|].
      apply pow2_le. unfold fexp in *. lia. }
    apply Qle_trans with (2 ^ Qlog2 y)%Q.
    + apply Qle_trans with (round_at (fexp f x) (2 ^ Qlog2 y)).
      * by apply round_at_mono.
      * rewrite round_at_pow2 by lia. apply Qle_refl.
    + apply Qle_trans with (round_at (fexp f y) (2 ^ Qlog2 y)).
      * rewrite round_at_pow2 by lia. apply Qle_refl.
      * by apply round_at_mono.
Qed.

Lemma round_fmt_nonneg (x : Q) : (0 <= x)%Q -> (0 <= round_at (fexp f x) x)%Q.
Proof.
  intros H. rewrite <- (round_at_0 (fexp f x)). by apply round_at_mono.
Qed.
End Format.

(** ** Rounding to a format *)

Lemma Qlog2_comp (x y : Q) :
  ~ (x == 0)%Q -> (x == y)%Q -> Qlog2 x = Qlog2 y.
Proof.
  intros Hx E.
  assert (~ (y == 0)%Q) as Hy by (rewrite <- E; exact Hx).
  assert (Qabs x == Qabs y)%Q as Ea by (by rewrite E).
  apply Z.le_antisymm; apply Qlog2_mono; auto; rewrite Ea; apply Qle_refl.
Qed.

Lemma round_at_comp (e : Z) (x y : Q) :
  (x == y)%Q -> round_at e x = round_at e y.
Proof.
  intros E. unfold round_at. f_equal. f_equal. apply rhe_comp. by rewrite E.
Qed.

(** Rounding looks at the value of a rational only. *)
Lemma rnd_comp (f : format) (x y : Q) : (x == y)%Q -> rnd f x = rnd f y.
Proof.
  intros E. unfold rnd.
  rewrite (Qeq_bool_comp x y 0 0 E (Qeq_refl 0)).
  destruct (Qeq_bool y 0) eqn:E0; [done|].
  apply Qeq_bool_false in E0.
  assert (~ (x == 0)%Q) as Hx by (by rewrite E).
  unfold fexp. rewrite (Qlog2_comp x y Hx E).
  rewrite (round_at_comp _ x y E).
  by rewrite (Qltb_comp x y 0 0 E (Qeq_refl 0)).
Qed.

Lemma rnd_zero (f : format) (x : Q) : (x == 0)%Q -> rnd f x = FNum 0.
Proof.
  intros E. unfold rnd. apply Qeq_bool_iff in E. by rewrite E.
Qed.

Section Rounding.
Variable f : format.
Hypothesis Hprec : 1 <= f_prec f.

(** Rounding is monotone on the non-negative numbers, and a finite
    result bounds the results below it. *)
Lemma rnd_bounds (x y b : Q) :
  (0 <= x)%Q -> (x <= y)%Q -> rnd f y = FNum b ->
  exists a, rnd f x = FNum a /\ (0 <= a)%Q /\ (a <= b)%Q.
Proof.
  intros Hx Hxy Hy.
  assert (0 <= b)%Q as Hb.
  { unfold rnd in Hy. destruct (Qeq_bool y 0); [by injection Hy as <-|].
    destruct (Qle_bool _ _); [discriminate|]. injection Hy as <-.
    rewrite Qred_correct. apply round_fmt_nonneg. lra. }
  destruct (Qeq_bool x 0) eqn:Ex.
  { exists 0%Q. unfold rnd. rewrite Ex. split; [done|]. split; [lra|done]. }
  apply Qeq_bool_false in Ex.
  assert (0 < x)%Q as Hx0 by lra.
  unfold rnd in Hy |- *.
  assert (Qeq_bool x 0 = false) as -> by (by apply Qeq_bool_false).
  assert (Qeq_bool y 0 = false) as Ey by (apply Qeq_bool_false; lra).
  rewrite Ey in Hy.
  pose proof (round_fmt_mono f Hprec x y Hx0 Hxy) as Hm.
  pose proof (round_fmt_nonneg f x Hx) as Hn.
  destruct (Qle_bool (2 ^ f_emax f) (Qabs (Qred (round_at (fexp f y) y))))
    eqn:Eo; [discriminate|]. injection Hy as <-.
  assert (Qabs (Qred (round_at (fexp f y) y)) < 2 ^ f_emax f)%Q as Ho.
  { apply Qnot_le_lt. intros H. apply Qle_bool_iff in H. congruence. }
  rewrite Qred_correct in Ho. rewrite Qabs_pos in Ho by lra.
  assert (Qle_bool (2 ^ f_emax f) (Qabs (Qred (round_at (fexp f x) x)))
          = false) as ->.
  { apply not_true_iff_false. intros H. apply Qle_bool_iff in H.
    rewrite Qred_correct in H. rewrite Qabs_pos in H by lra. lra. }
  eexists. split; [done|]. rewrite !Qred_correct. split; done.
Qed.

Lemma rnd_le (x y a b : Q) :
  (0 <= x)%Q -> (x <= y)%Q -> rnd f x = FNum a -> rnd f y = FNum b ->
  (0 <= a)%Q /\ (a <= b)%Q.
Proof.
  intros Hx Hxy Ha Hb.
  destruct (rnd_bounds x y b Hx Hxy Hb) as (a' & Ha' & H0 & H1).
  rewrite Ha in Ha'. by injection Ha' as <-.
Qed.

(** A non-negative number is not rounded to a negative one. *)
Lemma rnd_nonneg (x : Q) : (0 <= x)%Q -> fltb (rnd f x) (FNum 0) = false.
Proof.
  intros Hx. unfold rnd.
  destruct (Qeq_bool x 0); [done|].
  destruct (Qle_bool _ _).
  - simpl. by apply Qltb_ge.
  - simpl. apply Qltb_ge. rewrite Qred_correct. by apply round_fmt_nonneg.
Qed.
End Rounding.

Lemma float_format_prec (dt : dtype) : 1 <= f_prec (float_format dt).
Proof. by destruct dt. Qed.

(** The scale constants and 1 are numbers of both formats. *)
Lemma rnd_one (dt : dtype) : rnd (float_format dt) 1 = FNum 1.
Proof. destruct dt; vm_compute; reflexivity. Qed.

Lemma rnd_255 (dt : dtype) : rnd (float_format dt) 255 = FNum 255.
Proof. destruct dt; vm_compute; reflexivity. Qed.

Lemma rnd_65535 (dt : dtype) : rnd (float_format dt) 65535 = FNum 65535.
Proof. destruct dt; vm_compute; reflexivity. Qed.

(** ** Maximum and minimum *)

Lemma fold_max_ge (xs : list Q) (x : Q) :
  (x <= fold_left Qmax2 xs x)%Q /\
  Forall (fun v => (v <= fold_left Qmax2 xs x)%Q) xs.
Proof.
  revert x. induction xs as [|y ys IH]; intros x; simpl.
  - split; [apply Qle_refl | constructor].
  - destruct (IH (Qmax2 x y)) as [H1 H2].
    assert (x <= Qmax2 x y /\ y <= Qmax2 x y)%Q as [Hx Hy].
    { unfold Qmax2. destruct (Qltb x y) eqn:E.
      - apply Qltb_lt in E. lra.
      - apply Qltb_ge in E. lra. }
    split; [lra|]. constructor; [lra | exact H2].
Qed.

Lemma fold_min_le (xs : list Q) (x : Q) :
  (fold_left Qmin2 xs x <= x)%Q /\
  Forall (fun v => (fold_left Qmin2 xs x <= v)%Q) xs.
Proof.
  revert x. induction xs as [|y ys IH]; intros x; simpl.
  - split; [apply Qle_refl | constructor].
  - destruct (IH (Qmin2 x y)) as [H1 H2].
    assert (Qmin2 x y <= x /\ Qmin2 x y <= y)%Q as [Hx Hy].
    { unfold Qmin2. destruct (Qltb y x) eqn:E.
      - apply Qltb_lt in E. lra.
      - apply Qltb_ge in E. lra. }
    split; [lra|]. constructor; [lra | exact H2].
Qed.

Lemma fold_max_elem (xs : list Q) (x : Q) : fold_left Qmax2 xs x ∈ x :: xs.
Proof.
  revert x. induction xs as [|y ys IH]; intros x; simpl.
  { apply list_elem_of_here. }
  specialize (IH (Qmax2 x y)).
  assert (Qmax2 x y = x \/ Qmax2 x y = y) as [E|E].
  { unfold Qmax2. destruct (Qltb x y); auto. }
  all: rewrite E in IH; apply elem_of_cons in IH as [E2|IH];
    rewrite ?E, !elem_of_cons; auto.
Qed.

Lemma fold_min_elem (xs : list Q) (x : Q) : fold_left Qmin2 xs x ∈ x :: xs.
Proof.
  revert x. induction xs as [|y ys IH]; intros x; simpl.
  { apply list_elem_of_here. }
  specialize (IH (Qmin2 x y)).
  assert (Qmin2 x y = x \/ Qmin2 x y = y) as [E|E].
  { unfold Qmin2. destruct (Qltb y x); auto. }
  all: rewrite E in IH; apply elem_of_cons in IH as [E2|IH];
    rewrite ?E, !elem_of_cons; auto.
Qed.

(** On finite numbers the reductions are the exact maximum and
    minimum. *)
Lemma fold_fmax2_reals (xs : list Q) (x : Q) :
  fold_left fmax2 (reals xs) (FNum x) = FNum (fold_left Qmax2 xs x).
Proof.
  revert x. induction xs as [|y ys IH]; intros x; simpl; [done|].
  rewrite <- IH. f_equal. unfold Qmax2. by destruct (Qltb x y).
Qed.

Lemma fold_fmin2_reals (xs : list Q) (x : Q) :
  fold_left fmin2 (reals xs) (FNum x) = FNum (fold_left Qmin2 xs x).
Proof.
  revert x. induction xs as [|y ys IH]; intros x; simpl; [done|].
  rewrite <- IH. f_equal. unfold Qmin2. by destruct (Qltb y x).
Qed.

Lemma np_max_reals (qs : list Q) (x : Q) :
  np_max (reals (x :: qs)) = Ok (FNum (fold_left Qmax2 qs x)).
Proof. simpl. by rewrite <- fold_fmax2_reals. Qed.

Lemma np_min_reals (qs : list Q) (x : Q) :
  np_min (reals (x :: qs)) = Ok (FNum (fold_left Qmin2 qs x)).
Proof. simpl. by rewrite <- fold_fmin2_reals. Qed.

Lemma np_max_ge (qs : list Q) (mx : Q) :
  np_max (reals qs) = Ok (FNum mx) -> Forall (fun v => (v <= mx)%Q) qs.
Proof.
  destruct qs as [|x xs]; [discriminate|].
  rewrite np_max_reals. intros [= <-].
  destruct (fold_max_ge xs x). by constructor.
Qed.

Lemma np_min_le (qs : list Q) (mn : Q) :
  np_min (reals qs) = Ok (FNum mn) -> Forall (fun v => (mn <= v)%Q) qs.
Proof.
  destruct qs as [|x xs]; [discriminate|].
  rewrite np_min_reals. intros [= <-].
  destruct (fold_min_le xs x). by constructor.
Qed.

Lemma np_max_elem (qs : list Q) (mx : Q) :
  np_max (reals qs) = Ok (FNum mx) -> mx ∈ qs.
Proof.
  destruct qs as [|x xs]; [discriminate|].
  rewrite np_max_reals. intros [= <-]. apply fold_max_elem.
Qed.

Lemma np_min_elem (qs : list Q) (mn : Q) :
  np_min (reals qs) = Ok (FNum mn) -> mn ∈ qs.
Proof.
  destruct qs as [|x xs]; [discriminate|].
  rewrite np_min_reals. intros [= <-]. apply fold_min_elem.
Qed.

Lemma np_max_finite (qs : list Q) :
  qs <> [] -> exists mx, np_max (reals qs) = Ok (FNum mx).
Proof. destruct qs as [|x xs]; [done|]. rewrite np_max_reals. eauto. Qed.

Lemma np_min_finite (qs : list Q) :
  qs <> [] -> exists mn, np_min (reals qs) = Ok (FNum mn).
Proof. destruct qs as [|x xs]; [done|]. rewrite np_min_reals. eauto. Qed.

Lemma np_max_nonempty (arr : list fval) :
  arr <> [] -> exists mx, np_max arr = Ok mx.
Proof. destruct arr; [done | simpl; eauto]. Qed.

Lemma np_min_nonempty (arr : list fval) :
  arr <> [] -> exists mn, np_min arr = Ok mn.
Proof. destruct arr; [done | simpl; eauto]. Qed.

(** ** Masked assignment *)

(** A bound that no element passes leaves the array as it is. *)
Lemma clip_gt_id (qs : list Q) (b : Q) :
  Forall (fun v => (v <= b)%Q) qs -> clip_gt qs b = qs.
Proof.
  unfold clip_gt. induction 1 as [|v vs Hv _ IH]; simpl; [done|].
  rewrite IH. apply Qltb_ge in Hv. by rewrite Hv.
Qed.

Lemma clip_lt_id (qs : list Q) (b : Q) :
  Forall (fun v => (b <= v)%Q) qs -> clip_lt qs b = qs.
Proof.
  unfold clip_lt. induction 1 as [|v vs Hv _ IH]; simpl; [done|].
  rewrite IH. apply Qltb_ge in Hv. by rewrite Hv.
Qed.

(** The two guarded assignments of the normalizers and of the writer
    amount to the two unguarded ones. *)
Lemma guarded_clip (qs : list Q) (lo hi mx : Q) :
  np_max (reals qs) = Ok (FNum mx) ->
  exists mn,
    np_min (reals (if Qltb hi mx then clip_gt qs hi else qs)) = Ok (FNum mn) /\
    (let qs1 := if Qltb hi mx then clip_gt qs hi else qs in
     if Qltb mn lo then clip_lt qs1 lo else qs1)
    = clip_lt (clip_gt qs hi) lo.
Proof.
  intros Hmx.
  assert ((if Qltb hi mx then clip_gt qs hi else qs) = clip_gt qs hi) as ->.
  { destruct (Qltb hi mx) eqn:E; [done|].
    symmetry. apply clip_gt_id.
    apply Qltb_ge in E. eapply Forall_impl; [by apply np_max_ge|].
    simpl. intros v Hv. by eapply Qle_trans. }
  destruct (np_min_finite (clip_gt qs hi)) as [mn Hmn].
  { destruct qs; [discriminate | done]. }
  exists mn. split; [done|]. simpl.
  destruct (Qltb mn lo) eqn:E; [done|].
  symmetry. apply clip_lt_id.
  apply Qltb_ge in E. eapply Forall_impl; [by apply np_min_le|].
  simpl. intros v Hv. by eapply Qle_trans.
Qed.

Lemma clip_clamp (qs : list Q) (lo hi : Q) :
  clip_lt (clip_gt qs hi) lo = map (clamp lo hi) qs.
Proof. unfold clip_lt, clip_gt. by rewrite map_map. Qed.

(** Between floating scalars, and between an array of a floating type
    and a bound of it, finite numbers are compared and stored as they
    are. *)
Lemma scalar_lt_float (s t : dtype) (a b : Q) :
  is_float s = true -> is_float t = true ->
  scalar_lt (Scalar s (FNum a)) (Scalar t (FNum b)) = Qltb a b.
Proof. by destruct s, t. Qed.

Lemma scalar_eq_float (s t : dtype) (a b : Q) :
  is_float s = true -> is_float t = true ->
  scalar_eq (Scalar s (FNum a)) (Scalar t (FNum b)) = Qeq_bool a b.
Proof. by destruct s, t. Qed.

Lemma cast_same (dt : dtype) (v : fval) : cast dt dt v = v.
Proof. by destruct dt. Qed.

Lemma op_dtype_float (dt st : dtype) : is_float dt = true -> op_dtype dt st = dt.
Proof. unfold op_dtype. by intros ->. Qed.

Lemma is_bound_own (dt : dtype) (q : Q) :
  is_float dt = true -> is_bound dt (Scalar dt (FNum q)) q.
Proof. intros H. split; [done|]. split; [done|]. apply cast_same. Qed.

Lemma is_bound_float64 (s : dtype) (q : Q) :
  is_float s = true -> is_bound float64 (Scalar s (FNum q)) q.
Proof. intros H. split; [done|]. split; [done|]. by destruct s. Qed.

Lemma assign_where_gt_finite (dt : dtype) (qs : list Q) (s : scalar) (b : Q) :
  is_float dt = true -> is_bound dt s b ->
  assign_where_gt dt (reals qs) s = Ok (reals (clip_gt qs b)).
Proof.
  intros Hdt (Hs & Hv & Hc). destruct s as [st v]. simpl in *. subst v.
  unfold assign_where_gt, store_cast, elem_gt. simpl.
  rewrite Hdt, op_dtype_float by done. simpl. rewrite Hc.
  f_equal. unfold reals, clip_gt. rewrite !map_map.
  apply map_ext. intros v. rewrite cast_same. simpl. by destruct (Qltb b v).
Qed.

Lemma assign_where_lt_finite (dt : dtype) (qs : list Q) (s : scalar) (b : Q) :
  is_float dt = true -> is_bound dt s b ->
  assign_where_lt dt (reals qs) s = Ok (reals (clip_lt qs b)).
Proof.
  intros Hdt (Hs & Hv & Hc). destruct s as [st v]. simpl in *. subst v.
  unfold assign_where_lt, store_cast, elem_lt. simpl.
  rewrite Hdt, op_dtype_float by done. simpl. rewrite Hc.
  f_equal. unfold reals, clip_lt. rewrite !map_map.
  apply map_ext. intros v. rewrite cast_same. simpl. by destruct (Qltb v b).
Qed.

(** On an array of a floating type a masked assignment never raises,
    and keeps the length. *)
Lemma assign_where_gt_float (dt : dtype) (arr : list fval) (b : scalar) :
  is_float dt = true ->
  exists arr', assign_where_gt dt arr b = Ok arr' /\ length arr' = length arr.
Proof.
  intros Hdt. unfold assign_where_gt, store_cast. rewrite Hdt. simpl.
  eexists. split; [done|]. by rewrite length_map.
Qed.

Lemma assign_where_lt_float (dt : dtype) (arr : list fval) (b : scalar) :
  is_float dt = true ->
  exists arr', assign_where_lt dt arr b = Ok arr' /\ length arr' = length arr.
Proof.
  intros Hdt. unfold assign_where_lt, store_cast. rewrite Hdt. simpl.
  eexists. split; [done|]. by rewrite length_map.
Qed.

(** ** Truncation and the unsigned cast *)

Lemma Qtrunc_nonneg (q : Q) : (0 <= q)%Q -> Qtrunc q = Qfloor q.
Proof.
  destruct q as [n d]. unfold Qle, Qtrunc, Qfloor; simpl. intros H.
  apply Z.quot_div_nonneg; lia.
Qed.




Lemma Qfloor_bounds (q : Q) (n : Z) :
  (0 <= q)%Q -> (q <= inject_Z n)%Q -> 0 <= Qfloor q <= n.
Proof.
  intros H0 Hn. split.
  - rewrite <- (Qfloor_Z 0). by apply Qfloor_resp_le.
  - rewrite <- (Qfloor_Z n). by apply Qfloor_resp_le.
Qed.

(** In range, the cast is the floor. *)
Lemma astype_uint_in_range (bits : Z) (q : Q) :
  0 <= bits -> (0 <= q)%Q -> (q <= inject_Z (2 ^ bits - 1))%Q ->
  astype_uint bits (FNum q) = Qfloor q.
Proof.
  intros Hb H0 Hn. unfold astype_uint. rewrite Qtrunc_nonneg by done.
  pose proof (Qfloor_bounds q _ H0 Hn). apply Z.mod_small. lia.
Qed.

Lemma astype_uint_bounds (bits : Z) (v : fval) :
  0 <= bits -> 0 <= astype_uint bits v < 2 ^ bits.
Proof.
  intros Hb. pose proof (Z.pow_pos_nonneg 2 bits ltac:(lia) Hb).
  destruct v; simpl; [apply Z.mod_pos_bound | |]; lia.
Qed.

(** ** The clamp *)

Lemma clamp_bounds (lo hi v : Q) :
  (lo <= hi)%Q -> (lo <= clamp lo hi v)%Q /\ (clamp lo hi v <= hi)%Q.
Proof.
  intros H. unfold clamp.
  destruct (Qltb hi v) eqn:E1.
  - destruct (Qltb hi lo) eqn:E2.
    + apply Qltb_lt in E2. lra.
    + split; [done | apply Qle_refl].
  - destruct (Qltb v lo) eqn:E2.
    + split; [apply Qle_refl | done].
    + apply Qltb_ge in E1, E2. done.
Qed.

Lemma clamp_mono (lo hi v w : Q) :
  (lo <= hi)%Q -> (v <= w)%Q -> (clamp lo hi v <= clamp lo hi w)%Q.
Proof.
  intros H Hvw. unfold clamp.
  destruct (Qltb hi v) eqn:E1; destruct (Qltb hi w) eqn:E2;
    repeat match goal with
           | |- context [Qltb ?a ?b] => destruct (Qltb a b) eqn:?
           end;
    repeat match goal with
           | H : Qltb _ _ = true |- _ => apply Qltb_lt in H
           | H : Qltb _ _ = false |- _ => apply Qltb_ge in H
           end; lra.
Qed.

(** Inside the bounds the clamp changes nothing. *)
Lemma clamp_inside (lo hi v : Q) :
  (lo <= v)%Q -> (v <= hi)%Q -> clamp lo hi v = v.
Proof.
  intros H1 H2. unfold clamp.
  apply Qltb_ge in H2. rewrite H2. apply Qltb_ge in H1. by rewrite H1.
Qed.

Lemma clamp_low (lo hi v : Q) :
  (lo <= hi)%Q -> (v <= lo)%Q -> (clamp lo hi v == lo)%Q.
Proof.
  intros Hlh Hv. destruct (clamp_bounds lo hi v Hlh) as [H1 _].
  pose proof (clamp_mono lo hi v lo Hlh Hv) as H2.
  rewrite (clamp_inside lo hi lo) in H2; [|apply Qle_refl|done]. lra.
Qed.

Lemma clamp_high (lo hi v : Q) :
  (lo <= hi)%Q -> (hi <= v)%Q -> (clamp lo hi v == hi)%Q.
Proof.
  intros Hlh Hv. destruct (clamp_bounds lo hi v Hlh) as [_ H1].
  pose proof (clamp_mono lo hi hi v Hlh Hv) as H2.
  rewrite (clamp_inside lo hi hi) in H2; [|done|apply Qle_refl]. lra.
Qed.

(** With the bounds the wrong way round every element ends at
    [lo]. *)
Lemma clamp_swapped (lo hi v : Q) : (hi < lo)%Q -> clamp lo hi v = lo.
Proof.
  intros H. unfold clamp.
  destruct (Qltb hi v) eqn:E1.
  - apply Qltb_lt in H. by rewrite H.
  - apply Qltb_ge in E1.
    assert (Qltb v lo = true) as ->; [|done]. apply Qltb_lt. lra.
Qed.

(** ** The body of [as_uint8] and [as_uint16] *)

(** What the body computes on an array of finite numbers of a floating
    type, with bounds of it: the cast branch when the bounds are equal,
    the rescale branch otherwise. *)
Lemma as_uint_elems_eval (bits : Z) (scale : Q) (dt : dtype) (qs : list Q)
    (dmin dmax : option scalar) (mn mx lo hi : Q) :
  is_float dt = true ->
  np_min (reals qs) = Ok (FNum mn) -> np_max (reals qs) = Ok (FNum mx) ->
  is_bound dt (bound_or dt dmin mn) lo ->
  is_bound dt (bound_or dt dmax mx) hi ->
  let f := float_format dt in
  let dv := divisor dt (bound_or dt dmax mx) (bound_or dt dmin mn) in
  as_uint_elems bits scale dt (reals qs) dmin dmax
  = Ok (if Qeq_bool hi lo then
          (map (fun v => astype_uint bits (FNum (clamp lo hi v))) qs, false)
        else
          (map (fun v => astype_uint bits
                           (fmul f (fdiv f (fsub f (FNum (clamp lo hi v))
                                                 (FNum lo)) dv)
                                 (FNum scale))) qs,
           is_zero dv)).
Proof.
  intros Hdt Hmn Hmx Hlo Hhi f dv. unfold as_uint_elems.
  assert ((match dmax with
           | None => mx0 ← np_max (reals qs); Ok (Scalar dt mx0)
           | Some d => Ok d
           end) = Ok (bound_or dt dmax mx)) as ->.
  { destruct dmax; simpl; [done | by rewrite Hmx]. }
  assert ((match dmin with
           | None => mn0 ← np_min (reals qs); Ok (Scalar dt mn0)
           | Some d => Ok d
           end) = Ok (bound_or dt dmin mn)) as ->.
  { destruct dmin; simpl; [done | by rewrite Hmn]. }
  subst dv.
  set (shi := bound_or dt dmax mx) in *. set (slo := bound_or dt dmin mn) in *.
  cbn [mbind result_bind]. rewrite Hmx. cbn [mbind result_bind].
  assert (scalar_lt shi (Scalar dt (FNum mx)) = Qltb hi mx) as ->.
  { destruct Hhi as (H1 & H2 & _). destruct shi as [st v]. simpl in *.
    subst v. by apply scalar_lt_float. }
  rewrite (assign_where_gt_finite dt qs shi hi Hdt Hhi).
  destruct (guarded_clip qs lo hi mx Hmx) as (mn' & Hmn' & Hclip).
  assert ((if Qltb hi mx then Ok (reals (clip_gt qs hi)) else Ok (reals qs))
          = Ok (reals (if Qltb hi mx then clip_gt qs hi else qs))) as ->
    by (by destruct (Qltb hi mx)).
  cbn [mbind result_bind]. rewrite Hmn'. cbn [mbind result_bind].
  assert (scalar_lt (Scalar dt (FNum mn')) slo = Qltb mn' lo) as ->.
  { destruct Hlo as (H1 & H2 & _). destruct slo as [st v]. simpl in *.
    subst v. by apply scalar_lt_float. }
  rewrite (assign_where_lt_finite dt _ slo lo Hdt Hlo).
  assert ((if Qltb mn' lo
           then Ok (reals (clip_lt (if Qltb hi mx then clip_gt qs hi else qs) lo))
           else Ok (reals (if Qltb hi mx then clip_gt qs hi else qs)))
          = Ok (reals (map (clamp lo hi) qs))) as ->.
  { simpl in Hclip. rewrite <- clip_clamp, <- Hclip.
    by destruct (Qltb mn' lo). }
  cbn [mbind result_bind].
  assert (scalar_eq shi slo = Qeq_bool hi lo) as ->.
  { destruct Hhi as (H1 & H2 & _), Hlo as (H3 & H4 & _).
    destruct shi as [st v], slo as [st' v']. simpl in *. subst v v'.
    by apply scalar_eq_float. }
  destruct (Qeq_bool hi lo) eqn:E.
  - unfold reals. by rewrite !map_map.
  - rewrite op_dtype_float by done. fold f.
    assert (cast (s_dtype slo) dt (s_val slo) = FNum lo) as ->.
    { destruct Hlo as (_ & H4 & H5). by rewrite H4. }
    f_equal. f_equal. unfold reals. rewrite !map_map.
    apply map_ext. intros v. by rewrite cast_same.
Qed.

(** Bounds of the type of the array give the difference of that
    type. *)
Lemma divisor_own (dt : dtype) (a b : Q) :
  is_float dt = true ->
  divisor dt (Scalar dt (FNum a)) (Scalar dt (FNum b))
  = fsub (float_format dt) (FNum a) (FNum b).
Proof. by destruct dt. Qed.

Lemma divisor_float64 (s t : dtype) (a b : Q) :
  is_float s = true -> is_float t = true ->
  divisor float64 (Scalar s (FNum a)) (Scalar t (FNum b))
  = (if match s, t with float32, float32 => true | _, _ => false end
     then rnd binary32 (a - b) else rnd binary64 (a - b)).
Proof. by destruct s, t. Qed.

Lemma as_uint_elems_empty (bits : Z) (scale : Q) (dt : dtype)
    (dmin dmax : option scalar) :
  as_uint_elems bits scale dt [] dmin dmax = Raise ValueError.
Proof. unfold as_uint_elems. by destruct dmax, dmin. Qed.

(** ** The rescale in floating point *)

Lemma fsub_num (f : format) (a b : Q) :
  fsub f (FNum a) (FNum b) = rnd f (a - b).
Proof. reflexivity. Qed.

Lemma fmul_num (f : format) (a b : Q) :
  fmul f (FNum a) (FNum b) = rnd f (a * b).
Proof. reflexivity. Qed.

Lemma fdiv_num (f : format) (a b : Q) :
  ~ (b == 0)%Q -> fdiv f (FNum a) (FNum b) = rnd f (a / b).
Proof.
  intros Hb. unfold fdiv. apply Qeq_bool_false in Hb. by rewrite Hb.
Qed.

Section Rescale.
Variables (dt : dtype) (bits : Z) (scale lo hi d : Q).
Hypothesis Hbits : 0 <= bits.
Hypothesis Hscale : scale = inject_Z (2 ^ bits - 1).
Hypothesis Hexact : rnd (float_format dt) scale = FNum scale.
Hypothesis Hlohi : (lo < hi)%Q.
Hypothesis Hd : fsub (float_format dt) (FNum hi) (FNum lo) = FNum d.
Hypothesis Hdpos : (0 < d)%Q.

Lemma scale_nonneg : (0 <= scale)%Q.
Proof.
  rewrite Hscale. change 0%Q with (inject_Z 0). rewrite <- Zle_Qle.
  pose proof (Z.pow_pos_nonneg 2 bits). lia.
Qed.

(** The three rounded operations on a value between the bounds: each
    result is finite; the difference is at most [d], the quotient at
    most 1 and the product at most [scale]. *)
Lemma rescaled_chain (v : Q) :
  (lo <= v)%Q -> (v <= hi)%Q ->
  exists a1 a2 a3,
    rnd (float_format dt) (v - lo) = FNum a1 /\
    rnd (float_format dt) (a1 / d) = FNum a2 /\
    rnd (float_format dt) (a2 * scale) = FNum a3 /\
    rescaled (float_format dt) scale lo hi v = FNum a3 /\
    (0 <= a1)%Q /\ (a1 <= d)%Q /\ (0 <= a2)%Q /\ (a2 <= 1)%Q /\
    (0 <= a3)%Q /\ (a3 <= scale)%Q.
Proof.
  intros H1 H2. pose proof (float_format_prec dt) as Hp.
  pose proof scale_nonneg as Hs.
  rewrite fsub_num in Hd.
  destruct (rnd_bounds _ Hp (v - lo) (hi - lo) d) as (a1 & E1 & L1 & U1);
    [lra | lra | done |].
  destruct (rnd_bounds _ Hp (a1 / d) 1 1) as (a2 & E2 & L2 & U2).
  { apply Qle_shift_div_l; lra. }
  { apply Qle_shift_div_r; lra. }
  { apply rnd_one. }
  destruct (rnd_bounds _ Hp (a2 * scale) scale scale) as (a3 & E3 & L3 & U3).
  { by apply Qmult_le_0_compat. }
  { rewrite <- (Qmult_1_l scale) at 2. by apply Qmult_le_compat_r. }
  { done. }
  exists a1, a2, a3. repeat split; try done.
  unfold rescaled. rewrite !fsub_num, Hd, E1, fdiv_num by lra.
  by rewrite E2, fmul_num.
Qed.

Lemma rescaled_clamp (v : Q) :
  exists s, rescaled (float_format dt) scale lo hi (clamp lo hi v) = FNum s /\
            (0 <= s)%Q /\ (s <= inject_Z (2 ^ bits - 1))%Q.
Proof.
  destruct (clamp_bounds lo hi v) as [H1 H2]; [lra|].
  destruct (rescaled_chain (clamp lo hi v) H1 H2)
    as (a1 & a2 & a3 & _ & _ & _ & E & _ & _ & _ & _ & L & U).
  exists a3. rewrite <- Hscale. done.
Qed.


Lemma uint_value_range (v : Q) :
  0 <= uint_value bits (float_format dt) scale lo hi v <= 2 ^ bits - 1.
Proof.
  unfold uint_value. destruct (rescaled_clamp v) as (s & -> & L & U).
  rewrite astype_uint_in_range by done. by apply Qfloor_bounds.
Qed.

Lemma uint_value_mono (v w : Q) :
  (v <= w)%Q ->
  uint_value bits (float_format dt) scale lo hi v
  <= uint_value bits (float_format dt) scale lo hi w.
Proof.
  intros Hvw. pose proof (float_format_prec dt) as Hp.
  pose proof scale_nonneg as Hs.
  unfold uint_value.
  destruct (clamp_bounds lo hi v) as [V1 V2]; [lra|].
  destruct (clamp_bounds lo hi w) as [W1 W2]; [lra|].
  pose proof (clamp_mono lo hi v w ltac:(lra) Hvw) as Hc.
  destruct (rescaled_chain _ V1 V2)
    as (a1 & a2 & a3 & A1 & A2 & A3 & -> & La1 & Ua1 & La2 & Ua2 & La3 & Ua3).
  destruct (rescaled_chain _ W1 W2)
    as (b1 & b2 & b3 & B1 & B2 & B3 & -> & Lb1 & Ub1 & Lb2 & Ub2 & Lb3 & Ub3).
  rewrite Hscale in Ua3, Ub3.
  rewrite !astype_uint_in_range by done.
  apply Qfloor_resp_le.
  destruct (rnd_le _ Hp (clamp lo hi v - lo) (clamp lo hi w - lo) a1 b1)
    as [_ H1]; [lra | lra | done | done |].
  assert (a1 / d <= b1 / d)%Q as H1'.
  { unfold Qdiv. apply Qmult_le_compat_r; [done|].
    apply Qlt_le_weak, Qinv_lt_0_compat, Hdpos. }
  assert (0 <= a1 / d)%Q as H0 by (apply Qle_shift_div_l; lra).
  destruct (rnd_le _ Hp _ _ _ _ H0 H1' A2 B2) as [_ H2].
  assert (a2 * scale <= b2 * scale)%Q as H2'
    by (by apply Qmult_le_compat_r).
  assert (0 <= a2 * scale)%Q as H0' by (by apply Qmult_le_0_compat).
  by destruct (rnd_le _ Hp _ _ _ _ H0' H2' A3 B3).
Qed.

(** The rescale uses the full range. *)
Lemma uint_value_low (v : Q) :
  (v <= lo)%Q -> uint_value bits (float_format dt) scale lo hi v = 0.
Proof.
  intros Hv. unfold uint_value, rescaled.
  rewrite !fsub_num, (rnd_zero (float_format dt) (clamp lo hi v - lo)).
  - rewrite fsub_num in Hd. rewrite Hd, fdiv_num by lra.
    rewrite (rnd_zero (float_format dt) (0 / d)) by (field; lra).
    rewrite fmul_num, rnd_zero by ring. done.
  - rewrite (clamp_low lo hi v) by lra. ring.
Qed.

Lemma uint_value_high (v : Q) :
  (hi <= v)%Q ->
  uint_value bits (float_format dt) scale lo hi v = 2 ^ bits - 1.
Proof.
  intros Hv. unfold uint_value, rescaled.
  rewrite !fsub_num.
  rewrite (rnd_comp (float_format dt) (clamp lo hi v - lo) (hi - lo)).
  - rewrite fsub_num in Hd. rewrite Hd, fdiv_num by lra.
    rewrite (rnd_comp (float_format dt) (d / d) 1) by (field; lra).
    rewrite rnd_one, fmul_num.
    rewrite (rnd_comp (float_format dt) (1 * scale) scale) by ring.
    rewrite Hexact, Hscale.
    rewrite astype_uint_in_range; [apply Qfloor_Z | done | |apply Qle_refl].
    change 0%Q with (inject_Z 0). rewrite <- Zle_Qle.
    pose proof (Z.pow_pos_nonneg 2 bits). lia.
  - rewrite (clamp_high lo hi v) by lra. reflexivity.
Qed.
End Rescale.


(** The two normalizers on an array of finite numbers of a floating
    type, with bounds of it whose difference the division takes as
    the arithmetic of the array gives it. *)
Lemma as_uint_rescale (bits : Z) (scale : Q) (dt : dtype) (qs : list Q)
    (dmin dmax : option scalar) (mn mx lo hi : Q) :
  is_float dt = true ->
  np_min (reals qs) = Ok (FNum mn) -> np_max (reals qs) = Ok (FNum mx) ->
  is_bound dt (bound_or dt dmin mn) lo ->
  is_bound dt (bound_or dt dmax mx) hi ->
  (lo < hi)%Q ->
  divisor dt (bound_or dt dmax mx) (bound_or dt dmin mn)
    = fsub (float_format dt) (FNum hi) (FNum lo) ->
  as_uint_elems bits scale dt (reals qs) dmin dmax
  = Ok (map (uint_value bits (float_format dt) scale lo hi) qs,
        is_zero (fsub (float_format dt) (FNum hi) (FNum lo))).
Proof.
  intros Hdt Hmn Hmx Hlo Hhi Hlt Hdiv.
  rewrite (as_uint_elems_eval bits scale dt qs dmin dmax mn mx lo hi)
    by done.
  assert (Qeq_bool hi lo = false) as ->.
  { apply Qeq_bool_false. lra. }
  by rewrite Hdiv.
Qed.


(** ** The normalizers [as_uint8] and [as_uint16] *)










(** ** Decimal strings *)

Lemma append_nil (t : string) : "" +:+ t = t.
Proof. reflexivity. Qed.

Lemma append_cons (c : ascii) (s t : string) :
  String c s +:+ t = String c (s +:+ t).
Proof. reflexivity. Qed.

Lemma append_assoc (s t u : string) : (s +:+ t) +:+ u = s +:+ (t +:+ u).
Proof.
  induction s as [|c s IH]; [done|]. by rewrite !append_cons, IH.
Qed.

Lemma append_length (s t : string) :
  String.length (s +:+ t) = (String.length s + String.length t)%nat.
Proof.
  induction s as [|c s IH]; [done|]. rewrite append_cons. simpl. by rewrite IH.
Qed.

Lemma append_inv_tail (s t u : string) : s +:+ u = t +:+ u -> s = t.
Proof.
  revert t. induction s as [|c s IH]; intros [|c' t] H.
  - done.
  - apply (f_equal String.length) in H.
    rewrite !append_length in H. simpl in H. lia.
  - apply (f_equal String.length) in H.
    rewrite !append_length in H. simpl in H. lia.
  - rewrite !append_cons in H. injection H as -> H. f_equal. by apply IH.
Qed.

Lemma zeros_length (k : Z) : String.length (zeros k) = Z.to_nat k.
Proof.
  unfold zeros. induction (Z.to_nat k) as [|n IH]; simpl; [done | by rewrite IH].
Qed.

Lemma str_inj (m n : Z) : str m = str n -> m = n.
Proof.
  unfold str. intros H. apply DecimalZ.to_int_inj.
  assert (forall z, Z.to_int z <> Decimal.Pos Decimal.Nil /\ Z.to_int z <> Decimal.Neg Decimal.Nil) as Hnn.
  { intros [|p|p]; simpl; split; try discriminate;
      intros [= E]; by apply (DecimalPos.Unsigned.to_uint_nonnil p). }
  destruct (Hnn m), (Hnn n).
  assert (Some (Z.to_int m) = Some (Z.to_int n)) as [= E]; [|done].
  rewrite <- (NilZero.isi (Z.to_int m)), <- (NilZero.isi (Z.to_int n)) by done.
  by rewrite H.
Qed.

Lemma str_nonneg (n : Z) :
  0 <= n ->
  exists u, u <> Decimal.Nil /\ str n = NilEmpty.string_of_uint u /\ Z.of_uint u = n.
Proof.
  intros Hn. pose proof (DecimalZ.of_to n) as E. unfold str.
  destruct n as [|p|p]; [| |lia].
  - exists (Decimal.D0 Decimal.Nil). by repeat split.
  - simpl in *. exists (Pos.to_uint p). split; [|split; [|done]].
    + apply DecimalPos.Unsigned.to_uint_nonnil.
    + pose proof (DecimalPos.Unsigned.to_uint_nonnil p).
      by destruct (Pos.to_uint p).
Qed.

Lemma parse_zeros_str (k n : Z) :
  0 <= n -> parse_digits (zeros k +:+ str n) = Some n.
Proof.
  intros Hn. destruct (str_nonneg n Hn) as (u & _ & -> & Hu).
  unfold parse_digits, zeros.
  induction (Z.to_nat k) as [|j IH]; simpl.
  - by rewrite append_nil, NilEmpty.usu, <- Hu.
  - destruct (NilEmpty.uint_of_string _) as [v|]; [|done].
    simpl in *. by injection IH as <-.
Qed.

Lemma zeros_str_inj (k1 k2 m n : Z) :
  0 <= m -> 0 <= n -> zeros k1 +:+ str m = zeros k2 +:+ str n -> m = n.
Proof.
  intros Hm Hn H.
  pose proof (parse_zeros_str k1 m Hm) as E. rewrite H in E.
  rewrite (parse_zeros_str k2 n Hn) in E. by injection E.
Qed.

(** The number of digits. *)
Lemma to_lu_tenfold_plus (p : positive) (r : N) :
  (r < 10)%N ->
  Decimal.nb_digits (DecimalPos.Unsigned.to_lu (10 * N.pos p + r))
  = S (Decimal.nb_digits (DecimalPos.Unsigned.to_lu (N.pos p))).
Proof.
  intros Hr.
  assert (r = 0 \/ r = 1 \/ r = 2 \/ r = 3 \/ r = 4 \/ r = 5 \/ r = 6
          \/ r = 7 \/ r = 8 \/ r = 9)%N as Hc by lia.
  pose proof (DecimalPos.Unsigned.to_ldec_tenfold p) as E.
  repeat destruct Hc as [->|Hc]; try subst r.
  1: rewrite N.add_0_r, E; reflexivity.
  all: match goal with
       | |- context [(_ + ?c)%N] =>
           replace (10 * N.pos p + c)%N
             with (Nat.iter (N.to_nat c) N.succ (10 * N.pos p)%N)
             by (simpl; lia)
       end;
       simpl Nat.iter; rewrite !DecimalPos.Unsigned.to_lu_succ, E;
       reflexivity.
Qed.

Lemma nb_digits_bracket (k : nat) (n : N) :
  (10 ^ N.of_nat k <= n < 10 ^ N.of_nat (S k))%N ->
  Decimal.nb_digits (DecimalPos.Unsigned.to_lu n) = S k.
Proof.
  revert n. induction k as [|k IH]; intros n Hn.
  - change (10 ^ N.of_nat 0)%N with 1%N in Hn.
    change (10 ^ N.of_nat 1)%N with 10%N in Hn.
    assert (n = 1 \/ n = 2 \/ n = 3 \/ n = 4 \/ n = 5 \/ n = 6
            \/ n = 7 \/ n = 8 \/ n = 9)%N as Hc by lia.
    repeat destruct Hc as [->|Hc]; try subst n; reflexivity.
  - rewrite !Nat2N.inj_succ, !N.pow_succ_r' in Hn.
    rewrite Nat2N.inj_succ in IH.
    pose proof (N.div_mod n 10 ltac:(lia)) as E.
    pose proof (N.mod_lt n 10 ltac:(lia)) as Hr.
    assert (10 ^ N.of_nat k <= n / 10 < 10 * 10 ^ N.of_nat k)%N as Hq.
    { rewrite N.pow_succ_r' in IH. split.
      - apply N.div_le_lower_bound; lia.
      - apply N.Div0.div_lt_upper_bound; lia. }
    destruct (n / 10)%N as [|p] eqn:Eq.
    { pose proof (N.pow_nonzero 10 (N.of_nat k)). lia. }
    rewrite E, to_lu_tenfold_plus by done.
    f_equal. apply IH. by rewrite N.pow_succ_r'.
Qed.

Lemma string_of_uint_length (u : Decimal.uint) :
  String.length (NilEmpty.string_of_uint u) = Decimal.nb_digits u.
Proof. induction u; simpl; by rewrite ?IHu. Qed.

Lemma str_length (k : nat) (n : Z) :
  10 ^ Z.of_nat k <= n < 10 ^ Z.of_nat (S k) ->
  String.length (str n) = S k.
Proof.
  intros Hn.
  assert (0 < n) as Hpos.
  { pose proof (Z.pow_pos_nonneg 10 (Z.of_nat k)). lia. }
  destruct n as [|p|p]; try lia.
  unfold str. simpl.
  pose proof (DecimalPos.Unsigned.to_uint_nonnil p) as Hnn.
  assert (NilZero.string_of_uint (Pos.to_uint p)
          = NilEmpty.string_of_uint (Pos.to_uint p)) as ->
    by (by destruct (Pos.to_uint p)).
  rewrite string_of_uint_length. unfold Pos.to_uint.
  rewrite DecimalFacts.nb_digits_rev.
  apply (nb_digits_bracket k (N.pos p)).
  rewrite N2Z.inj_le, N2Z.inj_lt, !N2Z.inj_pow, !nat_N_Z.
  exact Hn.
Qed.

(** ** The file-name indexer *)

Lemma wrap_int64_le (z : Z) : 0 <= z -> wrap_int64 z <= z.
Proof.
  intros Hz. unfold wrap_int64.
  pose proof (Z.mod_le (z + 2 ^ 63) (2 ^ 64)). lia.
Qed.

Lemma np_power10_le (k : Z) : np_power10 k <= 10 ^ k.
Proof. apply wrap_int64_le, Z.pow_nonneg. lia. Qed.

Lemma np_power10_small (k : Z) : 0 <= k <= 18 -> np_power10 k = 10 ^ k.
Proof.
  intros Hk. unfold np_power10, wrap_int64.
  assert (0 < 10 ^ k <= 10 ^ 18) as H.
  { split; [apply Z.pow_pos_nonneg; lia | apply Z.pow_le_mono_r; lia]. }
  rewrite Z.mod_small; lia.
Qed.

Lemma range_elem (n m : Z) : (m ∈ range n) -> 0 <= m < n.
Proof.
  unfold range. rewrite list_elem_of_fmap. intros (i & -> & Hi).
  apply elem_of_seq in Hi. lia.
Qed.

Lemma range_split (n k : Z) :
  0 <= k < n ->
  range n = range k ++ k :: map Z.of_nat (seq (S (Z.to_nat k))
                                              (Z.to_nat n - S (Z.to_nat k))).
Proof.
  intros Hk. unfold range.
  replace (Z.to_nat n) with (Z.to_nat k + S (Z.to_nat n - S (Z.to_nat k)))%nat
    at 1 by lia.
  rewrite seq_app, map_app. simpl. by rewrite Z2Nat.id by lia.
Qed.

Lemma string_index_item (digit n : Z) :
  0 <= n < digit ->
  list_item (map (fun m => zeros (digit - m - 1)) (range digit)) n
  = Ok (zeros (digit - n - 1)).
Proof.
  intros Hn. unfold list_item, range.
  rewrite !list_lookup_fmap, lookup_seq_lt by lia. simpl.
  by rewrite Z2Nat.id by lia.
Qed.

(** Rounds whose bracket is below [ind] are skipped. *)
Lemma add_index_loop_skip (s : string) (ind : Z) (si : list string)
    (ns1 ns2 : list Z) :
  (forall m, (m ∈ ns1) -> np_power10 (m + 1) <= ind) ->
  add_index_loop s ind si (ns1 ++ ns2) = add_index_loop s ind si ns2.
Proof.
  induction ns1 as [|n ns1 IH]; intros H; simpl; [done|].
  assert ((ind <? np_power10 (n + 1)) = false) as ->.
  { apply Z.ltb_ge, H, list_elem_of_here. }
  apply IH. intros m Hm. by apply H, list_elem_of_further.
Qed.

(** An index in the bracket [k] gets [digit - k - 1] zeros. *)
Lemma add_index_bracket (s : string) (ind digit k : Z) :
  0 <= k < digit -> digit <= 18 ->
  (k = 0 \/ 10 ^ k <= ind) -> ind < 10 ^ (k + 1) ->
  _add_index_to_string s ind digit
  = Ok (Some (s +:+ (("_" +:+ zeros (digit - k - 1)) +:+ str ind))).
Proof.
  intros Hk Hd Hlo Hhi. unfold _add_index_to_string.
  rewrite (range_split digit k) at 2 by done.
  rewrite add_index_loop_skip.
  - simpl. rewrite np_power10_small by lia.
    apply Z.ltb_lt in Hhi. rewrite Hhi.
    by rewrite string_index_item.
  - intros m Hm%range_elem. rewrite np_power10_small by lia.
    destruct Hlo as [->|Hlo]; [lia|].
    etrans; [|exact Hlo]. apply Z.pow_le_mono_r; lia.
Qed.

(** An index of more digits than [digit] finds no bracket. *)
Lemma add_index_overflow (s : string) (ind digit : Z) :
  10 ^ digit <= ind -> _add_index_to_string s ind digit = Ok None.
Proof.
  intros Hind. unfold _add_index_to_string.
  rewrite <- (app_nil_r (range digit)) at 2.
  rewrite add_index_loop_skip; [done|].
  intros m Hm%range_elem.
  etrans; [apply np_power10_le|]. etrans; [|exact Hind].
  apply Z.pow_le_mono_r; lia.
Qed.

Lemma bracket_exists (d : nat) (ind : Z) :
  0 <= ind < 10 ^ Z.of_nat (S d) ->
  exists k, 0 <= k <= Z.of_nat d /\ (k = 0 \/ 10 ^ k <= ind)
            /\ ind < 10 ^ (k + 1).
Proof.
  induction d as [|d IH]; intros Hind.
  - exists 0. change (10 ^ Z.of_nat 1) with 10 in Hind.
    change (10 ^ (0 + 1)) with 10. lia.
  - destruct (decide (ind < 10 ^ Z.of_nat (S d))) as [Hs|Hs].
    + destruct IH as (k & Hk & H); [lia|]. exists k. split; [lia | done].
    + exists (Z.of_nat (S d)). rewrite Z.add_1_r, <- Nat2Z.inj_succ. lia.
Qed.

(** Below [10^digit] (and [digit <= 18], where int64 does not wrap)
    the indexer returns a name: the base, ["_"], some zeros and the
    decimal index. *)
Lemma add_index_returns (s : string) (ind digit : Z) :
  1 <= digit <= 18 -> 0 <= ind < 10 ^ digit ->
  exists k, _add_index_to_string s ind digit
            = Ok (Some (s +:+ (("_" +:+ zeros k) +:+ str ind))).
Proof.
  intros Hd Hind.
  destruct (bracket_exists (Z.to_nat (digit - 1)) ind)
    as (k & Hk & Hlo & Hhi).
  { rewrite Nat2Z.inj_succ, Z2Nat.id by lia.
    by replace (Z.succ (digit - 1)) with digit by lia. }
  rewrite Z2Nat.id in Hk by lia.
  exists (digit - k - 1). apply add_index_bracket; auto; lia.
Qed.

(** C3: with digit width 5 and any base string, index 134 gives the
    suffix "_00134" and index 99999 the suffix "_99999"; for every
    index from 0 to 99999 the result is the base, "_" and the decimal
    index left-padded with zeros to width 5. *)
Theorem add_index_width5 (base : string) :
  _add_index_to_string base 134 5 = Ok (Some (base +:+ "_00134")) /\
  _add_index_to_string base 99999 5 = Ok (Some (base +:+ "_99999")) /\
  (forall ind, 0 <= ind < 100000 ->
     _add_index_to_string base ind 5
     = Ok (Some (base +:+ "_" +:+ zfill 5 (str ind)))).
Proof.
  split; [reflexivity | split; [reflexivity|]].
  intros ind Hind.
  assert (forall k : nat, (k < 5)%nat ->
            (k = 0%nat \/ 10 ^ Z.of_nat k <= ind) ->
            ind < 10 ^ Z.of_nat (S k) ->
            String.length (str ind) = S k ->
            _add_index_to_string base ind 5
            = Ok (Some (base +:+ "_" +:+ zfill 5 (str ind)))) as Hk.
  { intros k Hk Hlo Hhi Hlen.
    rewrite (add_index_bracket base ind 5 (Z.of_nat k)).
    - unfold zfill. rewrite Hlen, !append_cons, !append_nil.
      do 6 f_equal. lia.
    - lia.
    - lia.
    - destruct Hlo as [->|Hlo]; auto.
    - by rewrite Z.add_1_r, <- Nat2Z.inj_succ. }
  destruct (decide (ind = 0)) as [->|H0]; [reflexivity|].
  destruct (decide (ind < 10)) as [H1|H1].
  { apply (Hk 0%nat); [lia|auto|lia|]. apply str_length.
    change (10 ^ Z.of_nat 0) with 1. change (10 ^ Z.of_nat 1) with 10. lia. }
  destruct (decide (ind < 100)) as [H2|H2].
  { apply (Hk 1%nat); [lia|right|..]; try apply str_length;
      change (10 ^ Z.of_nat 1) with 10; change (10 ^ Z.of_nat 2) with 100; lia. }
  destruct (decide (ind < 1000)) as [H3|H3].
  { apply (Hk 2%nat); [lia|right|..]; try apply str_length;
      change (10 ^ Z.of_nat 2) with 100; change (10 ^ Z.of_nat 3) with 1000;
      lia. }
  destruct (decide (ind < 10000)) as [H4|H4].
  { apply (Hk 3%nat); [lia|right|..]; try apply str_length;
      change (10 ^ Z.of_nat 3) with 1000;
      change (10 ^ Z.of_nat 4) with 10000; lia. }
  apply (Hk 4%nat); [lia|right|..]; try apply str_length;
    change (10 ^ Z.of_nat 4) with 10000;
    change (10 ^ Z.of_nat 5) with 100000; lia.
Qed.

Lemma add_index_width5_witness :
  _add_index_to_string "mydata" 42 5
  = Ok (Some ("mydata" +:+ "_" +:+ zfill 5 (str 42))).
Proof.
  destruct (add_index_width5 "mydata") as (_ & _ & H).
  apply (H 42). lia.
Defined.

Ltac msimpl :=
  unfold mbind, mret, M_bind, M_ret, lift, get, put,
         get_data, get_fs, set_fs, set_elems;
  simpl.

(** C10: for a digit width [digit >= 1] and an index of more digits
    ([ind >= 10^digit]) the indexer falls off the end of its loop and
    returns [None]: no error, no truncated name.  The writer, which
    concatenates the result with the extension, gets this [None] (and
    its round raises [TypeError]). *)
Theorem add_index_overflow_none (s : string) (ind digit : Z) :
  1 <= digit -> 10 ^ digit <= ind ->
  _add_index_to_string s ind digit = Ok None /\
  (forall ext axis id overwrite dtype dmin dmax m st,
     id + m = ind ->
     write_tiff_body s ext axis id digit overwrite dtype dmin dmax m st
     = (Raise TypeError, st)).
Proof.
  intros _ Hind. split; [by apply add_index_overflow|].
  intros ext axis id overwrite dtype dmin dmax m st <-.
  unfold write_tiff_body. msimpl. by rewrite add_index_overflow.
Qed.

Lemma add_index_overflow_none_witness :
  _add_index_to_string "rec" 100000 5 = Ok None.
Proof.
  destruct (add_index_overflow_none "rec" 100000 5) as [H _];
    [lia | reflexivity | exact H].
Defined.


(** ** [as_float32] *)

(** On an ndarray the guard of [as_float32] never holds: the call
    allocates a new array, also when the dtype is float32 already. *)
Lemma as_float32_ndarray (h : heap) (arr : addr) (a : ndarray) :
  h !! arr = Some (PyNdarray a) ->
  as_float32 h arr
  = Ok (length h,
        h ++ [PyNdarray (NdArray float32 (nd_shape a)
                           (map (cast (nd_dtype a) float32) (nd_elems a)))])
  /\ length h <> arr.
Proof.
  intros H. unfold as_float32. rewrite H. simpl. split; [done|].
  apply lookup_lt_Some in H. lia.
Qed.

(** Only a float32 scalar is returned as it is. *)
Lemma as_float32_scalar (h : heap) (arr : addr) (v : fval) :
  h !! arr = Some (PyScalar float32 v) -> as_float32 h arr = Ok (arr, h).
Proof. intros H. unfold as_float32. by rewrite H. Qed.

(** [as_float32] raises for no object, and the object it returns is
    [as_float32_value] of its argument. *)
Lemma as_float32_returns (h : heap) (arr : addr) (o : pyobj) :
  h !! arr = Some o ->
  exists r h', as_float32 h arr = Ok (r, h')
               /\ h' !! r = Some (as_float32_value o)
               /\ (forall i x, h !! i = Some x -> h' !! i = Some x).
Proof.
  intros H. unfold as_float32, as_float32_value. rewrite H.
  destruct (negb (isinstance_np_float32 o)); simpl.
  - exists (length h), (h ++ [PyNdarray (np_array_float32 o)]).
    split; [done|]. split.
    + by rewrite lookup_app_r, Nat.sub_diag by lia.
    + intros i x Hi. by apply lookup_app_l_Some.
  - by eexists _, _.
Qed.

(** C8 (the code at the failing input): handed a float32 ndarray, at
    address 0, [as_float32] does not return the reference it was given:
    it returns the new address 1, where it has put a copy. *)
Lemma as_float32_copies_float32_array :
  as_float32 [PyNdarray f32_array] 0%nat
  = Ok (1%nat, [PyNdarray f32_array; PyNdarray f32_array]).
Proof. reflexivity. Qed.

(** ** Collision avoidance *)

Lemma candidate_inj (fname ext : string) (i j : Z) :
  candidate fname ext i = candidate fname ext j -> i = j.
Proof.
  unfold candidate. intros H. apply append_inv_tail in H.
  rewrite !append_assoc in H. do 2 apply (inj (String.append _)) in H.
  by apply str_inj.
Qed.

(** The loop returns the first free candidate from [indq] on, or runs
    out of fuel on candidates that all exist. *)
Lemma suggest_loop_spec (fuel : nat) (fs : filesystem) (fname ext : string)
    (indq : Z) :
  (exists n : nat,
      (n < fuel)%nat /\
      suggest_loop fuel fs fname ext indq
        = Ok ((fname +:+ "-") +:+ str (indq + Z.of_nat n)) /\
      isfile fs (candidate fname ext (indq + Z.of_nat n)) = false /\
      forall j : nat, (j < n)%nat ->
        isfile fs (candidate fname ext (indq + Z.of_nat j)) = true)
  \/ (suggest_loop fuel fs fname ext indq = NoReturn /\
      forall j : nat, (j < fuel)%nat ->
        isfile fs (candidate fname ext (indq + Z.of_nat j)) = true).
Proof.
  revert indq. induction fuel as [|fuel IH]; intros indq; simpl.
  { right. split; [done | lia]. }
  fold (candidate fname ext indq).
  destruct (isfile fs (candidate fname ext indq)) eqn:E; simpl.
  - destruct (IH (indq + 1)) as [(n & Hn & Hr & Hfree & Hbelow) | [Hr Hall]].
    + left. exists (S n). rewrite Nat2Z.inj_succ.
      replace (indq + Z.succ (Z.of_nat n)) with (indq + 1 + Z.of_nat n) by lia.
      repeat split; [lia | done | done |].
      intros [|j] Hj; [by rewrite Z.add_0_r|].
      rewrite Nat2Z.inj_succ.
      replace (indq + Z.succ (Z.of_nat j)) with (indq + 1 + Z.of_nat j) by lia.
      apply Hbelow. lia.
    + right. split; [done|]. intros [|j] Hj; [by rewrite Z.add_0_r|].
      rewrite Nat2Z.inj_succ.
      replace (indq + Z.succ (Z.of_nat j)) with (indq + 1 + Z.of_nat j) by lia.
      apply Hall. lia.
  - left. exists 0%nat. rewrite Z.add_0_r. repeat split; [lia|done|lia].
Qed.

(** More distinct names than files cannot all exist. *)
Lemma not_all_candidates_exist (fs : filesystem) (fname ext : string)
    (indq : Z) :
  ~ (forall j : nat, (j < S (size (fs_files fs)))%nat ->
       isfile fs (candidate fname ext (indq + Z.of_nat j)) = true).
Proof.
  intros Hall.
  set (l := map (fun j => candidate fname ext (indq + Z.of_nat j))
                (seq 0 (S (size (fs_files fs))))).
  assert (NoDup l) as Hnd.
  { apply NoDup_fmap_2_strong; [|apply NoDup_seq].
    intros i j _ _ H%candidate_inj. lia. }
  assert (list_to_set l ⊆ dom (fs_files fs)) as Hsub.
  { intros x Hx%elem_of_list_to_set.
    apply list_elem_of_fmap in Hx as (j & -> & Hj%elem_of_seq).
    apply elem_of_dom. specialize (Hall j ltac:(lia)).
    unfold isfile in Hall. by apply bool_decide_eq_true in Hall. }
  apply subseteq_size in Hsub.
  rewrite size_list_to_set, size_dom in Hsub by done.
  subst l. rewrite length_map, length_seq in Hsub. lia.
Qed.

(** With one round more than there are files the loop returns, and it
    returns the first candidate that does not exist. *)
Lemma suggest_loop_returns (fs : filesystem) (fname ext : string) :
  exists n : Z,
    1 <= n /\
    suggest_loop (S (size (fs_files fs))) fs fname ext 1
      = Ok ((fname +:+ "-") +:+ str n) /\
    isfile fs (candidate fname ext n) = false /\
    forall j, 1 <= j < n -> isfile fs (candidate fname ext j) = true.
Proof.
  destruct (suggest_loop_spec (S (size (fs_files fs))) fs fname ext 1)
    as [(n & Hn & Hr & Hfree & Hbelow) | [_ Hall]].
  - exists (1 + Z.of_nat n). repeat split; [lia | done | done |].
    intros j Hj. replace j with (1 + Z.of_nat (Z.to_nat (j - 1))) by lia.
    apply Hbelow. lia.
  - by apply not_all_candidates_exist in Hall.
Qed.

Lemma suggest_loop_first_free (fs : filesystem) (fname ext : string) (n : Z) :
  1 <= n ->
  (forall j, 1 <= j < n -> isfile fs (candidate fname ext j) = true) ->
  isfile fs (candidate fname ext n) = false ->
  suggest_loop (S (size (fs_files fs))) fs fname ext 1
  = Ok ((fname +:+ "-") +:+ str n).
Proof.
  intros Hn Hbelow Hfree.
  destruct (suggest_loop_returns fs fname ext)
    as (m & Hm & -> & Hfree' & Hbelow').
  destruct (Z.lt_trichotomy m n) as [Hlt | [-> | Hgt]]; [|done|].
  - rewrite Hbelow in Hfree' by lia. done.
  - rewrite Hbelow' in Hfree by lia. done.
Qed.

Lemma split_dot_no_dot (s : string) : no_dot s = true -> split_dot s = [s].
Proof.
  induction s as [|c s IH]; simpl; [done|].
  intros [Hc Hs]%andb_true_iff. apply negb_true_iff in Hc.
  by rewrite Hc, IH.
Qed.

Lemma split_dot_append (b t : string) :
  no_dot b = true -> split_dot (b +:+ String "." t) = b :: split_dot t.
Proof.
  induction b as [|c b IH]; [done|].
  intros H. simpl in H. apply andb_true_iff in H as [Hc Hs].
  apply negb_true_iff in Hc.
  rewrite append_cons. simpl. by rewrite Hc, IH.
Qed.

(** For a name [base.ext] without further dots, the candidates are
    [base-1.ext], [base-2.ext], ... and the first one that is no file is
    suggested. *)
Lemma suggest_new_fname_first_free (fs : filesystem) (base e : string)
    (n : Z) :
  no_dot base = true -> no_dot e = true -> 1 <= n ->
  (forall j, 1 <= j < n ->
     isfile fs (base +:+ "-" +:+ str j +:+ "." +:+ e) = true) ->
  isfile fs (base +:+ "-" +:+ str n +:+ "." +:+ e) = false ->
  _suggest_new_fname fs (base +:+ "." +:+ e)
  = Ok (base +:+ "-" +:+ str n +:+ "." +:+ e).
Proof.
  intros Hb He Hn Hbelow Hfree. unfold _suggest_new_fname.
  change ("." +:+ e) with (String "." e).
  rewrite split_dot_append, split_dot_no_dot by done.
  unfold list_item_neg. cbn -[suggest_loop].
  assert (forall j, candidate base ("." +:+ e) j
                    = base +:+ "-" +:+ str j +:+ "." +:+ e) as Hc.
  { intros j. unfold candidate. by rewrite !append_assoc. }
  rewrite (suggest_loop_first_free fs base ("." +:+ e) n);
    cbn -[suggest_loop].
  - by rewrite <- Hc.
  - done.
  - intros j Hj. rewrite Hc. by apply Hbelow.
  - by rewrite Hc.
Qed.

(** [_suggest_new_fname] returns for every name with a dot, whatever
    the files. *)
Lemma suggest_new_fname_returns (fs : filesystem) (fname : string) :
  (2 <= length (split_dot fname))%nat ->
  exists new, _suggest_new_fname fs fname = Ok new.
Proof.
  intros Hlen. unfold _suggest_new_fname, list_item_neg.
  destruct (Nat.leb_spec 1 (length (split_dot fname))); [|lia].
  destruct (Nat.leb_spec 2 (length (split_dot fname))); [|lia].
  destruct (lookup_lt_is_Some_2 (split_dot fname)
              (length (split_dot fname) - 1)) as [e ->]; [lia|].
  destruct (lookup_lt_is_Some_2 (split_dot fname)
              (length (split_dot fname) - 2)) as [b ->]; [lia|].
  cbn -[suggest_loop].
  destruct (suggest_loop_returns fs b ("." +:+ e)) as (n & _ & -> & _).
  simpl. eauto.
Qed.

(** ** The HDF5 writer and reader *)

Lemma split_dot_nonempty (s : string) : (1 <= length (split_dot s))%nat.
Proof.
  induction s as [|c s IH]; simpl; [lia|].
  destruct (Ascii.eqb c "."); simpl; [lia|].
  destruct (split_dot s); simpl in *; lia.
Qed.

Lemma split_dot_length_app (s t : string) :
  (length (split_dot t) <= length (split_dot (s +:+ t)))%nat.
Proof.
  induction s as [|c s IH]; [done|]. rewrite append_cons. simpl.
  destruct (Ascii.eqb c "."); simpl; [lia|].
  pose proof (split_dot_nonempty t).
  destruct (split_dot (s +:+ t)); simpl in *; lia.
Qed.

Lemma hdf5_target_returns (fs : filesystem) (fname : string)
    (overwrite : bool) :
  exists w, hdf5_target fs fname overwrite = Ok w.
Proof.
  unfold hdf5_target. destruct overwrite; simpl; [eauto|].
  destruct (isfile fs (fname +:+ ".h5")); [|eauto].
  apply suggest_new_fname_returns.
  pose proof (split_dot_length_app fname ".h5").
  pose proof (split_dot_nonempty "h5").
  change (split_dot ".h5") with ("" :: split_dot "h5") in *. simpl in *. lia.
Qed.

Lemma write_file_twice (fs : filesystem) (p : string) (f g : file) :
  write_file (write_file fs p f) p g = write_file fs p g.
Proof. unfold write_file. simpl. by rewrite insert_insert_eq. Qed.

Lemma write_file_lookup (fs : filesystem) (p : string) (f : file) :
  fs_files (write_file fs p f) !! p = Some f.
Proof. apply lookup_insert_eq. Qed.

Lemma write_file_lookup_ne (fs : filesystem) (p q : string) (f : file) :
  p <> q -> fs_files (write_file fs p f) !! q = fs_files fs !! q.
Proof. intros. by apply lookup_insert_ne. Qed.

Lemma h5_create_new (fs : filesystem) (w name : string) (o : h5obj)
    (objs : gmap string h5obj) :
  objs !! name = None ->
  h5_create w name o (write_file fs w (Hdf5File objs))
  = (Ok tt, write_file fs w (Hdf5File (<[name := o]> objs))).
Proof.
  intros Hnew. unfold h5_create. msimpl.
  rewrite lookup_insert_eq, Hnew. by rewrite write_file_twice.
Qed.

(** With the default group the writer creates (or truncates) its target
    and fills it with the exchange layout. *)
Lemma write_hdf5_eval (fs : filesystem) (data : ndarray) (fname w : string)
    (overwrite : bool) :
  hdf5_target fs fname overwrite = Ok w ->
  write_hdf5 data fname "exchange" overwrite fs
  = (Ok tt, write_file fs w (Hdf5File (exchange_layout data "exchange"))).
Proof.
  unfold hdf5_target. intros Hw. unfold write_hdf5.
  unfold mbind at 1, M_bind. unfold get at 1.
  unfold mbind at 1, M_bind. unfold lift at 1. rewrite Hw.
  unfold mbind at 1, M_bind. unfold h5_create_file. msimpl.
  fold (write_file fs w (Hdf5File ∅)).
  rewrite h5_create_new by done.
  rewrite h5_create_new by done.
  rewrite h5_create_new by done.
  done.
Qed.

(** C6: with [out.h5] and [out-1.h5] existing (and [out-2.h5] not),
    [write_hdf5] with base name "out" and overwrite unset writes
    [out-2.h5] and leaves every other file as it was; in general the
    candidates [base-1.ext], [base-2.ext], ... are tested in increasing
    order and the first one that is no file is used. *)
Theorem write_hdf5_collision (fs : filesystem) (data : ndarray) :
  isfile fs "out.h5" = true ->
  isfile fs "out-1.h5" = true ->
  isfile fs "out-2.h5" = false ->
  write_hdf5 data "out" "exchange" false fs
    = (Ok tt, write_file fs "out-2.h5"
                (Hdf5File (exchange_layout data "exchange"))) /\
  (forall p, p <> "out-2.h5" ->
     fs_files (write_file fs "out-2.h5"
                 (Hdf5File (exchange_layout data "exchange"))) !! p
     = fs_files fs !! p) /\
  (forall fs' base e n,
     no_dot base = true -> no_dot e = true -> 1 <= n ->
     (forall j, 1 <= j < n ->
        isfile fs' (base +:+ "-" +:+ str j +:+ "." +:+ e) = true) ->
     isfile fs' (base +:+ "-" +:+ str n +:+ "." +:+ e) = false ->
     _suggest_new_fname fs' (base +:+ "." +:+ e)
     = Ok (base +:+ "-" +:+ str n +:+ "." +:+ e)).
Proof.
  intros H0 H1 H2. split; [|split].
  - apply write_hdf5_eval. unfold hdf5_target. simpl.
    change ("out" +:+ ".h5") with "out.h5". rewrite H0.
    apply (suggest_new_fname_first_free fs "out" "h5" 2); try done.
    intros j Hj. assert (j = 1) as -> by lia. exact H1.
  - intros p Hp. by apply write_file_lookup_ne.
  - intros fs' base e n. apply suggest_new_fname_first_free.
Qed.

Lemma write_hdf5_collision_witness :
  write_hdf5 f32_array "out" "exchange" false two_outs
  = (Ok tt, write_file two_outs "out-2.h5"
              (Hdf5File (exchange_layout f32_array "exchange"))).
Proof.
  destruct (write_hdf5_collision two_outs f32_array) as [H _];
    [reflexivity | reflexivity | reflexivity | exact H].
Defined.


(** ** Full slices *)

Lemma flat_map_ext_in {A B} (f g : A -> list B) (l : list A) :
  (forall x, x ∈ l -> f x = g x) -> flat_map f l = flat_map g l.
Proof.
  induction l as [|x xs IH]; intros H; simpl; [done|].
  rewrite H by apply list_elem_of_here. f_equal.
  apply IH. intros y Hy. by apply H, list_elem_of_further.
Qed.

(** Cutting a list into [n] chunks of [k] and gluing them gives the
    list back. *)
Lemma chunks_concat {A} (k n : nat) (l : list A) :
  length l = (n * k)%nat ->
  flat_map (fun i => take k (drop (i * k) l)) (seq 0 n) = l.
Proof.
  revert l. induction n as [|n IH]; intros l Hl; simpl.
  { by destruct l. }
  rewrite <- seq_shift, flat_map_concat_map, map_map, <- flat_map_concat_map.
  etrans; [|apply (take_drop k l)]. f_equal.
  etrans; [|apply (IH (drop k l)); rewrite length_drop; lia].
  apply flat_map_ext. intros i. rewrite drop_drop. do 2 f_equal.
Qed.

Lemma take_slices_full (shape : list nat) (elems : list fval) :
  length elems = prod_shape shape ->
  take_slices shape (map (Slice 0) shape) elems = elems.
Proof.
  revert elems. induction shape as [|n shape IH]; intros elems Hl; [done|].
  simpl in *. rewrite Nat.min_id, Nat.sub_0_r.
  etrans; [|apply (chunks_concat (prod_shape shape) n elems Hl)].
  apply flat_map_ext_in. intros i Hi%elem_of_seq. apply IH.
  rewrite length_take, length_drop. nia.
Qed.

Lemma sliced_shape_full (shape : list nat) :
  sliced_shape shape (map (Slice 0) shape) = shape.
Proof.
  induction shape as [|n shape IH]; [done|]. simpl.
  by rewrite IH, Nat.min_id, Nat.sub_0_r.
Qed.

(** Without slice arguments [_slice_array] returns a 3-D array as it
    is. *)
Lemma slice_array_default_3d (arr : ndarray) (n1 n2 n3 : nat) :
  nd_shape arr = [n1; n2; n3] -> well_shaped arr ->
  _slice_array arr None None None None = Ok arr.
Proof.
  intros Hs Hw. unfold _slice_array, well_shaped in *. rewrite Hs in *.
  unfold getitem_slices, default_slice. rewrite Hs.
  change [Slice 0 n1; Slice 0 n2; Slice 0 n3]
    with (map (Slice 0) [n1; n2; n3]).
  rewrite sliced_shape_full, take_slices_full by done.
  destruct arr; simpl in *. by subst.
Qed.

(** In a file laid out by [write_hdf5] the path "exchange/data" is
    the dataset. *)
Lemma h5_getitem_data (data : ndarray) :
  h5_getitem (exchange_layout data "exchange") "exchange/data"
  = Ok (H5Dataset data).
Proof.
  unfold h5_getitem, exchange_layout.
  change (h5_path "exchange/data") with "exchange/data".
  change ("exchange" +:+ "/" +:+ "data") with "exchange/data".
  by rewrite lookup_insert_eq.
Qed.

(** C7: a 3-D volume written by [write_hdf5] (default group
    "exchange", dataset "data") and read by [read_hdf5] from the
    written file, at the path "exchange/data", comes back identical:
    same dtype, shape and elements. *)
Theorem hdf5_roundtrip `{OsPath} (fs : filesystem) (data : ndarray)
    (fname : string) (overwrite : bool) (n1 n2 n3 : nat) :
  nd_dtype data = float32 ->
  nd_shape data = [n1; n2; n3] ->
  well_shaped data ->
  exists w fs',
    hdf5_target fs fname overwrite = Ok w /\
    write_hdf5 data fname "exchange" overwrite fs = (Ok tt, fs') /\
    fs_files fs' !! w = Some (Hdf5File (exchange_layout data "exchange")) /\
    forall r, abspath r = w ->
      read_hdf5 fs' r "exchange/data" None None None None = Ok data.
Proof.
  intros _ Hs Hw.
  destruct (hdf5_target_returns fs fname overwrite) as [w Ht].
  exists w, (write_file fs w (Hdf5File (exchange_layout data "exchange"))).
  split; [done|]. split; [by apply write_hdf5_eval|].
  split; [apply write_file_lookup|].
  intros r <-. unfold read_hdf5. rewrite write_file_lookup.
  cbn [mbind result_bind]. rewrite h5_getitem_data.
  cbn [mbind result_bind]. by eapply slice_array_default_3d.
Qed.

Lemma hdf5_roundtrip_witness :
  exists fs',
    write_hdf5 small_volume "/tmp/vol" "exchange" false no_files
      = (Ok tt, fs') /\
    @read_hdf5 cwd_paths fs' "/tmp/vol.h5" "exchange/data"
               None None None None = Ok small_volume.
Proof.
  destruct (@hdf5_roundtrip cwd_paths no_files small_volume "/tmp/vol" false
              2 1 2) as (w & fs' & Ht & Hw & _ & Hr);
    [reflexivity | reflexivity | reflexivity |].
  exists fs'. split; [exact Hw|]. apply Hr.
  injection Ht as <-. reflexivity.
Defined.


(** ** The TIFF writer: clipping in place *)

Lemma M_bind_eq {St A B} (m : M St A) (k : A -> M St B) (s : St) :
  (m ≫= k) s = match m s with
               | (Ok a, s') => k a s'
               | (Raise e, s') => (Raise e, s')
               | (NoReturn, s') => (NoReturn, s')
               end.
Proof. reflexivity. Qed.

(** On an empty array the reductions raise before anything is
    written. *)
Lemma clip_in_place_empty (dmin dmax : option Q) (s : wstate) :
  nd_elems (w_data s) = [] ->
  clip_in_place dmin dmax s = (Raise ValueError, s).
Proof.
  intros He. unfold clip_in_place. msimpl. rewrite He.
  destruct dmax, dmin; reflexivity.
Qed.




(** A Python float that the type of the array holds exactly is a bound
    of the array. *)
Lemma is_bound_py (dt : dtype) (b : option Q) (m : Q) :
  is_float dt = true ->
  (forall q, b = Some q -> cast float64 dt (FNum q) = FNum q) ->
  is_bound dt (bound_or dt (py_floats b) m) (default m b).
Proof.
  intros Hdt Hb. destruct b as [q|]; simpl.
  - split; [done|]. split; [done|]. by apply Hb.
  - by apply is_bound_own.
Qed.

Lemma scalar_lt_bound_l (dt : dtype) (s : scalar) (b m : Q) :
  is_float dt = true -> is_bound dt s b ->
  scalar_lt s (Scalar dt (FNum m)) = Qltb b m.
Proof.
  intros Hdt (H1 & H2 & _). destruct s as [st v]. simpl in *. subst v.
  by apply scalar_lt_float.
Qed.

Lemma scalar_lt_bound_r (dt : dtype) (s : scalar) (b m : Q) :
  is_float dt = true -> is_bound dt s b ->
  scalar_lt (Scalar dt (FNum m)) s = Qltb m b.
Proof.
  intros Hdt (H1 & H2 & _). destruct s as [st v]. simpl in *. subst v.
  by apply scalar_lt_float.
Qed.

(** On a non-empty array of finite numbers of a floating type, with
    bounds that are numbers of that type, the bounds are resolved and
    every element is clamped, in the caller's array. *)
Lemma clip_in_place_eval (dmin dmax : option Q) (dt : dtype) (sh : list nat)
    (qs : list Q) (fs : filesystem) (mn mx : Q) :
  is_float dt = true ->
  np_min (reals qs) = Ok (FNum mn) -> np_max (reals qs) = Ok (FNum mx) ->
  (forall b, dmin = Some b \/ dmax = Some b ->
             cast float64 dt (FNum b) = FNum b) ->
  clip_in_place dmin dmax (WState (NdArray dt sh (reals qs)) fs)
  = (Ok (bound_or dt (py_floats dmin) mn, bound_or dt (py_floats dmax) mx),
     WState (NdArray dt sh
               (reals (map (clamp (default mn dmin) (default mx dmax)) qs)))
            fs).
Proof.
  intros Hdt Hmn Hmx Hrep.
  set (lo := default mn dmin). set (hi := default mx dmax).
  set (slo := bound_or dt (py_floats dmin) mn).
  set (shi := bound_or dt (py_floats dmax) mx).
  assert (is_bound dt slo lo) as Hlo by (apply is_bound_py; auto).
  assert (is_bound dt shi hi) as Hhi by (apply is_bound_py; auto).
  destruct (guarded_clip qs lo hi mx Hmx) as (mn' & Hmn' & Hclip).
  rewrite clip_clamp in Hclip. simpl in Hclip.
  pose proof (scalar_lt_bound_l dt shi hi mx Hdt Hhi) as L1.
  pose proof (scalar_lt_bound_r dt slo lo mn' Hdt Hlo) as L2.
  pose proof (assign_where_gt_finite dt qs shi hi Hdt Hhi) as G1.
  pose proof (assign_where_lt_finite dt
                (if Qltb hi mx then clip_gt qs hi else qs) slo lo Hdt Hlo)
    as G2.
  unfold clip_in_place. rewrite M_bind_eq. unfold get_data at 1.
  cbn [w_data nd_dtype nd_elems].
  assert (forall (k : scalar -> M wstate (scalar * scalar)) s0,
            nd_elems (w_data s0) = reals qs ->
            (match dmax with
             | None => mx0 ← lift (np_max (reals qs)); mret (Scalar dt mx0)
             | Some d => mret (py_float d)
             end ≫= k) s0 = k shi s0) as E1.
  { intros k s0 _. subst shi. destruct dmax; msimpl; [done | by rewrite Hmx]. }
  assert (forall (k : scalar -> M wstate (scalar * scalar)) s0,
            (match dmin with
             | None => mn0 ← lift (np_min (reals qs)); mret (Scalar dt mn0)
             | Some d => mret (py_float d)
             end ≫= k) s0 = k slo s0) as E2.
  { intros k s0. subst slo. destruct dmin; msimpl; [done | by rewrite Hmn]. }
  rewrite E1, E2 by done.
  rewrite M_bind_eq. unfold lift at 1. rewrite Hmx.
  rewrite L1, G1.
  destruct (Qltb hi mx) eqn:Ehi; msimpl; rewrite Hmn'; simpl;
    rewrite L2, G2; destruct (Qltb mn' lo) eqn:Elo; simpl;
    by rewrite <- Hclip.
Qed.


Lemma assign_where_gt_length (dt : dtype) (arr arr' : list fval) (b : scalar) :
  assign_where_gt dt arr b = Ok arr' -> length arr' = length arr.
Proof.
  unfold assign_where_gt. destruct (store_cast dt b); simpl; try done.
  intros [= <-]. apply length_map.
Qed.

Lemma assign_where_lt_length (dt : dtype) (arr arr' : list fval) (b : scalar) :
  assign_where_lt dt arr b = Ok arr' -> length arr' = length arr.
Proof.
  unfold assign_where_lt. destruct (store_cast dt b); simpl; try done.
  intros [= <-]. apply length_map.
Qed.

(** Whatever the outcome, the first part leaves the files, the dtype
    and the shape alone, and the array keeps its number of elements. *)
Lemma clip_in_place_frame (dmin dmax : option Q) (s : wstate) :
  w_fs (snd (clip_in_place dmin dmax s)) = w_fs s /\
  nd_dtype (w_data (snd (clip_in_place dmin dmax s))) = nd_dtype (w_data s) /\
  nd_shape (w_data (snd (clip_in_place dmin dmax s))) = nd_shape (w_data s) /\
  length (nd_elems (w_data (snd (clip_in_place dmin dmax s))))
    = length (nd_elems (w_data s)).
Proof.
  unfold clip_in_place. msimpl.
  repeat (case_match; simplify_eq/=; try done).
  all: repeat match goal with
              | H : assign_where_gt _ _ _ = Ok _ |- _ =>
                  apply assign_where_gt_length in H
              | H : assign_where_lt _ _ _ = Ok _ |- _ =>
                  apply assign_where_lt_length in H
              end.
  all: repeat split; try done; congruence.
Qed.

(** On a non-empty array of a floating type the first part returns. *)
Lemma clip_in_place_float (dmin dmax : option Q) (s : wstate) :
  is_float (nd_dtype (w_data s)) = true -> nd_elems (w_data s) <> [] ->
  exists bounds, fst (clip_in_place dmin dmax s) = Ok bounds.
Proof.
  intros Hdt Hne.
  destruct (np_max_nonempty _ Hne) as [mx Hmx].
  destruct (np_min_nonempty _ Hne) as [mn Hmn].
  unfold clip_in_place. msimpl. rewrite Hmx, Hmn.
  set (shi := match dmax with Some d => _ | None => _ end).
  assert (exists b, shi = fun s0 => (Ok b, s0)) as [b1 ->]
    by (subst shi; destruct dmax; eauto).
  set (slo := match dmin with Some d => _ | None => _ end).
  assert (exists b, slo = fun s0 => (Ok b, s0)) as [b2 ->]
    by (subst slo; destruct dmin; eauto).
  simpl.
  destruct (assign_where_gt_float (nd_dtype (w_data s)) (nd_elems (w_data s))
              b1 Hdt) as (a1 & E1 & L1).
  rewrite E1.
  destruct (scalar_lt b1 _); simpl.
  - destruct (np_min_nonempty a1) as [m1 ->].
    { intros ->. destruct (nd_elems (w_data s)); simpl in *; congruence. }
    destruct (assign_where_lt_float (nd_dtype (w_data s)) a1 b2 Hdt)
      as (a2 & E2 & L2).
    rewrite E2. destruct (scalar_lt _ b2); simpl; eauto.
  - rewrite Hmn.
    destruct (assign_where_lt_float (nd_dtype (w_data s))
                (nd_elems (w_data s)) b2 Hdt) as (a2 & E2 & L2).
    rewrite E2. destruct (scalar_lt _ b2); simpl; eauto.
Qed.







(** ** The TIFF stack: writing and reading back *)

Lemma stack_name_bracket (fname : string) (digit ind : Z) :
  1 <= digit <= 18 -> 0 <= ind < 10 ^ digit ->
  exists k, 0 <= k < digit /\ (k = 0 \/ 10 ^ k <= ind) /\ ind < 10 ^ (k + 1)
    /\ _add_index_to_string fname ind digit = Ok (Some (stack_name fname digit ind))
    /\ stack_name fname digit ind
       = fname +:+ (("_" +:+ zeros (digit - k - 1)) +:+ str ind).
Proof.
  intros Hd Hind.
  destruct (bracket_exists (Z.to_nat (digit - 1)) ind)
    as (k & Hk & Hlo & Hhi).
  { rewrite Nat2Z.inj_succ, Z2Nat.id by lia.
    by replace (Z.succ (digit - 1)) with digit by lia. }
  rewrite Z2Nat.id in Hk by lia.
  exists k. unfold stack_name.
  rewrite (add_index_bracket fname ind digit k) by (auto; lia).
  repeat split; auto; lia.
Qed.

Lemma stack_name_inj (fname ext : string) (digit i j : Z) :
  1 <= digit <= 18 -> 0 <= i < 10 ^ digit -> 0 <= j < 10 ^ digit ->
  stack_name fname digit i +:+ ext = stack_name fname digit j +:+ ext ->
  i = j.
Proof.
  intros Hd Hi Hj H. apply append_inv_tail in H.
  destruct (stack_name_bracket fname digit i Hd Hi) as (k1 & _ & _ & _ & _ & E1).
  destruct (stack_name_bracket fname digit j Hd Hj) as (k2 & _ & _ & _ & _ & E2).
  rewrite E1, E2, !append_assoc in H.
  do 2 apply (inj (String.append _)) in H.
  eapply zeros_str_inj; [| |exact H]; lia.
Qed.

(** One round of the writer, for plane [m] along axis 0 and dtype
    'float32'. *)
Lemma write_tiff_body_float32 (fname : string) (id digit : Z)
    (overwrite : bool) (lo hi : scalar) (m : Z) (data : ndarray)
    (fs : filesystem) (nx ny nz : nat) :
  nd_dtype data = float32 ->
  nd_shape data = [nx; ny; nz] ->
  1 <= digit <= 18 -> 0 <= id + m < 10 ^ digit ->
  0 <= m < Z.of_nat nx ->
  (overwrite = true
   \/ isfile fs (stack_name fname digit (id + m) +:+ ".tiff") = false) ->
  write_tiff_body fname ".tiff" 0 id digit overwrite "float32" lo hi m
                  (WState data fs)
  = (Ok tt, WState data
              (write_file fs (stack_name fname digit (id + m) +:+ ".tiff")
                          (plane_file data ny nz (Z.to_nat m)))).
Proof.
  intros Hdt Hs Hd Hind Hm How.
  destruct (stack_name_bracket fname digit (id + m) Hd Hind)
    as (k & _ & _ & _ & Hname & _).
  unfold write_tiff_body. msimpl. rewrite Hname. simpl.
  assert ((if negb overwrite
           then if isfile fs (stack_name fname digit (id + m) +:+ ".tiff")
                then _suggest_new_fname fs
                       (stack_name fname digit (id + m) +:+ ".tiff")
                else Ok (stack_name fname digit (id + m) +:+ ".tiff")
           else Ok (stack_name fname digit (id + m) +:+ ".tiff"))
          = Ok (stack_name fname digit (id + m) +:+ ".tiff")) as ->.
  { destruct How as [->| ->]; [done | by destruct overwrite]. }
  simpl. unfold plane. rewrite Hs. simpl.
  destruct (decide (Z.to_nat m < nx)%nat); [|lia]. simpl.
  unfold imsave. simpl. rewrite Hdt.
  change (cast float32 float32) with (fun v : fval => v).
  by rewrite map_id.
Qed.

Section Stack.
Variables (fname : string) (id digit : Z) (data : ndarray) (nx ny nz : nat).
Hypothesis Hdtype : nd_dtype data = float32.
Hypothesis Hshape : nd_shape data = [nx; ny; nz].
Hypothesis Hdigit : 1 <= digit <= 18.
Hypothesis Hid : 0 <= id.
Hypothesis Hend : id + Z.of_nat nx <= 10 ^ digit.

Lemma saved_dirs (fs : filesystem) (ms : list Z) :
  fs_dirs (saved fname id digit data ny nz fs ms) = fs_dirs fs.
Proof.
  revert fs. induction ms as [|m ms IH]; intros fs; [done|].
  unfold saved in *. simpl. by rewrite IH.
Qed.



End Stack.

Lemma read_tiff_inner_skip (fs : filesystem) (fname ext : string)
    (d : list string) (sx : nat) (m : Z) (ns1 ns2 : list Z) (st : rstate) :
  (forall n, (n ∈ ns1) -> np_power10 (n + 1) <= m) ->
  read_tiff_inner fs fname ext d sx m (ns1 ++ ns2) st
  = read_tiff_inner fs fname ext d sx m ns2 st.
Proof.
  induction ns1 as [|n ns1 IH]; intros H; simpl; [done|].
  assert ((m <? np_power10 (n + 1)) = false) as ->.
  { apply Z.ltb_ge, H, list_elem_of_here. }
  apply IH. intros n' Hn'. by apply H, list_elem_of_further.
Qed.

(** The reader finds the same bracket, and so the same zeros, as the
    indexer; it puts no ["_"] before them. *)
Lemma read_tiff_inner_bracket (fs : filesystem) (fname ext : string)
    (sx : nat) (digit m k : Z) (st : rstate) :
  0 <= k < digit -> digit <= 18 ->
  (k = 0 \/ 10 ^ k <= m) -> m < 10 ^ (k + 1) ->
  read_tiff_inner fs fname ext
    (map (fun x => zeros (digit - x - 1)) (range digit)) sx m (range digit) st
  = read_one fs ((((fname +:+ zeros (digit - k - 1)) +:+ str m) +:+ ".")
                 +:+ ext) sx st.
Proof.
  intros Hk Hd Hlo Hhi.
  rewrite (range_split digit k) at 2 by done.
  rewrite read_tiff_inner_skip.
  - simpl. rewrite np_power10_small by lia.
    apply Z.ltb_lt in Hhi. rewrite Hhi.
    by rewrite string_index_item.
  - intros n Hn%range_elem. rewrite np_power10_small by lia.
    destruct Hlo as [->|Hlo]; [lia|].
    etrans; [|exact Hlo]. apply Z.pow_le_mono_r; lia.
Qed.

(** An image of the shape of the planes is stored as it is. *)
Lemma cells_concat {A} (cols : nat) (off : nat) (px : list A) :
  (off + cols <= length px)%nat ->
  flat_map (fun k => take 1 (drop (off + k) px)) (seq 0 cols)
  = take cols (drop off px).
Proof.
  intros Hlen.
  rewrite <- (chunks_concat 1 cols (take cols (drop off px))).
  - apply flat_map_ext_in. intros k Hk%elem_of_seq.
    rewrite Nat.mul_1_r, skipn_firstn_comm, drop_drop, take_take.
    f_equal. lia.
  - rewrite length_take, length_drop. lia.
Qed.

Lemma broadcast_same (dt : dtype) (rows cols : nat) (px : list fval) :
  length px = (rows * cols)%nat ->
  broadcast_image (Image dt rows cols px) rows cols = Ok px.
Proof.
  intros Hlen. unfold broadcast_image. simpl.
  destruct (decide _) as [_|Hn]; [|exfalso; apply Hn; auto].
  f_equal.
  etrans; [|apply (chunks_concat cols rows px)]; [|lia].
  apply flat_map_ext_in. intros j Hj%elem_of_seq.
  destruct (decide (rows = rows)); [|done].
  rewrite <- cells_concat by nia.
  apply flat_map_ext_in. intros k Hk%elem_of_seq.
  by destruct (decide (cols = cols)).
Qed.



Section ReadBack.
Variables (fs' : filesystem) (base : string) (id digit : Z) (E : list fval)
          (nx ny nz : nat).
Hypothesis Hdigit : 1 <= digit <= 18.
Hypothesis Hid : 0 <= id.
Hypothesis Hend : id + Z.of_nat nx <= 10 ^ digit.
Hypothesis Hlen : length E = (nx * (ny * nz))%nat.
Hypothesis Himg : forall j : nat, (j < nx)%nat ->
  fs_files fs' !! (stack_name base digit (id + Z.of_nat j) +:+ ".tiff")
  = Some (TiffFile (Image float32 ny nz
                      (take (ny * nz) (drop (j * (ny * nz)) E)))).



End ReadBack.

Lemma range_NoDup (n : Z) : NoDup (range n).
Proof.
  unfold range. apply NoDup_fmap_2; [|apply NoDup_seq].
  intros i j. lia.
Qed.





(* ===================================================================== *)
(** * Further properties of the code *)
(* ===================================================================== *)

(** ** More on [as_uint8] and [as_uint16] *)

(** A scalar of the type of the array is stored as it is, and an array
    of a floating type stores every scalar. *)
Lemma store_cast_own (dt : dtype) (v : fval) :
  store_cast dt (Scalar dt v) = Ok v.
Proof. unfold store_cast. simpl. by destruct dt. Qed.

Lemma store_cast_float (dt : dtype) (s : scalar) :
  is_float dt = true -> store_cast dt s = Ok (cast (s_dtype s) dt (s_val s)).
Proof. intros Hdt. unfold store_cast. by rewrite Hdt. Qed.

(** The body returns whenever the array can store the bounds given. *)
Lemma as_uint_elems_stores (bits : Z) (scale : Q) (dt : dtype)
    (arr : list fval) (dmin dmax : option scalar) :
  0 <= bits -> arr <> [] ->
  (forall s, dmin = Some s \/ dmax = Some s ->
             exists v, store_cast dt s = Ok v) ->
  exists out w,
    as_uint_elems bits scale dt arr dmin dmax = Ok (out, w) /\
    length out = length arr /\
    Forall (fun z => 0 <= z < 2 ^ bits) out.
Proof.
  intros Hb Hne Hst. unfold as_uint_elems.
  destruct (np_max_nonempty arr Hne) as [mx Hmx].
  destruct (np_min_nonempty arr Hne) as [mn Hmn].
  rewrite Hmx, Hmn.
  set (shi := match dmax with None => _ | Some d => _ end).
  assert (exists s v, shi = Ok s /\ store_cast dt s = Ok v)
    as (s1 & v1 & -> & Hv1).
  { subst shi. destruct dmax as [d|].
    - destruct (Hst d) as [v Hv]; [by right|]. by exists d, v.
    - exists (Scalar dt mx), mx. split; [done | apply store_cast_own]. }
  set (slo := match dmin with None => _ | Some d => _ end).
  assert (exists s v, slo = Ok s /\ store_cast dt s = Ok v)
    as (s2 & v2 & -> & Hv2).
  { subst slo. destruct dmin as [d|].
    - destruct (Hst d) as [v Hv]; [by left|]. by exists d, v.
    - exists (Scalar dt mn), mn. split; [done | apply store_cast_own]. }
  cbn [mbind result_bind].
  set (r1 := if scalar_lt s1 _ then _ else _).
  assert (exists arr1, r1 = Ok arr1 /\ length arr1 = length arr)
    as (arr1 & -> & L1).
  { subst r1. destruct (scalar_lt _ _); [|eauto].
    unfold assign_where_gt. rewrite Hv1. cbn [mbind result_bind].
    eexists. split; [done|]. by rewrite length_map. }
  cbn [mbind result_bind].
  destruct (np_min_nonempty arr1) as [mn1 ->].
  { intros ->. destruct arr; simpl in *; congruence. }
  cbn [mbind result_bind].
  set (r2 := if scalar_lt _ s2 then _ else _).
  assert (exists arr2, r2 = Ok arr2 /\ length arr2 = length arr)
    as (arr2 & -> & L2).
  { subst r2. destruct (scalar_lt _ _); [|eauto].
    unfold assign_where_lt. rewrite Hv2. cbn [mbind result_bind].
    eexists. split; [done|]. rewrite length_map. congruence. }
  cbn [mbind result_bind].
  destruct (scalar_eq s1 s2); eexists _, _; (split; [done|]);
    rewrite length_map; (split; [done|]);
    apply Forall_forall; intros z Hz; apply list_elem_of_fmap in Hz;
    destruct Hz as (v & -> & _); by apply astype_uint_bounds.
Qed.

(** A bound stored into an integer array goes through Python's [int]:
    an infinite [dmin] makes the call raise. *)
Lemma as_uint8_int_array_overflow :
  as_uint8 int_ramp (Some (Scalar float64 (FInf false))) None
  = Raise OverflowError.
Proof. vm_compute. reflexivity. Qed.

(** X1: [as_uint8] and [as_uint16] raise [ValueError] on an empty
    array, whatever the bounds.  On a non-empty array they return for
    any bounds the array can store (which a floating array can with
    every bound, equal, swapped, infinite or NaN ones as well, and an
    array of any type when the bounds are unset): an array of the
    target dtype, of the shape and size of the input, whose elements
    are integers of the target range. *)
Theorem as_uint_returns_same_shape (arr : ndarray)
    (dmin dmax : option scalar) :
  (nd_elems arr = [] ->
     as_uint8 arr dmin dmax = Raise ValueError /\
     as_uint16 arr dmin dmax = Raise ValueError) /\
  (nd_elems arr <> [] ->
   (forall s, dmin = Some s \/ dmax = Some s ->
      is_float (nd_dtype arr) = true
      \/ exists v, store_cast (nd_dtype arr) s = Ok v) ->
     exists out8 out16 : list Z,
       as_uint8 arr dmin dmax
         = Ok (NdArray uint8 (nd_shape arr) (of_ints out8)) /\
       as_uint16 arr dmin dmax
         = Ok (NdArray uint16 (nd_shape arr) (of_ints out16)) /\
       length out8 = length (nd_elems arr) /\
       length out16 = length (nd_elems arr) /\
       Forall (fun z => 0 <= z <= 255) out8 /\
       Forall (fun z => 0 <= z <= 65535) out16).
Proof.
  split.
  - intros He. unfold as_uint8, as_uint16.
    by rewrite He, !as_uint_elems_empty.
  - intros Hne Hcase.
    assert (forall s, dmin = Some s \/ dmax = Some s ->
              exists v, store_cast (nd_dtype arr) s = Ok v) as Hst.
    { intros s Hs. destruct (Hcase s Hs) as [Hf|Hv]; [|done].
      eexists. by apply store_cast_float. }
    destruct (as_uint_elems_stores 8 255 _ _ dmin dmax ltac:(lia) Hne Hst)
      as (out8 & w8 & H8 & L8 & R8).
    destruct (as_uint_elems_stores 16 65535 _ _ dmin dmax ltac:(lia) Hne Hst)
      as (out16 & w16 & H16 & L16 & R16).
    exists out8, out16. unfold as_uint8, as_uint16. rewrite H8, H16.
    repeat split; auto.
    + eapply Forall_impl; [exact R8|]. simpl. lia.
    + eapply Forall_impl; [exact R16|]. simpl. lia.
Qed.

Lemma as_uint_returns_same_shape_witness :
  (exists out8 out16 : list Z,
     as_uint8 ramp (Some (py_float 9)) (Some (Scalar float64 FNaN))
       = Ok (NdArray uint8 [3%nat] (of_ints out8)) /\
     as_uint16 ramp (Some (py_float 9)) (Some (Scalar float64 FNaN))
       = Ok (NdArray uint16 [3%nat] (of_ints out16)) /\
     length out8 = 3%nat /\ length out16 = 3%nat /\
     Forall (fun z => 0 <= z <= 255) out8 /\
     Forall (fun z => 0 <= z <= 65535) out16) /\
  (exists out8 out16 : list Z,
     as_uint8 int_ramp (Some (py_float (5 # 2))) (Some (py_float (15 # 2)))
       = Ok (NdArray uint8 [3%nat] (of_ints out8)) /\
     as_uint16 int_ramp (Some (py_float (5 # 2))) (Some (py_float (15 # 2)))
       = Ok (NdArray uint16 [3%nat] (of_ints out16)) /\
     length out8 = 3%nat /\ length out16 = 3%nat /\
     Forall (fun z => 0 <= z <= 255) out8 /\
     Forall (fun z => 0 <= z <= 65535) out16).
Proof.
  split.
  - destruct (as_uint_returns_same_shape ramp (Some (py_float 9))
                (Some (Scalar float64 FNaN))) as [_ H].
    apply H; [discriminate | by left].
  - destruct (as_uint_returns_same_shape int_ramp (Some (py_float (5 # 2)))
                (Some (py_float (15 # 2)))) as [_ H].
    apply H; [discriminate|].
    intros s [[= <-]|[= <-]]; right; eexists; reflexivity.
Defined.

(** X2: the rescale uses the full range.  For a non-empty array of
    finite numbers of a floating type, and effective bounds [lo < hi]
    that are numbers of the type of the array and whose difference, as
    the division takes it, is the positive finite difference of the
    arithmetic of the array, every element at or below [lo] comes out
    as 0 and every element at or above [hi] as 255 (65535 for
    [as_uint16]); with the default bounds these are the minimum and
    the maximum of the array. *)
Theorem as_uint_saturates (arr : ndarray) (dt : dtype) (qs : list Q)
    (dmin dmax : option scalar) (mn mx lo hi d : Q) :
  nd_dtype arr = dt -> is_float dt = true ->
  nd_elems arr = reals qs ->
  np_min (reals qs) = Ok (FNum mn) ->
  np_max (reals qs) = Ok (FNum mx) ->
  is_bound dt (bound_or dt dmin mn) lo ->
  is_bound dt (bound_or dt dmax mx) hi ->
  (lo < hi)%Q ->
  divisor dt (bound_or dt dmax mx) (bound_or dt dmin mn) = FNum d ->
  fsub (float_format dt) (FNum hi) (FNum lo) = FNum d ->
  (0 < d)%Q ->
  exists f8 f16 : Q -> Z,
    as_uint8 arr dmin dmax
      = Ok (NdArray uint8 (nd_shape arr) (of_ints (map f8 qs))) /\
    as_uint16 arr dmin dmax
      = Ok (NdArray uint16 (nd_shape arr) (of_ints (map f16 qs))) /\
    (forall v, (v <= lo)%Q -> f8 v = 0 /\ f16 v = 0) /\
    (forall v, (hi <= v)%Q -> f8 v = 255 /\ f16 v = 65535).
Proof.
  intros Hdt Hf He Hmn Hmx Hlo Hhi Hlt Hdiv Hsub Hd.
  exists (uint_value 8 (float_format dt) 255 lo hi),
         (uint_value 16 (float_format dt) 65535 lo hi).
  split; [|split; [|split]].
  - unfold as_uint8. rewrite Hdt, He.
    rewrite (as_uint_rescale 8 255 dt qs dmin dmax mn mx lo hi); try done.
    by rewrite Hdiv, Hsub.
  - unfold as_uint16. rewrite Hdt, He.
    rewrite (as_uint_rescale 16 65535 dt qs dmin dmax mn mx lo hi); try done.
    by rewrite Hdiv, Hsub.
  - intros v Hv. split.
    + by apply (uint_value_low dt 8 255 lo hi d).
    + by apply (uint_value_low dt 16 65535 lo hi d).
  - intros v Hv. split.
    + by apply (uint_value_high dt 8 255 lo hi d ltac:(lia) eq_refl
                  (rnd_255 dt)).
    + by apply (uint_value_high dt 16 65535 lo hi d ltac:(lia) eq_refl
                  (rnd_65535 dt)).
Qed.

Lemma as_uint_saturates_witness :
  exists f8 f16 : Q -> Z,
    as_uint8 ramp None None
      = Ok (NdArray uint8 [3%nat] (of_ints (map f8 [0; 3; 8]%Q))) /\
    as_uint16 ramp None None
      = Ok (NdArray uint16 [3%nat] (of_ints (map f16 [0; 3; 8]%Q))) /\
    (forall v, (v <= 0)%Q -> f8 v = 0 /\ f16 v = 0) /\
    (forall v, (8 <= v)%Q -> f8 v = 255 /\ f16 v = 65535).
Proof.
  apply (as_uint_saturates ramp float64 [0; 3; 8]%Q None None
           0%Q 8%Q 0%Q 8%Q 8%Q);
    try reflexivity; repeat split.
Defined.

(** After the two masked assignments with swapped bounds every element
    equals [dmin]; its difference to [dmin] is 0, and so is the
    element of the output, whatever the divisor. *)
Lemma rescale_of_low (bits : Z) (f : format) (scale lo : Q) (dv : fval) :
  astype_uint bits
    (fmul f (fdiv f (fsub f (FNum lo) (FNum lo)) dv) (FNum scale)) = 0.
Proof.
  rewrite fsub_num, (rnd_zero f (lo - lo)) by ring.
  destruct dv as [q| |]; [|by cbn [fdiv]; rewrite fmul_num, rnd_zero by ring|done].
  destruct (Qeq_bool q 0) eqn:E.
  - unfold fdiv. by rewrite E.
  - apply Qeq_bool_false in E. rewrite fdiv_num by done.
    rewrite (rnd_zero f (0 / q)) by (field; done).
    by rewrite fmul_num, rnd_zero by ring.
Qed.

(** X3: bounds given the wrong way round are not rejected.  For a
    non-empty array of finite numbers of a floating type and effective
    bounds [dmin > dmax] that are numbers of the type of the array,
    every element is first set to [dmin], and the rescale then gives 0
    for every element of the output. *)
Theorem as_uint_swapped_bounds (arr : ndarray) (dt : dtype) (qs : list Q)
    (dmin dmax : option scalar) (mn mx lo hi : Q) :
  nd_dtype arr = dt -> is_float dt = true ->
  nd_elems arr = reals qs ->
  np_min (reals qs) = Ok (FNum mn) ->
  np_max (reals qs) = Ok (FNum mx) ->
  is_bound dt (bound_or dt dmin mn) lo ->
  is_bound dt (bound_or dt dmax mx) hi ->
  (hi < lo)%Q ->
  as_uint8 arr dmin dmax
    = Ok (NdArray uint8 (nd_shape arr) (of_ints (map (fun _ => 0) qs))) /\
  as_uint16 arr dmin dmax
    = Ok (NdArray uint16 (nd_shape arr) (of_ints (map (fun _ => 0) qs))).
Proof.
  intros Hdt Hf He Hmn Hmx Hlo Hhi Hlt.
  assert (Qeq_bool hi lo = false) as Hne by (apply Qeq_bool_false; lra).
  unfold as_uint8, as_uint16. rewrite Hdt, He.
  rewrite !(as_uint_elems_eval _ _ dt qs dmin dmax mn mx lo hi) by done.
  rewrite Hne. cbn [mbind result_bind fst].
  split; do 3 f_equal; apply map_ext; intros v;
    rewrite clamp_swapped by done; apply rescale_of_low.
Qed.

Lemma as_uint_swapped_bounds_witness :
  as_uint8 ramp (Some (py_float 9)) (Some (py_float 2))
    = Ok (NdArray uint8 [3%nat] (of_ints [0; 0; 0])).
Proof.
  destruct (as_uint_swapped_bounds ramp float64 [0; 3; 8]%Q
              (Some (py_float 9)) (Some (py_float 2)) 0%Q 8%Q 9%Q 2%Q)
    as [H _]; [reflexivity | reflexivity | reflexivity | reflexivity
              | reflexivity | repeat split | repeat split | reflexivity
              | exact H].
Defined.

(** X4: for a non-empty array of finite numbers of a floating type,
    and effective bounds [lo < hi] that are numbers of the type of the
    array and whose difference, as the division takes it, is the
    positive finite difference of the arithmetic of the array, every
    element of the array [as_uint16] returns lies in [[0, 65535]], and
    the output element is a monotonic non-decreasing function of the
    input element. *)
Theorem as_uint16_range_monotone (arr : ndarray) (dt : dtype) (qs : list Q)
    (dmin dmax : option scalar) (mn mx lo hi d : Q) :
  nd_dtype arr = dt -> is_float dt = true ->
  nd_elems arr = reals qs ->
  np_min (reals qs) = Ok (FNum mn) ->
  np_max (reals qs) = Ok (FNum mx) ->
  is_bound dt (bound_or dt dmin mn) lo ->
  is_bound dt (bound_or dt dmax mx) hi ->
  (lo < hi)%Q ->
  divisor dt (bound_or dt dmax mx) (bound_or dt dmin mn) = FNum d ->
  fsub (float_format dt) (FNum hi) (FNum lo) = FNum d ->
  (0 < d)%Q ->
  as_uint16 arr dmin dmax
    = Ok (NdArray uint16 (nd_shape arr)
           (of_ints (map (uint_value 16 (float_format dt) 65535 lo hi) qs))) /\
  (forall v, 0 <= uint_value 16 (float_format dt) 65535 lo hi v <= 65535) /\
  (forall v w, (v <= w)%Q ->
     uint_value 16 (float_format dt) 65535 lo hi v
     <= uint_value 16 (float_format dt) 65535 lo hi w).
Proof.
  intros Hdt Hf He Hmn Hmx Hlo Hhi Hlt Hdiv Hsub Hd.
  split; [|split].
  - unfold as_uint16. rewrite Hdt, He.
    rewrite (as_uint_rescale 16 65535 dt qs dmin dmax mn mx lo hi); try done.
    by rewrite Hdiv, Hsub.
  - intros v. by apply (uint_value_range dt 16 65535 lo hi d ltac:(lia)
                          eq_refl (rnd_65535 dt)).
  - intros v w Hvw.
    by apply (uint_value_mono dt 16 65535 lo hi d ltac:(lia) eq_refl
                (rnd_65535 dt)).
Qed.

Lemma as_uint16_range_monotone_witness :
  as_uint16 ramp (Some (py_float 1)) (Some (py_float 7))
    = Ok (NdArray uint16 [3%nat]
           (of_ints (map (uint_value 16 binary64 65535 1 7) [0; 3; 8]%Q))).
Proof.
  destruct (as_uint16_range_monotone ramp float64 [0; 3; 8]%Q
              (Some (py_float 1)) (Some (py_float 7)) 0%Q 8%Q 1%Q 7%Q 6%Q)
    as [H _]; [reflexivity | reflexivity | reflexivity | reflexivity
              | reflexivity | repeat split | repeat split | reflexivity
              | reflexivity | reflexivity | reflexivity |].
  exact H.
Defined.

(** ** [as_float32] and [remove_neg] on the heap *)

(** X5: [as_float32] raises for no object and changes no object there
    is.  For an ndarray it returns a reference that named nothing
    before, to a float32 array of the shape of the argument that holds
    its elements converted to float32 (for a float32 array: an equal
    array); a numpy scalar of another dtype becomes a 0-d float32
    array; only a float32 scalar is handed back as it is. *)
Theorem as_float32_fresh_copy (h : heap) (arr : addr) (o : pyobj) :
  h !! arr = Some o ->
  exists r h',
    as_float32 h arr = Ok (r, h') /\
    (forall i x, h !! i = Some x -> h' !! i = Some x) /\
    match o with
    | PyScalar float32 _ => r = arr /\ h' = h
    | PyScalar t v =>
        h !! r = None /\
        h' !! r = Some (PyNdarray (NdArray float32 [] [cast t float32 v]))
    | PyNdarray a =>
        h !! r = None /\
        h' !! r
          = Some (PyNdarray
                    (NdArray float32 (nd_shape a)
                       (map (cast (nd_dtype a) float32) (nd_elems a)))) /\
        (nd_dtype a = float32 -> h' !! r = Some (PyNdarray a))
    end.
Proof.
  intros H. unfold as_float32. rewrite H.
  assert (forall x : pyobj,
            (h ++ [x]) !! length h = Some x /\
            (forall i y, h !! i = Some y -> (h ++ [x]) !! i = Some y) /\
            h !! length h = None) as Hfresh.
  { intros x. split; [|split].
    - by rewrite lookup_app_r, Nat.sub_diag by lia.
    - intros i y Hi. by apply lookup_app_l_Some.
    - apply lookup_ge_None. lia. }
  destruct o as [t v|a].
  - destruct (Hfresh (PyNdarray (np_array_float32 (PyScalar t v))))
      as (H1 & H2 & H3).
    destruct t; simpl; eexists _, _; (split; [done|]); by repeat split.
  - destruct (Hfresh (PyNdarray (np_array_float32 (PyNdarray a))))
      as (H1 & H2 & H3).
    simpl. eexists _, _. split; [done|]. split; [done|].
    split; [done|]. split; [done|].
    intros Hdt. simpl in H1. rewrite H1, Hdt.
    change (cast float32 float32) with (fun v : fval => v).
    rewrite map_id. destruct a. simpl in *. by subst.
Qed.

Lemma as_float32_fresh_copy_witness :
  exists r h',
    as_float32 [PyNdarray ramp] 0%nat = Ok (r, h') /\
    [PyNdarray ramp] !! r = None /\
    h' !! r = Some (PyNdarray (NdArray float32 [3%nat] (reals [0; 3; 8]%Q))).
Proof.
  destruct (as_float32_fresh_copy [PyNdarray ramp] 0%nat (PyNdarray ramp))
    as (r & h' & H1 & _ & H2 & H3 & _); [reflexivity|].
  by exists r, h'.
Defined.

(** [remove_neg] on an ndarray: the copy is cleaned, the caller's
    array is not. *)
Lemma remove_neg_on_copy (h : heap) (dat : addr) (a : ndarray) (val : Q) :
  h !! dat = Some (PyNdarray a) ->
  exists r h',
    remove_neg h dat val = Ok (r, h') /\
    r <> dat /\
    h' !! dat = Some (PyNdarray a) /\
    (forall i x, h !! i = Some x -> h' !! i = Some x) /\
    h' !! r = Some (PyNdarray
                      (NdArray float32 (nd_shape a)
                         (map (fun x => if fltb x (FNum 0)
                                        then cast float64 float32 (FNum val)
                                        else x)
                              (map (cast (nd_dtype a) float32)
                                   (nd_elems a))))).
Proof.
  intros H. unfold remove_neg, as_float32. rewrite H. simpl.
  pose proof (lookup_lt_Some _ _ _ H) as Hlt.
  rewrite lookup_app_r, Nat.sub_diag by lia. simpl.
  eexists _, _. split; [done|].
  assert (forall (o : pyobj) i x, h !! i = Some x ->
            <[length h := o]>
              (h ++ [PyNdarray (NdArray float32 (nd_shape a)
                                  (map (cast (nd_dtype a) float32)
                                       (nd_elems a)))])
            !! i = Some x) as Hold.
  { intros o i x Hi. pose proof (lookup_lt_Some _ _ _ Hi).
    rewrite list_lookup_insert_ne by lia. by apply lookup_app_l_Some. }
  split; [lia|]. split; [by apply Hold|]. split; [apply Hold|].
  apply list_lookup_insert_eq. rewrite length_app. simpl. lia.
Qed.

(** X6: [remove_neg] on an ndarray works on the copy [as_float32]
    made: it returns a new float32 array of the same shape, holding
    the elements converted to float32, in which every element that is
    negative after the conversion is replaced by [val] converted to
    float32 and every other element is kept; the caller's array and
    every other object are left as they were. *)
Theorem remove_neg_ndarray (h : heap) (dat : addr) (a : ndarray) (val : Q) :
  h !! dat = Some (PyNdarray a) ->
  exists r h',
    remove_neg h dat val = Ok (r, h') /\
    r <> dat /\
    h' !! dat = Some (PyNdarray a) /\
    (forall i x, h !! i = Some x -> h' !! i = Some x) /\
    h' !! r = Some (PyNdarray
                      (NdArray float32 (nd_shape a)
                         (map (fun x => if fltb x (FNum 0)
                                        then cast float64 float32 (FNum val)
                                        else x)
                              (map (cast (nd_dtype a) float32)
                                   (nd_elems a))))).
Proof. apply remove_neg_on_copy. Qed.

Lemma remove_neg_ndarray_witness :
  exists r h',
    remove_neg [PyNdarray (NdArray float64 [2%nat] (reals [-3; 4]%Q))] 0%nat 0
      = Ok (r, h') /\
    h' !! r = Some (PyNdarray (NdArray float32 [2%nat] (reals [0; 4]%Q))).
Proof.
  destruct (remove_neg_ndarray
              [PyNdarray (NdArray float64 [2%nat] (reals [-3; 4]%Q))] 0%nat
              (NdArray float64 [2%nat] (reals [-3; 4]%Q)) 0)
    as (r & h' & H1 & _ & _ & _ & H2); [reflexivity|].
  by exists r, h'.
Defined.

(** A number of float64 that is too small for float32 becomes 0 in the
    copy and is not replaced: -1e-50 is negative, the element of the
    result is 0 and not [val]. *)
Lemma remove_neg_underflow :
  exists r h',
    remove_neg [PyNdarray (NdArray float64 [1%nat]
                             (reals [- (1 # 10 ^ 50)]%Q))] 0%nat 7
      = Ok (r, h') /\
    h' !! r = Some (PyNdarray (NdArray float32 [1%nat] (reals [0]%Q))).
Proof. eexists _, _. split; vm_compute; reflexivity. Qed.

Lemma fill_nonneg (arr : list fval) (val : Q) :
  (0 <= val)%Q ->
  Forall (fun v => fltb v (FNum 0) = false)
         (map (fun x => if fltb x (FNum 0) then cast float64 float32 (FNum val)
                        else x) arr).
Proof.
  intros Hval. apply Forall_forall. intros v Hv%list_elem_of_fmap.
  destruct Hv as (w & -> & _).
  destruct (fltb w (FNum 0)) eqn:E; [|done].
  by apply (rnd_nonneg binary32).
Qed.

Lemma fill_id (arr : list fval) (v : fval) :
  Forall (fun x => fltb x (FNum 0) = false) arr ->
  map (fun x => if fltb x (FNum 0) then v else x) arr = arr.
Proof.
  induction 1 as [|x xs Hx _ IH]; simpl; [done|]. by rewrite IH, Hx.
Qed.

(** X7: with a fill value [val >= 0] the array [remove_neg] returns
    has no negative element, and cleaning it again changes nothing:
    the second call returns an array of the same elements. *)
Theorem remove_neg_twice (h : heap) (dat : addr) (a : ndarray) (val : Q) :
  h !! dat = Some (PyNdarray a) ->
  (0 <= val)%Q ->
  exists r1 h1 r2 h2 b,
    remove_neg h dat val = Ok (r1, h1) /\
    h1 !! r1 = Some (PyNdarray b) /\
    Forall (fun v => fltb v (FNum 0) = false) (nd_elems b) /\
    remove_neg h1 r1 val = Ok (r2, h2) /\
    h2 !! r2 = Some (PyNdarray b).
Proof.
  intros H Hval.
  destruct (remove_neg_on_copy h dat a val H)
    as (r1 & h1 & E1 & _ & _ & _ & Hb).
  destruct (remove_neg_on_copy h1 r1 _ val Hb)
    as (r2 & h2 & E2 & _ & _ & _ & Hc).
  eexists r1, h1, r2, h2, _. split; [exact E1|]. split; [exact Hb|].
  split; [by apply fill_nonneg|]. split; [exact E2|].
  rewrite Hc. simpl. do 3 f_equal.
  change (cast float32 float32) with (fun v : fval => v).
  rewrite map_id. by apply fill_id, fill_nonneg.
Qed.

Lemma remove_neg_twice_witness :
  exists r1 h1 r2 h2 b,
    remove_neg [PyNdarray (NdArray float64 [2%nat] (reals [-3; 4]%Q))] 0%nat 0
      = Ok (r1, h1) /\
    h1 !! r1 = Some (PyNdarray b) /\
    Forall (fun v => fltb v (FNum 0) = false) (nd_elems b) /\
    remove_neg h1 r1 0 = Ok (r2, h2) /\
    h2 !! r2 = Some (PyNdarray b).
Proof.
  apply (remove_neg_twice _ 0%nat
           (NdArray float64 [2%nat] (reals [-3; 4]%Q)) 0);
    [reflexivity | discriminate].
Defined.

(** X8: on numpy scalars the type test of [as_float32] decides.  A
    float32 scalar is handed on as it is and the masked assignment
    raises [TypeError]; a scalar of another dtype was turned into a
    0-d float32 array first, and is cleaned: the array holds [val]
    converted to float32 if the converted scalar is negative, and the
    converted scalar otherwise. *)
Theorem remove_neg_scalar (h : heap) (dat : addr) (t : dtype) (v : fval)
    (val : Q) :
  h !! dat = Some (PyScalar t v) ->
  (t = float32 -> remove_neg h dat val = Raise TypeError) /\
  (t <> float32 ->
     remove_neg h dat val
     = Ok (length h,
           h ++ [PyNdarray (NdArray float32 []
                              [if fltb (cast t float32 v) (FNum 0)
                               then cast float64 float32 (FNum val)
                               else cast t float32 v])])).
Proof.
  intros H. unfold remove_neg, as_float32. rewrite H. split.
  - intros ->. simpl. by rewrite H.
  - intros Ht.
    assert (negb (isinstance_np_float32 (PyScalar t v)) = true) as ->
      by (by destruct t).
    simpl. rewrite lookup_app_r, Nat.sub_diag by lia. simpl.
    f_equal. f_equal.
    rewrite insert_app_r_alt, Nat.sub_diag by lia. done.
Qed.

Lemma remove_neg_scalar_witness :
  remove_neg [PyScalar float32 (FNum (-1))] 0%nat 0 = Raise TypeError.
Proof.
  destruct (remove_neg_scalar [PyScalar float32 (FNum (-1))] 0%nat float32
              (FNum (-1)) 0)
    as [H _]; [reflexivity|]. by apply H.
Defined.

(** ** More on the file-name indexer *)

Lemma str_length_bracket (ind k : Z) :
  0 <= k -> 0 <= ind -> (k = 0 \/ 10 ^ k <= ind) -> ind < 10 ^ (k + 1) ->
  String.length (str ind) = Z.to_nat (k + 1).
Proof.
  intros Hk Hind Hlo Hhi.
  destruct (decide (ind = 0)) as [->|Hnz].
  { destruct Hlo as [->|Hlo]; [done|].
    pose proof (Z.pow_pos_nonneg 10 k). lia. }
  replace (Z.to_nat (k + 1)) with (S (Z.to_nat k)) by lia.
  apply str_length. rewrite Nat2Z.inj_succ, Z2Nat.id by lia.
  split; [|by rewrite <- Z.add_1_r].
  destruct Hlo as [->|Hlo]; [simpl; lia | done].
Qed.

Lemma str_length_pos (n : Z) : 0 <= n -> (1 <= String.length (str n))%nat.
Proof.
  intros Hn. destruct (str_nonneg n Hn) as (u & Hu & -> & _).
  rewrite string_of_uint_length.
  destruct (Decimal.nb_digits u) eqn:E; [|lia].
  by apply DecimalFacts.nb_digits_0 in E.
Qed.

(** X9: for every digit width from 1 to 18 and every index
    [0 <= ind < 10^digit] the indexer returns the base, ["_"] and the
    decimal index left-padded with zeros; the padded index has exactly
    [digit] characters. *)
Theorem add_index_zero_padded (base : string) (ind digit : Z) :
  1 <= digit <= 18 -> 0 <= ind < 10 ^ digit ->
  _add_index_to_string base ind digit
    = Ok (Some (base +:+ "_" +:+ zfill (Z.to_nat digit) (str ind))) /\
  String.length (zfill (Z.to_nat digit) (str ind)) = Z.to_nat digit.
Proof.
  intros Hd Hind.
  destruct (bracket_exists (Z.to_nat (digit - 1)) ind)
    as (k & Hk & Hlo & Hhi).
  { rewrite Nat2Z.inj_succ, Z2Nat.id by lia.
    by replace (Z.succ (digit - 1)) with digit by lia. }
  rewrite Z2Nat.id in Hk by lia.
  pose proof (str_length_bracket ind k ltac:(lia) ltac:(lia) Hlo Hhi) as Hlen.
  split.
  - rewrite (add_index_bracket base ind digit k) by (auto; lia).
    unfold zfill. rewrite Hlen, !append_cons, !append_nil.
    do 6 f_equal. lia.
  - unfold zfill. rewrite append_length, zeros_length, Hlen. lia.
Qed.

Lemma add_index_zero_padded_witness :
  _add_index_to_string "img" 7 3
    = Ok (Some ("img" +:+ "_" +:+ zfill (Z.to_nat 3) (str 7))).
Proof.
  destruct (add_index_zero_padded "img" 7 3) as [H _];
    [lia | lia | exact H].
Defined.

(** X10: within the range of a width, two indices never get the same
    name. *)
Theorem add_index_injective (base s : string) (digit i j : Z) :
  1 <= digit <= 18 -> 0 <= i < 10 ^ digit -> 0 <= j < 10 ^ digit ->
  _add_index_to_string base i digit = Ok (Some s) ->
  _add_index_to_string base j digit = Ok (Some s) ->
  i = j.
Proof.
  intros Hd Hi Hj Hsi Hsj.
  destruct (add_index_returns base i digit Hd Hi) as [k1 E1].
  destruct (add_index_returns base j digit Hd Hj) as [k2 E2].
  rewrite E1 in Hsi. rewrite E2 in Hsj.
  injection Hsi as Hsi. injection Hsj as Hsj. rewrite <- Hsj in Hsi.
  rewrite !append_assoc in Hsi.
  do 2 apply (inj (String.append _)) in Hsi.
  eapply zeros_str_inj; [| |exact Hsi]; lia.
Qed.

Lemma add_index_injective_witness : 12 = 12.
Proof.
  apply (add_index_injective "img" "img_012" 3 12 12);
    [lia | lia | lia | reflexivity | reflexivity].
Defined.

(** X11: the indexer outside its range.  A negative index is taken for
    a one-digit number: it gets [digit - 1] zeros in front of its sign,
    and the suffix is longer than the width.  A width of zero or less
    leaves the loop no round: the result is [None] for every index. *)
Theorem add_index_negative (base : string) (ind digit : Z) :
  (ind < 0 -> 1 <= digit ->
     _add_index_to_string base ind digit
       = Ok (Some (base +:+ "_" +:+ zeros (digit - 1) +:+ "-" +:+ str (- ind)))
     /\ (Z.to_nat digit
         < String.length (zeros (digit - 1) +:+ "-" +:+ str (- ind)))%nat) /\
  (digit <= 0 -> _add_index_to_string base ind digit = Ok None).
Proof.
  split.
  - intros Hneg Hd.
    assert (str ind = "-" +:+ str (- ind)) as Hstr.
    { unfold str. destruct ind as [|p|p]; [lia|lia|]. reflexivity. }
    split.
    + unfold _add_index_to_string.
      rewrite (range_split digit 0) at 2 by lia.
      change (range 0) with (@nil Z). cbn [app add_index_loop].
      assert ((ind <? np_power10 (0 + 1)) = true) as ->.
      { apply Z.ltb_lt. change (np_power10 (0 + 1)) with 10. lia. }
      rewrite string_index_item by lia. simpl.
      rewrite Hstr, !append_cons, !append_nil.
      by replace (digit - 0 - 1) with (digit - 1) by lia.
    + rewrite append_length, zeros_length, append_cons, append_nil.
      pose proof (str_length_pos (- ind) ltac:(lia)). simpl. lia.
  - intros Hd. unfold _add_index_to_string, range.
    by replace (Z.to_nat digit) with 0%nat by lia.
Qed.

Lemma add_index_negative_witness :
  _add_index_to_string "img" (-5) 5
    = Ok (Some ("img" +:+ "_" +:+ zeros (5 - 1) +:+ "-" +:+ str (- (-5)))).
Proof.
  destruct (add_index_negative "img" (-5) 5) as [H _].
  destruct H as [H _]; [lia | lia | exact H].
Defined.

(** X12: the brackets are computed in int64, where [10^19] wraps to a
    negative number.  With digit width 19 the indices of 19 digits
    therefore find no bracket, although they fit the width: the result
    is [None]. *)
Theorem add_index_width19 (base : string) (ind : Z) :
  10 ^ 18 <= ind ->
  _add_index_to_string base ind 19 = Ok None.
Proof.
  intros Hind. unfold _add_index_to_string.
  rewrite <- (app_nil_r (range 19)) at 2.
  rewrite add_index_loop_skip; [done|].
  intros m Hm%range_elem.
  destruct (decide (m = 18)) as [->|Hm18].
  - assert (np_power10 (18 + 1) < 0) by (by vm_compute). lia.
  - rewrite np_power10_small by lia.
    etrans; [|exact Hind]. apply Z.pow_le_mono_r; lia.
Qed.

Lemma add_index_width19_witness :
  _add_index_to_string "img" (10 ^ 18) 19 = Ok None.
Proof. apply add_index_width19. lia. Defined.

(** ** More on [_suggest_new_fname] *)

(** What the function computes from the last two dot-separated pieces
    [b] and [e] of the name. *)
Lemma suggest_new_fname_pieces (fs : filesystem) (fname b e : string)
    (pre : list string) :
  split_dot fname = pre ++ [b; e] ->
  exists n,
    1 <= n /\
    _suggest_new_fname fs fname = Ok (candidate b ("." +:+ e) n) /\
    isfile fs (candidate b ("." +:+ e) n) = false /\
    (forall j, 1 <= j < n -> isfile fs (candidate b ("." +:+ e) j) = true).
Proof.
  intros Hsplit. unfold _suggest_new_fname, list_item_neg.
  rewrite Hsplit, length_app. simpl length.
  destruct (Nat.leb_spec 1 (length pre + 2)); [|lia].
  destruct (Nat.leb_spec 2 (length pre + 2)); [|lia].
  replace (length pre + 2 - 1)%nat with (length pre + 1)%nat by lia.
  replace (length pre + 2 - 2)%nat with (length pre + 0)%nat by lia.
  rewrite !lookup_app_r, !Nat.add_sub' by lia.
  cbn -[suggest_loop].
  destruct (suggest_loop_returns fs b ("." +:+ e))
    as (n & Hn & -> & Hfree & Hbelow).
  exists n. by repeat split.
Qed.

Lemma split_dot_last_two (fname : string) :
  (2 <= length (split_dot fname))%nat ->
  exists pre b e, split_dot fname = pre ++ [b; e].
Proof.
  intros Hlen.
  destruct (split_dot fname) as [|x l] using rev_ind; [simpl in Hlen; lia|].
  clear IHl. destruct l as [|y l _] using rev_ind.
  { simpl in Hlen. lia. }
  exists l, y, x. by rewrite <- app_assoc.
Qed.

(** The suggestion is never the name of a file. *)
Lemma suggest_new_fname_not_file (fs : filesystem) (fname : string) :
  (2 <= length (split_dot fname))%nat ->
  exists new, _suggest_new_fname fs fname = Ok new /\ isfile fs new = false.
Proof.
  intros Hlen. destruct (split_dot_last_two fname Hlen) as (pre & b & e & Hs).
  destruct (suggest_new_fname_pieces fs fname b e pre Hs)
    as (n & _ & -> & Hfree & _).
  eauto.
Qed.

(** X13: for every name with a dot, and whatever files there are,
    [_suggest_new_fname] returns, and the name it returns is no
    existing file. *)
Theorem suggest_new_fname_fresh (fs : filesystem) (fname : string) :
  (2 <= length (split_dot fname))%nat ->
  exists new, _suggest_new_fname fs fname = Ok new /\ isfile fs new = false.
Proof. apply suggest_new_fname_not_file. Qed.

Lemma suggest_new_fname_fresh_witness :
  exists new, _suggest_new_fname two_outs "out.h5" = Ok new
              /\ isfile two_outs new = false.
Proof. apply suggest_new_fname_fresh. simpl. lia. Defined.

Lemma split_dot_app_dot (p t : string) :
  split_dot (p +:+ String "." t) = split_dot p ++ split_dot t.
Proof.
  induction p as [|c p IH]; [done|].
  rewrite append_cons. simpl. rewrite IH.
  destruct (Ascii.eqb c "."); [done|].
  pose proof (split_dot_nonempty p).
  destruct (split_dot p); [simpl in *; lia | done].
Qed.

(** X14: the name is cut at its dots, and only the last two pieces are
    used.  A name without a dot raises [IndexError]; of a name with
    more dots, as of a path through a folder [run.1], everything before
    the last two pieces is dropped from the suggestion. *)
Theorem suggest_new_fname_dots (fs : filesystem) (p b e : string) :
  no_dot b = true -> no_dot e = true ->
  _suggest_new_fname fs b = Raise IndexError /\
  _suggest_new_fname fs (p +:+ "." +:+ b +:+ "." +:+ e)
    = _suggest_new_fname fs (b +:+ "." +:+ e) /\
  exists n, 1 <= n /\
    _suggest_new_fname fs (p +:+ "." +:+ b +:+ "." +:+ e)
      = Ok (b +:+ "-" +:+ str n +:+ "." +:+ e).
Proof.
  intros Hb He.
  assert (split_dot (b +:+ "." +:+ e) = [] ++ [b; e]) as Hbe.
  { change ("." +:+ e) with (String "." e).
    by rewrite split_dot_append, split_dot_no_dot. }
  assert (split_dot (p +:+ "." +:+ b +:+ "." +:+ e) = split_dot p ++ [b; e])
    as Hpbe.
  { change ("." +:+ b +:+ "." +:+ e) with (String "." (b +:+ "." +:+ e)).
    by rewrite split_dot_app_dot, Hbe. }
  destruct (suggest_new_fname_pieces fs _ b e _ Hbe)
    as (n & Hn & E1 & Hfree & Hbelow).
  destruct (suggest_new_fname_pieces fs _ b e _ Hpbe)
    as (m & Hm & E2 & Hfree' & Hbelow').
  assert (m = n) as ->.
  { destruct (Z.lt_trichotomy m n) as [Hlt | [-> | Hgt]]; [|done|].
    - rewrite Hbelow in Hfree' by lia. done.
    - rewrite Hbelow' in Hfree by lia. done. }
  split; [|split].
  - unfold _suggest_new_fname, list_item_neg.
    by rewrite split_dot_no_dot.
  - by rewrite E1, E2.
  - exists n. split; [done|]. rewrite E2. unfold candidate.
    by rewrite !append_assoc.
Qed.

Lemma suggest_new_fname_dots_witness :
  _suggest_new_fname no_files ("/data/run" +:+ "." +:+ "1/out" +:+ "." +:+ "tiff")
  = _suggest_new_fname no_files ("1/out" +:+ "." +:+ "tiff").
Proof.
  destruct (suggest_new_fname_dots no_files "/data/run" "1/out" "tiff")
    as (_ & H & _); [reflexivity | reflexivity | exact H].
Defined.


(** ** More on [_slice_array] *)

Lemma flat_map_length_const {A B} (f : A -> list B) (l : list A) (c : nat) :
  (forall x, (x ∈ l) -> length (f x) = c) ->
  length (flat_map f l) = (length l * c)%nat.
Proof.
  induction l as [|x xs IH]; intros H; simpl; [done|].
  rewrite length_app, IH, H; [done | apply list_elem_of_here |].
  intros y Hy. by apply H, list_elem_of_further.
Qed.

Lemma take_slices_length (shape : list nat) (sl : list pyslice)
    (elems : list fval) :
  length elems = prod_shape shape ->
  length (take_slices shape sl elems) = prod_shape (sliced_shape shape sl).
Proof.
  revert sl elems. induction shape as [|n shape IH]; intros sl elems Hl.
  { by destruct sl. }
  destruct sl as [|s sl]; [done|]. simpl in *.
  rewrite (flat_map_length_const _ _ (prod_shape (sliced_shape shape sl))).
  - by rewrite length_seq.
  - intros i Hi%elem_of_seq. apply IH.
    rewrite length_take, length_drop. nia.
Qed.

Lemma sliced_shape_le (shape : list nat) (sl : list pyslice) :
  Forall2 le (sliced_shape shape sl) shape.
Proof.
  revert sl. induction shape as [|n shape IH]; intros sl.
  { destruct sl; constructor. }
  destruct sl as [|s sl]; simpl.
  - apply Forall2_same_length_lookup_2; [done|].
    intros i x y Hx Hy. assert (x = y) by congruence. lia.
  - constructor; [lia | apply IH].
Qed.

(** X15: slicing keeps an array well formed.  For a well-shaped array
    of rank 1 or more and any slice arguments, [_slice_array] returns
    an array of the same dtype and rank, no axis of which is longer
    than before, and whose number of elements is the product of its
    shape. *)
Theorem slice_array_well_shaped (arr : ndarray)
    (dim1 dim2 dim3 dim4 : option pyslice) :
  nd_shape arr <> [] -> well_shaped arr ->
  exists out,
    _slice_array arr dim1 dim2 dim3 dim4 = Ok out /\
    well_shaped out /\
    nd_dtype out = nd_dtype arr /\
    Forall2 le (nd_shape out) (nd_shape arr).
Proof.
  intros Hne Hw. unfold _slice_array, well_shaped in *.
  assert (forall sl,
            well_shaped (getitem_slices arr sl) /\
            nd_dtype (getitem_slices arr sl) = nd_dtype arr /\
            Forall2 le (nd_shape (getitem_slices arr sl)) (nd_shape arr))
    as Hget.
  { intros sl. unfold well_shaped, getitem_slices. simpl.
    split; [by apply take_slices_length|]. split; [done|].
    apply sliced_shape_le. }
  destruct (nd_shape arr) as [|n1 [|n2 [|n3 [|n4 [|n5 rest]]]]] eqn:Hs;
    [done|..]; try (eexists; split; [done|]; apply Hget).
  exists arr. rewrite Hs. repeat split; auto.
  apply Forall2_same_length_lookup_2; [done|].
  intros i x y Hx Hy. assert (x = y) by congruence. lia.
Qed.

Lemma slice_array_well_shaped_witness :
  exists out,
    _slice_array small_volume (Some (Slice 1 9)) None (Some (Slice 0 1)) None
      = Ok out /\
    well_shaped out /\
    nd_dtype out = float32 /\
    Forall2 le (nd_shape out) [2; 1; 2]%nat.
Proof.
  apply (slice_array_well_shaped small_volume); [discriminate | reflexivity].
Defined.

(** X16: what is not sliced.  Without slice arguments every
    well-shaped array of rank 1 or more is returned as it is; for an
    array of rank 5 or more the slice arguments are ignored; a 0-d
    array raises [IndexError]. *)
Theorem slice_array_unsliced (arr : ndarray)
    (dim1 dim2 dim3 dim4 : option pyslice) :
  (nd_shape arr <> [] -> well_shaped arr ->
     _slice_array arr None None None None = Ok arr) /\
  ((5 <= length (nd_shape arr))%nat ->
     _slice_array arr dim1 dim2 dim3 dim4 = Ok arr) /\
  (nd_shape arr = [] ->
     _slice_array arr dim1 dim2 dim3 dim4 = Raise IndexError).
Proof.
  split; [|split].
  - intros Hne Hw. unfold _slice_array, well_shaped in *.
    assert (getitem_slices arr (map (Slice 0) (nd_shape arr)) = arr) as Hfull.
    { unfold getitem_slices.
      rewrite sliced_shape_full, take_slices_full by done. by destruct arr. }
    destruct (nd_shape arr) as [|n1 [|n2 [|n3 [|n4 [|n5 rest]]]]] eqn:Hs;
      [done|..]; try (f_equal; exact Hfull).
  - intros Hlen. unfold _slice_array.
    destruct (nd_shape arr) as [|n1 [|n2 [|n3 [|n4 [|n5 rest]]]]];
      simpl in Hlen; try lia. done.
  - intros Hs. unfold _slice_array. by rewrite Hs.
Qed.

Lemma slice_array_unsliced_witness :
  _slice_array small_volume None None None None = Ok small_volume.
Proof.
  destruct (slice_array_unsliced small_volume None None None None)
    as [H _]. apply H; [discriminate | reflexivity].
Defined.

(** A run of chunks is a block of the list. *)
Lemma chunks_block {A} (k lo cnt : nat) (l : list A) :
  ((lo + cnt) * k <= length l)%nat ->
  flat_map (fun i => take k (drop (i * k) l)) (seq lo cnt)
  = take (cnt * k) (drop (lo * k) l).
Proof.
  intros Hlen.
  rewrite <- (chunks_concat k cnt (take (cnt * k) (drop (lo * k) l)))
    by (rewrite length_take, length_drop; nia).
  assert (seq lo cnt = map (Nat.add lo) (seq 0 cnt)) as ->.
  { symmetry. etrans; [apply (fmap_add_seq lo 0 cnt)|].
    by rewrite Nat.add_0_r. }
  rewrite flat_map_concat_map, map_map, <- flat_map_concat_map.
  apply flat_map_ext_in. intros i Hi%elem_of_seq.
  rewrite skipn_firstn_comm, drop_drop, take_take.
  f_equal; [nia | f_equal; nia].
Qed.

Lemma take_slices_cons (n : nat) (shape : list nat) (s : pyslice)
    (sl : list pyslice) (elems : list fval) :
  take_slices (n :: shape) (s :: sl) elems
  = flat_map (fun i => take_slices shape sl
                         (take (prod_shape shape)
                               (drop (i * prod_shape shape) elems)))
             (seq (Nat.min (sl_start s) n)
                  (Nat.min (sl_stop s) n - Nat.min (sl_start s) n)).
Proof. reflexivity. Qed.

(** A slice of the first axis of a 3-D array is a block of planes. *)
Lemma slice_first_axis (arr : ndarray) (n1 n2 n3 a b : nat) :
  nd_shape arr = [n1; n2; n3] -> well_shaped arr ->
  (a <= b)%nat -> (b <= n1)%nat ->
  _slice_array arr (Some (Slice a b)) None None None
  = Ok (NdArray (nd_dtype arr) [(b - a)%nat; n2; n3]
          (take ((b - a) * (n2 * n3))
                (drop (a * (n2 * n3)) (nd_elems arr)))).
Proof.
  intros Hs Hw Hab Hb. unfold _slice_array, well_shaped in *.
  rewrite Hs in *. unfold getitem_slices, default_slice. rewrite Hs.
  simpl in Hw. rewrite Nat.mul_1_r in Hw.
  change [Slice a b; Slice 0 n2; Slice 0 n3]
    with (Slice a b :: map (Slice 0) [n2; n3]).
  rewrite take_slices_cons.
  cbn [sliced_shape map sl_start sl_stop].
  rewrite !Nat.min_id, !Nat.sub_0_r.
  rewrite (Nat.min_l a n1), (Nat.min_l b n1) by lia.
  assert (prod_shape [n2; n3] = (n2 * n3)%nat) as Hp by (simpl; lia).
  rewrite Hp. do 2 f_equal.
  rewrite <- (chunks_block (n2 * n3) a (b - a)) by nia.
  apply flat_map_ext_in. intros i Hi%elem_of_seq.
  apply (take_slices_full [n2; n3]). rewrite Hp.
  rewrite length_take, length_drop. nia.
Qed.

(** X17: a slice of the first axis of a 3-D array is a block of
    planes.  For a well-shaped array of shape [(n1, n2, n3)] and
    [a <= b <= n1], [arr[a:b]] has shape [(b - a, n2, n3)] and holds
    the elements of the planes [a] to [b - 1], in their order. *)
Theorem slice_array_first_axis (arr : ndarray) (n1 n2 n3 a b : nat) :
  nd_shape arr = [n1; n2; n3] -> well_shaped arr ->
  (a <= b)%nat -> (b <= n1)%nat ->
  _slice_array arr (Some (Slice a b)) None None None
  = Ok (NdArray (nd_dtype arr) [(b - a)%nat; n2; n3]
          (take ((b - a) * (n2 * n3))
                (drop (a * (n2 * n3)) (nd_elems arr)))).
Proof. apply slice_first_axis. Qed.

Lemma slice_array_first_axis_witness :
  _slice_array small_volume (Some (Slice 1 2)) None None None
  = Ok (NdArray float32 [1; 1; 2]%nat (reals [1; 3]%Q)).
Proof.
  rewrite (slice_array_first_axis small_volume 2 1 2 1 2);
    [reflexivity | reflexivity | reflexivity | lia | lia].
Defined.


(** ** More on the HDF5 writer and reader *)

(** X18: a partial read.  When [write_hdf5] of a well-shaped 3-D
    volume with the default group has succeeded, [read_hdf5] of the
    written file at "exchange/data" with a slice [a:b] of the first
    axis ([a <= b <= n1]) returns the planes [a] to [b - 1] of the
    volume. *)
Theorem hdf5_partial_read `{OsPath} (fs fs' : filesystem) (data : ndarray)
    (fname w : string) (overwrite : bool) (n1 n2 n3 a b : nat) :
  nd_shape data = [n1; n2; n3] -> well_shaped data ->
  (a <= b)%nat -> (b <= n1)%nat ->
  hdf5_target fs fname overwrite = Ok w ->
  write_hdf5 data fname "exchange" overwrite fs = (Ok tt, fs') ->
  forall r, abspath r = w ->
    read_hdf5 fs' r "exchange/data" (Some (Slice a b)) None None None
    = Ok (NdArray (nd_dtype data) [(b - a)%nat; n2; n3]
            (take ((b - a) * (n2 * n3))
                  (drop (a * (n2 * n3)) (nd_elems data)))).
Proof.
  intros Hs Hw Hab Hb Ht Hwr r <-.
  rewrite (write_hdf5_eval fs data fname _ overwrite Ht) in Hwr.
  injection Hwr as <-.
  unfold read_hdf5. rewrite write_file_lookup.
  cbn [mbind result_bind]. rewrite h5_getitem_data.
  cbn [mbind result_bind].
  by apply (slice_first_axis data n1 n2 n3 a b).
Qed.

Lemma hdf5_partial_read_witness :
  @read_hdf5 cwd_paths
     (snd (write_hdf5 small_volume "/tmp/vol" "exchange" false no_files))
     "/tmp/vol.h5" "exchange/data" (Some (Slice 1 2)) None None None
  = Ok (NdArray float32 [1; 1; 2]%nat (reals [1; 3]%Q)).
Proof.
  rewrite (@hdf5_partial_read cwd_paths no_files
             (snd (write_hdf5 small_volume "/tmp/vol" "exchange" false
                     no_files))
             small_volume "/tmp/vol" "/tmp/vol.h5" false 2 1 2 1 2);
    [reflexivity | reflexivity | reflexivity | lia | lia | reflexivity
    | reflexivity | reflexivity].
Defined.

(** The objects of a file laid out by [write_hdf5]: the root group,
    the group, and nothing under a path the writer did not create. *)
Lemma h5_getitem_group (data : ndarray) (gname : string) :
  h5_path gname = "" \/ h5_path gname = "exchange" ->
  h5_getitem (exchange_layout data "exchange") gname = Ok H5Group.
Proof.
  unfold h5_getitem, exchange_layout. intros [-> | ->]; [done|].
  change ("exchange" +:+ "/" +:+ "data") with "exchange/data".
  simpl. rewrite lookup_insert_ne by done. by rewrite lookup_insert_eq.
Qed.

Lemma h5_getitem_missing (data : ndarray) (gname : string) :
  h5_path gname <> "" -> h5_path gname <> "implements" ->
  h5_path gname <> "exchange" -> h5_path gname <> "exchange/data" ->
  h5_getitem (exchange_layout data "exchange") gname = Raise KeyError.
Proof.
  unfold h5_getitem, exchange_layout. intros H0 H1 H2 H3.
  change ("exchange" +:+ "/" +:+ "data") with "exchange/data".
  apply String.eqb_neq in H0. rewrite H0.
  rewrite !lookup_insert_ne by done. by rewrite lookup_empty.
Qed.

(** X19: what the reader raises.  A name under which there is no file
    raises [IOError].  In a file [write_hdf5] has written with the
    default group, a non-empty path that resolves to the root group
    (as "/") or to the group "exchange" (as "exchange" or
    "/exchange/") raises [AttributeError], a group having no shape, and
    a path that resolves to none of the objects the writer created
    raises [KeyError]. *)
Theorem read_hdf5_errors `{OsPath} (fs fs' : filesystem) (data : ndarray)
    (fname r gname : string) (overwrite : bool)
    (dim1 dim2 dim3 dim4 : option pyslice) :
  (fs_files fs !! abspath r = None ->
     read_hdf5 fs r gname dim1 dim2 dim3 dim4 = Raise IOError) /\
  (hdf5_target fs fname overwrite = Ok (abspath r) ->
   write_hdf5 data fname "exchange" overwrite fs = (Ok tt, fs') ->
   gname <> "" ->
     (h5_path gname = "" \/ h5_path gname = "exchange" ->
      read_hdf5 fs' r gname dim1 dim2 dim3 dim4 = Raise AttributeError) /\
     (h5_path gname <> "" -> h5_path gname <> "implements" ->
      h5_path gname <> "exchange" -> h5_path gname <> "exchange/data" ->
      read_hdf5 fs' r gname dim1 dim2 dim3 dim4 = Raise KeyError)).
Proof.
  split.
  - intros Hnone. unfold read_hdf5. by rewrite Hnone.
  - intros Ht Hwr _.
    rewrite (write_hdf5_eval fs data fname _ overwrite Ht) in Hwr.
    injection Hwr as <-.
    unfold read_hdf5. rewrite write_file_lookup. cbn [mbind result_bind].
    split.
    + intros Hp. by rewrite h5_getitem_group.
    + intros H0 H1 H2 H3. by rewrite h5_getitem_missing.
Qed.

Lemma read_hdf5_errors_witness :
  @read_hdf5 cwd_paths no_files "/tmp/vol.h5" "exchange/data"
             None None None None = Raise IOError /\
  @read_hdf5 cwd_paths
     (snd (write_hdf5 small_volume "/tmp/vol" "exchange" false no_files))
     "/tmp/vol.h5" "/exchange/" None None None None = Raise AttributeError /\
  @read_hdf5 cwd_paths
     (snd (write_hdf5 small_volume "/tmp/vol" "exchange" false no_files))
     "/tmp/vol.h5" "exchange/dat" None None None None = Raise KeyError.
Proof.
  split; [|split].
  - destruct (@read_hdf5_errors cwd_paths no_files no_files small_volume
                "/tmp/vol" "/tmp/vol.h5" "exchange/data" false
                None None None None) as [H _]. by apply H.
  - destruct (@read_hdf5_errors cwd_paths no_files
                (snd (write_hdf5 small_volume "/tmp/vol" "exchange" false
                        no_files))
                small_volume "/tmp/vol" "/tmp/vol.h5" "/exchange/" false
                None None None None) as [_ H].
    destruct H as [H _]; [reflexivity | reflexivity | discriminate |].
    apply H. by right.
  - destruct (@read_hdf5_errors cwd_paths no_files
                (snd (write_hdf5 small_volume "/tmp/vol" "exchange" false
                        no_files))
                small_volume "/tmp/vol" "/tmp/vol.h5" "exchange/dat" false
                None None None None) as [_ H].
    destruct H as [_ H]; [reflexivity | reflexivity | discriminate |].
    apply H; discriminate.
Defined.

Lemma hdf5_target_fresh (fs : filesystem) (fname w : string) :
  hdf5_target fs fname false = Ok w -> isfile fs w = false.
Proof.
  unfold hdf5_target. simpl.
  destruct (isfile fs (fname +:+ ".h5")) eqn:E; [|by intros [= <-]].
  intros Hw.
  destruct (suggest_new_fname_not_file fs (fname +:+ ".h5")) as (new & Hn & Hf).
  { pose proof (split_dot_length_app fname ".h5").
    pose proof (split_dot_nonempty "h5").
    change (split_dot ".h5") with ("" :: split_dot "h5") in *.
    simpl in *. lia. }
  rewrite Hn in Hw. by injection Hw as <-.
Qed.

Lemma h5_create_cases (fs : filesystem) (w name : string) (o : h5obj)
    (objs : gmap string h5obj) :
  h5_create w name o (write_file fs w (Hdf5File objs))
    = (Raise ValueError, write_file fs w (Hdf5File objs))
  \/ h5_create w name o (write_file fs w (Hdf5File objs))
    = (Ok tt, write_file fs w (Hdf5File (<[name := o]> objs))).
Proof.
  destruct (objs !! name) eqn:E.
  - left. unfold h5_create. msimpl. by rewrite lookup_insert_eq, E.
  - right. by apply h5_create_new.
Qed.

(** Whatever the group name and the outcome, the writer changes the
    file system at its target only. *)
Lemma write_hdf5_at_target (fs : filesystem) (data : ndarray)
    (fname gname w : string) (overwrite : bool) :
  hdf5_target fs fname overwrite = Ok w ->
  exists r objs,
    write_hdf5 data fname gname overwrite fs
    = (r, write_file fs w (Hdf5File objs)).
Proof.
  unfold hdf5_target. intros Hw. unfold write_hdf5.
  unfold mbind at 1, M_bind. unfold get at 1.
  unfold mbind at 1, M_bind. unfold lift at 1. rewrite Hw.
  unfold mbind at 1, M_bind. unfold h5_create_file. msimpl.
  fold (write_file fs w (Hdf5File ∅)).
  destruct (h5_create_cases fs w "implements" (H5String "exchange") ∅)
    as [-> | ->]; [by eexists _, _|].
  destruct (h5_create_cases fs w gname H5Group
              (<["implements" := H5String "exchange"]> ∅))
    as [-> | ->]; [by eexists _, _|].
  destruct (h5_create_cases fs w (gname +:+ "/" +:+ "data") (H5Dataset data)
              (<[gname := H5Group]>
                 (<["implements" := H5String "exchange"]> ∅)))
    as [-> | ->]; by eexists _, _.
Qed.

(** X20: with overwrite unset [write_hdf5] never touches a file that
    exists: whatever the group name and whatever the outcome of the
    call, every file there was is there after the call with the same
    content, and no folder is added or removed. *)
Theorem write_hdf5_keeps_files (fs : filesystem) (data : ndarray)
    (fname gname p : string) (f : file) :
  fs_files fs !! p = Some f ->
  fs_files (snd (write_hdf5 data fname gname false fs)) !! p = Some f /\
  fs_dirs (snd (write_hdf5 data fname gname false fs)) = fs_dirs fs.
Proof.
  intros Hp.
  destruct (hdf5_target_returns fs fname false) as [w Hw].
  destruct (write_hdf5_at_target fs data fname gname w false Hw)
    as (r & objs & ->).
  simpl. split; [|done].
  rewrite lookup_insert_ne; [done|].
  intros ->. apply hdf5_target_fresh in Hw.
  unfold isfile in Hw. apply bool_decide_eq_false in Hw.
  apply Hw. by rewrite Hp.
Qed.

Lemma write_hdf5_keeps_files_witness :
  fs_files (snd (write_hdf5 small_volume "out" "exchange" false two_outs))
    !! "out.h5" = Some (Hdf5File ∅).
Proof.
  destruct (write_hdf5_keeps_files two_outs small_volume "out" "exchange"
              "out.h5" (Hdf5File ∅)) as [H _]; [reflexivity | exact H].
Defined.

(** X21: the marker occupies the name "implements".  With that group
    name [write_hdf5] raises [ValueError] when it creates the group,
    and the target is left holding the marker alone: no group, no
    data. *)
Theorem write_hdf5_group_implements (fs : filesystem) (data : ndarray)
    (fname w : string) (overwrite : bool) :
  hdf5_target fs fname overwrite = Ok w ->
  write_hdf5 data fname "implements" overwrite fs
  = (Raise ValueError,
     write_file fs w
       (Hdf5File (<["implements" := H5String "exchange"]> ∅))).
Proof.
  unfold hdf5_target. intros Hw. unfold write_hdf5.
  unfold mbind at 1, M_bind. unfold get at 1.
  unfold mbind at 1, M_bind. unfold lift at 1. rewrite Hw.
  unfold mbind at 1, M_bind. unfold h5_create_file. msimpl.
  fold (write_file fs w (Hdf5File ∅)).
  rewrite h5_create_new by done.
  unfold h5_create. msimpl. rewrite lookup_insert_eq.
  by rewrite lookup_insert_eq.
Qed.

Lemma write_hdf5_group_implements_witness :
  write_hdf5 small_volume "out" "implements" false no_files
  = (Raise ValueError,
     write_file no_files "out.h5"
       (Hdf5File (<["implements" := H5String "exchange"]> ∅))).
Proof. apply write_hdf5_group_implements. reflexivity. Defined.

(** ** More on the TIFF writer *)

Lemma suggest_new_fname_ok_fresh (fs : filesystem) (fname new : string) :
  _suggest_new_fname fs fname = Ok new -> isfile fs new = false.
Proof.
  unfold _suggest_new_fname.
  destruct (list_item_neg (split_dot fname) 1) as [e| |]; [|done|done].
  destruct (list_item_neg (split_dot fname) 2) as [b| |]; [|done|done].
  cbn -[suggest_loop].
  destruct (suggest_loop_returns fs b ("." +:+ e)) as (n & _ & -> & Hfree & _).
  cbn. by intros [= <-].
Qed.

Lemma for_each_preserves {A} (P : wstate -> Prop) (l : list A)
    (body : A -> M wstate unit) (s : wstate) :
  (forall x s', P s' -> P (snd (body x s'))) ->
  P s -> P (snd (for_each l body s)).
Proof.
  intros Hb. revert s. induction l as [|x xs IH]; intros s Hs; simpl; [done|].
  rewrite M_bind_eq. specialize (Hb x s Hs).
  destruct (body x s) as [[[]| |] s']; simpl in *; auto.
Qed.

Lemma write_tiff_body_keeps (fname ext : string) (axis id digit : Z)
    (dtype : string) (dmin dmax : scalar) (m : Z) (s : wstate)
    (p : string) (f : file) :
  fs_files (w_fs s) !! p = Some f ->
  fs_files (w_fs (snd (write_tiff_body fname ext axis id digit false dtype
                         dmin dmax m s))) !! p = Some f.
Proof.
  intros Hp. unfold write_tiff_body. msimpl.
  destruct (_add_index_to_string _ _ _) as [[nm|]| |]; simpl; try done.
  destruct (isfile _ _) eqn:Efile.
  - destruct (_suggest_new_fname _ _) as [new| |] eqn:Enew;
      simpl; try done.
    apply suggest_new_fname_ok_fresh in Enew.
    destruct (plane _ _ _); simpl; try done.
    destruct (convert_plane _ _ _ _) as [arr| |]; simpl; try done.
    unfold imsave. destruct (nd_shape arr) as [|h [|w [|]]]; simpl; try done.
    rewrite lookup_insert_ne; [done|]. intros ->.
    unfold isfile in Enew. apply bool_decide_eq_false in Enew.
    apply Enew. by rewrite Hp.
  - simpl.
    destruct (plane _ _ _); simpl; try done.
    destruct (convert_plane _ _ _ _) as [arr| |]; simpl; try done.
    unfold imsave. destruct (nd_shape arr) as [|h [|w [|]]]; simpl; try done.
    rewrite lookup_insert_ne; [done|]. intros E.
    unfold isfile in Efile. apply bool_decide_eq_false in Efile.
    apply Efile. by rewrite E, Hp.
Qed.

Lemma export_planes_keeps (fname ext dir_path : string) (axis id digit : Z)
    (dtype : string) (dmin dmax : scalar) (s : wstate) (p : string) (f : file) :
  fs_files (w_fs s) !! p = Some f ->
  fs_files (w_fs (snd (export_planes fname ext dir_path axis id digit false
                         dtype dmin dmax s))) !! p = Some f.
Proof.
  intros Hp. unfold export_planes. rewrite M_bind_eq. unfold get_fs at 1.
  rewrite M_bind_eq.
  set (s1 := snd ((if negb (path_exists (w_fs s) dir_path)
                   then set_fs (makedirs (w_fs s) dir_path)
                   else mret tt) s)).
  assert (fs_files (w_fs s1) !! p = Some f) as Hs1.
  { subst s1. by destruct (negb _). }
  assert ((if negb (path_exists (w_fs s) dir_path)
           then set_fs (makedirs (w_fs s) dir_path)
           else mret tt) s = (Ok tt, s1)) as ->.
  { subst s1. by destruct (negb _). }
  revert Hs1. generalize s1. clear. intros s Hp.
  msimpl. destruct (nd_shape (w_data s)) as [|nx [|ny [|nz [|]]]]; try done.
  simpl.
  assert (forall l,
            fs_files (w_fs (snd (for_each l
              (write_tiff_body fname ext axis id digit false dtype dmin dmax)
              s))) !! p = Some f) as Hloop.
  { intros l.
    apply (for_each_preserves
             (fun s' => fs_files (w_fs s') !! p = Some f)); [|done].
    intros x s' Hs'. by apply write_tiff_body_keeps. }
  destruct (axis =? 0); simpl; [apply Hloop|].
  destruct (axis =? 1); simpl; [apply Hloop|].
  destruct (axis =? 2); simpl; [apply Hloop|]. done.
Qed.

Lemma clip_in_place_fs (dmin dmax : option Q) (s : wstate) :
  w_fs (snd (clip_in_place dmin dmax s)) = w_fs s.
Proof. apply clip_in_place_frame. Qed.

(** X22: with overwrite unset [write_tiff_stack] never touches a file
    that exists: whatever the axis, the dtype, the bounds and the
    outcome of the call, every file there was is there after the call
    with the same content. *)
Theorem write_tiff_stack_keeps_files `{OsPath} (s : wstate)
    (fname : string) (axis id digit : Z) (dtype : string)
    (dmin dmax : option Q) (p : string) (f : file) :
  fs_files (w_fs s) !! p = Some f ->
  fs_files (w_fs (snd (write_tiff_stack fname axis id digit false dtype
                         dmin dmax s))) !! p = Some f.
Proof.
  intros Hp. unfold write_tiff_stack. rewrite M_bind_eq.
  pose proof (clip_in_place_fs dmin dmax s) as Hfs.
  destruct (clip_in_place dmin dmax s) as [[[lo hi]| |] s1]; simpl in *.
  - apply export_planes_keeps. by rewrite Hfs.
  - by rewrite Hfs.
  - by rewrite Hfs.
Qed.

Lemma write_tiff_stack_keeps_files_witness :
  fs_files (w_fs (snd (@write_tiff_stack cwd_paths "rec" 0 0 5 false "uint8"
                         None None (WState small_volume one_plane_taken))))
    !! "/cwd/rec_00000.tiff" = Some (Hdf5File ∅).
Proof.
  apply (@write_tiff_stack_keeps_files cwd_paths). reflexivity.
Defined.

(** X23: an empty array is refused before anything happens:
    [write_tiff_stack] raises [ValueError], and neither the array nor
    the file system has changed. *)
Theorem write_tiff_stack_empty `{OsPath} (s : wstate) (fname : string)
    (axis id digit : Z) (overwrite : bool) (dtype : string)
    (dmin dmax : option Q) :
  nd_elems (w_data s) = [] ->
  write_tiff_stack fname axis id digit overwrite dtype dmin dmax s
  = (Raise ValueError, s).
Proof.
  intros He. unfold write_tiff_stack. rewrite M_bind_eq.
  by rewrite clip_in_place_empty.
Qed.

Lemma write_tiff_stack_empty_witness :
  @write_tiff_stack cwd_paths "rec" 0 0 5 false "uint8" None None
    (WState (NdArray float32 [0; 2; 2]%nat []) no_files)
  = (Raise ValueError, WState (NdArray float32 [0; 2; 2]%nat []) no_files).
Proof. by apply (@write_tiff_stack_empty cwd_paths). Defined.

(** X24: the shape and the axis are looked at after the clipping.  For
    a non-empty array that is not 3-D the call raises [ValueError], and
    for a 3-D array and an axis other than 0, 1, 2 it raises
    [UnboundLocalError], when the clipping has raised nothing (as it
    never does on a non-empty array of a floating type); in both cases
    no file has been written, but the caller's array stands as the
    clipping left it. *)
Theorem write_tiff_stack_bad_shape_or_axis `{OsPath} (data : ndarray)
    (fs : filesystem) (fname : string) (axis id digit : Z)
    (overwrite : bool) (dtype : string) (dmin dmax : option Q)
    (bounds : scalar * scalar) :
  fst (clip_in_place dmin dmax (WState data fs)) = Ok bounds ->
  (length (nd_shape data) <> 3%nat \/ (axis <> 0 /\ axis <> 1 /\ axis <> 2)) ->
  exists fs1,
    write_tiff_stack fname axis id digit overwrite dtype dmin dmax
                     (WState data fs)
    = (Raise (if decide (length (nd_shape data) = 3%nat)
              then UnboundLocalError else ValueError),
       WState (w_data (after_clip dmin dmax (WState data fs))) fs1) /\
    fs_files fs1 = fs_files fs.
Proof.
  intros Hclip Hbad.
  exists (if negb (path_exists fs (dirname (abspath fname)))
          then makedirs fs (dirname (abspath fname)) else fs).
  split; [|by destruct (negb _)].
  unfold write_tiff_stack, after_clip. rewrite M_bind_eq.
  destruct (clip_in_place_frame dmin dmax (WState data fs))
    as (Hfs & _ & Hs & _).
  destruct (clip_in_place dmin dmax (WState data fs)) as [r [data' fs0]].
  simpl in Hclip, Hfs, Hs. subst r fs0. rewrite <- Hs in *.
  cbn [fst snd w_data w_fs].
  unfold export_planes. rewrite M_bind_eq. unfold get_fs at 1.
  rewrite M_bind_eq. cbn [w_fs].
  destruct (negb (path_exists fs (dirname (abspath fname)))); msimpl;
    (destruct (nd_shape data') as [|nx [|ny [|nz [|]]]]; simpl in *;
     try done;
     destruct Hbad as [Hbad | (H0 & H1 & H2)]; [done|];
     apply Z.eqb_neq in H0, H1, H2; by rewrite H0, H1, H2).
Qed.

Lemma write_tiff_stack_bad_shape_or_axis_witness :
  exists fs1,
    @write_tiff_stack cwd_paths "rec" 0 0 5 false "uint8" None (Some 2%Q)
      (WState ramp no_files)
    = (Raise ValueError,
       WState (NdArray float64 [3%nat] (reals [0; 2; 2]%Q)) fs1) /\
    fs_files fs1 = fs_files no_files.
Proof.
  destruct (@write_tiff_stack_bad_shape_or_axis cwd_paths ramp no_files
              "rec" 0 0 5 false "uint8" None (Some 2%Q)
              (Scalar float64 (FNum 0), py_float 2))
    as (fs1 & H1 & H2); [reflexivity | left; discriminate |].
  by exists fs1.
Defined.

(** ** More on the TIFF stack: partial output and the reader's errors *)

Lemma for_each_app {St A} (l1 l2 : list A) (body : A -> M St unit) (s : St) :
  for_each (l1 ++ l2) body s
  = match for_each l1 body s with
    | (Ok _, s') => for_each l2 body s'
    | (Raise e, s') => (Raise e, s')
    | (NoReturn, s') => (NoReturn, s')
    end.
Proof.
  revert s. induction l1 as [|x l1 IH]; intros s; simpl; [done|].
  rewrite !M_bind_eq. destruct (body x s) as [[[]| |] s']; done.
Qed.

Section StackWith.
Variables (fname : string) (id digit : Z) (img : Z -> image).
Hypothesis Hdigit : 1 <= digit <= 18.
Hypothesis Hid : 0 <= id.

Lemma saved_with_lookup_other (fs : filesystem) (ms : list Z) (p : string) :
  (forall m, (m ∈ ms) -> stack_name fname digit (id + m) +:+ ".tiff" <> p) ->
  fs_files (saved_with fname id digit img fs ms) !! p = fs_files fs !! p.
Proof.
  revert fs. induction ms as [|m ms IH]; intros fs Hp; [done|].
  unfold saved_with in *. simpl. rewrite IH.
  - apply write_file_lookup_ne, Hp, list_elem_of_here.
  - intros m' Hm'. by apply Hp, list_elem_of_further.
Qed.

Lemma saved_with_lookup (fs : filesystem) (ms : list Z) (m : Z) :
  NoDup ms ->
  (forall m', (m' ∈ ms) -> 0 <= m' /\ id + m' < 10 ^ digit) -> (m ∈ ms) ->
  fs_files (saved_with fname id digit img fs ms)
    !! (stack_name fname digit (id + m) +:+ ".tiff")
  = Some (TiffFile (img m)).
Proof.
  revert fs. induction ms as [|m0 ms IH]; intros fs Hnd Hrange Hm.
  { by apply elem_of_nil in Hm. }
  apply NoDup_cons in Hnd as [Hm0 Hnd].
  unfold saved_with in *. simpl.
  destruct (decide (m ∈ ms)) as [Hin|Hout].
  - apply IH; auto. intros m' Hm'. by apply Hrange, list_elem_of_further.
  - apply elem_of_cons in Hm as [->|Hm]; [|done].
    fold (saved_with fname id digit img
            (write_file fs (stack_name fname digit (id + m0) +:+ ".tiff")
               (TiffFile (img m0))) ms).
    rewrite saved_with_lookup_other; [apply write_file_lookup|].
    intros m' Hm' E.
    pose proof (Hrange m' (list_elem_of_further _ _ _ Hm')).
    pose proof (Hrange m0 (list_elem_of_here _ _)).
    apply stack_name_inj in E; try lia.
    assert (m' = m0) as -> by lia. done.
Qed.

(** A loop whose rounds each save one image under the writer's name
    saves them all. *)
Lemma for_each_saves_with (body : Z -> M wstate unit) (overwrite : bool)
    (data : ndarray) (ms : list Z) (fs : filesystem) :
  NoDup ms ->
  (forall m, (m ∈ ms) -> 0 <= m /\ id + m < 10 ^ digit) ->
  (forall m fs0, (m ∈ ms) ->
     (overwrite = true
      \/ isfile fs0 (stack_name fname digit (id + m) +:+ ".tiff") = false) ->
     body m (WState data fs0)
     = (Ok tt, WState data
                 (write_file fs0 (stack_name fname digit (id + m) +:+ ".tiff")
                             (TiffFile (img m))))) ->
  (overwrite = true
   \/ forall m, (m ∈ ms) ->
        isfile fs (stack_name fname digit (id + m) +:+ ".tiff") = false) ->
  for_each ms body (WState data fs)
  = (Ok tt, WState data (saved_with fname id digit img fs ms)).
Proof.
  revert fs. induction ms as [|m ms IH]; intros fs Hnd Hrange Hbody How;
    [done|].
  apply NoDup_cons in Hnd as [Hm Hnd].
  pose proof (Hrange m (list_elem_of_here _ _)) as Hm0.
  simpl. rewrite M_bind_eq.
  rewrite (Hbody m fs (list_elem_of_here _ _)).
  - unfold saved_with. simpl. apply IH; auto.
    + intros m' Hm'. by apply Hrange, list_elem_of_further.
    + intros m' fs0 Hm'. by apply Hbody, list_elem_of_further.
    + destruct How as [->|How]; [by left | right].
      intros m' Hm'. unfold isfile. rewrite write_file_lookup_ne.
      * by apply How, list_elem_of_further.
      * intros E.
        pose proof (Hrange m' (list_elem_of_further _ _ _ Hm')).
        apply stack_name_inj in E; try lia.
        assert (m = m') as -> by lia. done.
  - destruct How as [->|How]; [by left | right].
    apply How, list_elem_of_here.
Qed.
End StackWith.

(** The export along axis 0, up to its loop. *)
Lemma export_planes_axis0 (fname ext dir_path : string) (id digit : Z)
    (overwrite : bool) (dtype : string) (lo hi : scalar) (data : ndarray)
    (fs : filesystem) (nx ny nz : nat) :
  nd_shape data = [nx; ny; nz] ->
  export_planes fname ext dir_path 0 id digit overwrite dtype lo hi
                (WState data fs)
  = for_each (range (Z.of_nat nx))
             (write_tiff_body fname ext 0 id digit overwrite dtype lo hi)
             (WState data (if negb (path_exists fs dir_path)
                           then makedirs fs dir_path else fs)).
Proof.
  intros Hs.
  unfold export_planes. rewrite M_bind_eq. unfold get_fs at 1.
  rewrite M_bind_eq. cbn [w_fs].
  set (fs1 := if negb (path_exists fs dir_path) then makedirs fs dir_path
              else fs).
  assert ((if negb (path_exists fs dir_path)
           then set_fs (makedirs fs dir_path) else mret tt) (WState data fs)
          = (Ok tt, WState data fs1)) as ->.
  { subst fs1. by destruct (negb _). }
  msimpl. rewrite Hs. simpl.
  by replace (id + Z.of_nat nx - id) with (Z.of_nat nx) by lia.
Qed.

(** A round whose index has more digits than [digit] raises and leaves
    the state alone. *)
Lemma write_tiff_body_overflow (fname ext : string) (axis id digit : Z)
    (overwrite : bool) (dtype : string) (lo hi : scalar) (m : Z) (s : wstate) :
  10 ^ digit <= id + m ->
  write_tiff_body fname ext axis id digit overwrite dtype lo hi m s
  = (Raise TypeError, s).
Proof.
  intros Hm. unfold write_tiff_body. msimpl.
  by rewrite add_index_overflow.
Qed.

(** X25: when the index runs past the digit width in the middle of a
    stack (a non-empty float32 volume, dtype 'float32', axis 0,
    [id <= 10^digit < id + nx]), the writer raises [TypeError] only
    after it has clipped the caller's array and saved every plane whose
    index still fits: these planes, as the clipping left them, are on
    disk under their names, and every other name holds what it held. *)
Theorem write_tiff_stack_index_overflow `{OsPath} (data : ndarray)
    (fs : filesystem) (fname : string) (id digit : Z) (overwrite : bool)
    (dmin dmax : option Q) (nx ny nz : nat) :
  nd_dtype data = float32 ->
  nd_shape data = [nx; ny; nz] ->
  nd_elems data <> [] ->
  1 <= digit <= 18 -> 0 <= id <= 10 ^ digit ->
  10 ^ digit < id + Z.of_nat nx ->
  (overwrite = true
   \/ forall m, 0 <= m < 10 ^ digit - id ->
        isfile fs (stack_name (abspath fname) digit (id + m) +:+ ".tiff")
        = false) ->
  exists fs',
    write_tiff_stack fname 0 id digit overwrite "float32" dmin dmax
                     (WState data fs)
    = (Raise TypeError,
       WState (w_data (after_clip dmin dmax (WState data fs))) fs') /\
    (forall m, 0 <= m < 10 ^ digit - id ->
       fs_files fs' !! (stack_name (abspath fname) digit (id + m) +:+ ".tiff")
       = Some (TiffFile
                 (float32_image
                    (w_data (after_clip dmin dmax (WState data fs)))
                    ny nz m))) /\
    (forall p,
       (forall m, 0 <= m < 10 ^ digit - id ->
          stack_name (abspath fname) digit (id + m) +:+ ".tiff" <> p) ->
       fs_files fs' !! p = fs_files fs !! p).
Proof.
  intros Hdt Hs Hne Hd Hid Hover How.
  destruct (clip_in_place_float dmin dmax (WState data fs)) as [b Hb];
    [by simpl; rewrite Hdt | done |].
  destruct (clip_in_place_frame dmin dmax (WState data fs))
    as (Hfs & Hdt' & Hs' & _).
  unfold after_clip.
  destruct (clip_in_place dmin dmax (WState data fs)) as [r [data' fs0]] eqn:Hc.
  simpl in Hb, Hfs, Hdt', Hs'. subst r fs0. cbn [snd w_data].
  rewrite Hdt in Hdt'. rewrite Hs in Hs'.
  set (k := 10 ^ digit - id).
  set (fs1 := if negb (path_exists fs (dirname (abspath fname)))
              then makedirs fs (dirname (abspath fname)) else fs).
  assert (fs_files fs1 = fs_files fs) as Hfs1
    by (subst fs1; by destruct (negb _)).
  assert (forall m, (m ∈ range k) -> 0 <= m /\ id + m < 10 ^ digit) as Hrange.
  { intros m Hm%range_elem. lia. }
  exists (saved_with (abspath fname) id digit (float32_image data' ny nz)
            fs1 (range k)).
  split; [|split].
  - unfold write_tiff_stack. rewrite M_bind_eq, Hc.
    cbn [fst snd w_data w_fs].
    rewrite (export_planes_axis0 _ _ _ _ _ _ _ _ _ data' fs nx ny nz Hs').
    fold fs1. rewrite (range_split (Z.of_nat nx) k) by lia.
    rewrite for_each_app.
    rewrite (for_each_saves_with (abspath fname) id digit
               (float32_image data' ny nz) Hd (proj1 Hid)
               (write_tiff_body (abspath fname) ".tiff" 0 id digit overwrite
                  "float32" (fst b) (snd b)) overwrite data' (range k) fs1).
    + cbn [for_each]. rewrite M_bind_eq.
      rewrite write_tiff_body_overflow; [done | lia].
    + apply range_NoDup.
    + exact Hrange.
    + intros m fs0 Hm%range_elem Hfree.
      apply (write_tiff_body_float32 (abspath fname) id digit overwrite
               (fst b) (snd b) m data' fs0 nx ny nz); auto; lia.
    + destruct How as [->|How]; [by left | right].
      intros m Hm%range_elem. unfold isfile. rewrite Hfs1. by apply How.
  - intros m Hm.
    apply (saved_with_lookup (abspath fname) id digit _ Hd (proj1 Hid));
      auto.
    + apply range_NoDup.
    + unfold range. apply list_elem_of_fmap. exists (Z.to_nat m).
      split; [lia|]. apply elem_of_seq. lia.
  - intros p Hp. rewrite saved_with_lookup_other; [by rewrite Hfs1|].
    intros m Hm%range_elem. by apply Hp.
Qed.

Lemma write_tiff_stack_index_overflow_witness :
  exists fs',
    @write_tiff_stack cwd_paths "rec" 0 9 1 false "float32" None None
                      (WState small_volume no_files)
    = (Raise TypeError, WState small_volume fs') /\
    fs_files fs' !! "/cwd/rec_9.tiff"
    = Some (TiffFile (Image float32 1 2 (reals [0; 1 # 2]%Q))).
Proof.
  destruct (@write_tiff_stack_index_overflow cwd_paths small_volume no_files
              "rec" 9 1 false None None 2 1 2)
    as (fs' & Hw & Hr & _);
    [reflexivity | reflexivity | discriminate | lia | simpl; lia | simpl; lia
    | right; intros m Hm; reflexivity |].
  exists fs'. split; [exact Hw|].
  exact (Hr 0 ltac:(simpl; lia)).
Defined.

(** ** More on the TIFF reader *)

Lemma read_tiff_inner_overflow (fs : filesystem) (fname ext : string)
    (d : list string) (sx : nat) (digit m : Z) (st : rstate) :
  10 ^ digit <= m ->
  read_tiff_inner fs fname ext d sx m (range digit) st = Ok st.
Proof.
  intros Hm. rewrite <- (app_nil_r (range digit)).
  rewrite read_tiff_inner_skip; [done|].
  intros n Hn%range_elem.
  etrans; [apply np_power10_le|]. etrans; [|exact Hm].
  apply Z.pow_le_mono_r; lia.
Qed.

Lemma read_tiff_outer_overflow (fs : filesystem) (fname ext : string)
    (d : list string) (sx : nat) (digit : Z) (ind : list Z) (st : rstate) :
  (forall m, (m ∈ ind) -> 10 ^ digit <= m) ->
  read_tiff_outer fs fname ext d sx digit ind st = Ok st.
Proof.
  induction ind as [|m ind IH]; intros H; simpl; [done|].
  rewrite read_tiff_inner_overflow by apply H, list_elem_of_here.
  simpl. apply IH. intros m' Hm'. by apply H, list_elem_of_further.
Qed.

(** X26: the reader raises [UnboundLocalError], whatever is on disk,
    when it opens no file at all: when the span is empty
    ([stop < start]) or when its first index, and so every index, has
    more digits than [digit].  No empty array and no [IOError] comes
    back in these cases. *)
Theorem read_tiff_stack_nothing_read (fs : filesystem) (fname : string)
    (start stop digit : Z) (ext : string) :
  stop < start \/ 10 ^ digit <= start ->
  read_tiff_stack fs fname (start, stop) digit ext = Raise UnboundLocalError.
Proof.
  intros H. unfold read_tiff_stack. cbn [fst snd].
  rewrite read_tiff_outer_overflow; [done|].
  intros m. unfold np_arange. rewrite list_elem_of_fmap.
  intros (i & -> & Hi%elem_of_seq). lia.
Qed.

Lemma read_tiff_stack_nothing_read_witness :
  read_tiff_stack rec_written.(w_fs) "/cwd/rec_" (100000, 100001) 5 "tiff"
  = Raise UnboundLocalError.
Proof.
  apply read_tiff_stack_nothing_read. right. simpl. lia.
Defined.

(** X27: the first file the reader opens is [fname], the start index
    left-padded with zeros to [digit] characters, a dot and the
    extension, with nothing in between; when there is no file of that
    name the call raises [IOError]. *)
Theorem read_tiff_stack_missing_first (fs : filesystem) (fname : string)
    (start stop digit : Z) (ext : string) :
  1 <= digit <= 18 -> 0 <= start < 10 ^ digit -> start <= stop ->
  fs_files fs !! (fname +:+ zfill (Z.to_nat digit) (str start) +:+ "."
                  +:+ ext) = None ->
  read_tiff_stack fs fname (start, stop) digit ext = Raise IOError.
Proof.
  intros Hd Hstart Hspan Hmiss.
  destruct (bracket_exists (Z.to_nat (digit - 1)) start)
    as (k & Hk & Hlo & Hhi).
  { rewrite Nat2Z.inj_succ, Z2Nat.id by lia.
    by replace (Z.succ (digit - 1)) with digit by lia. }
  rewrite Z2Nat.id in Hk by lia.
  unfold read_tiff_stack, np_arange. cbn [fst snd].
  replace (Z.to_nat (stop + 1 - start))
    with (S (Z.to_nat (stop - start))) by lia.
  cbn [seq map read_tiff_outer]. rewrite Z.add_0_r.
  rewrite (read_tiff_inner_bracket _ _ _ _ digit _ k) by (auto; lia).
  unfold read_one, imread.
  assert (zfill (Z.to_nat digit) (str start)
          = zeros (digit - k - 1) +:+ str start) as Ez.
  { unfold zfill. rewrite (str_length_bracket start k) by (auto; lia).
    do 2 f_equal. lia. }
  rewrite Ez, <- !append_assoc in Hmiss.
  by rewrite Hmiss.
Qed.

Lemma read_tiff_stack_missing_first_witness :
  read_tiff_stack rec_written.(w_fs) "/cwd/rec" (0, 1) 5 "tiff"
  = Raise IOError.
Proof.
  apply read_tiff_stack_missing_first; [lia | simpl; lia | lia |].
  vm_compute. reflexivity.
Defined.

(** A file of that name that holds no TIFF image is refused by the
    TIFF reader with another exception. *)
Lemma read_tiff_stack_not_tiff :
  read_tiff_stack one_plane_taken "/cwd/rec_" (0, 1) 5 "tiff"
  = Raise ValueError.
Proof. vm_compute. reflexivity. Qed.

(** ** Writing with dtype 'uint8' and reading back *)

(** The 8-bit codes are numbers of float32. *)
Lemma rnd_byte (z : Z) :
  0 <= z <= 255 -> rnd binary32 (inject_Z z) = FNum (inject_Z z).
Proof.
  intros Hz.
  assert (forallb (fun n => match rnd binary32 (inject_Z (Z.of_nat n)) with
                            | FNum (Qmake m 1) => Z.eqb m (Z.of_nat n)
                            | _ => false
                            end) (seq 0 256) = true) as H
    by (vm_compute; reflexivity).
  rewrite forallb_forall in H. specialize (H (Z.to_nat z)).
  rewrite Z2Nat.id in H by lia.
  assert (In (Z.to_nat z) (seq 0 256)) as Hin by (apply in_seq; lia).
  specialize (H Hin).
  destruct (rnd binary32 (inject_Z z)) as [[m [p|p|]]| |]; try discriminate.
  apply Z.eqb_eq in H. by subst m.
Qed.

Lemma cast_bytes (zs : list Z) :
  Forall (fun z => 0 <= z <= 255) zs ->
  map (cast uint8 float32) (of_ints zs) = of_ints zs.
Proof.
  induction 1 as [|z zs Hz _ IH]; [done|].
  simpl. rewrite IH. f_equal. by apply rnd_byte.
Qed.

(** The reader's buffer is float32 whatever the type of the images:
    the elements of an image are converted when they are stored. *)
Lemma setitem_partial_stack_any (dt : dtype) (P : list fval)
    (nx ny nz a : nat) :
  length P = (nx * (ny * nz))%nat -> (a < nx)%nat ->
  setitem_plane (partial_stack (map (cast dt float32) P) nx ny nz a) a
    (Image dt ny nz (take (ny * nz) (drop (a * (ny * nz)) P)))
  = Ok (partial_stack (map (cast dt float32) P) nx ny nz (a + 1)).
Proof.
  intros Hlen Ha. unfold setitem_plane, partial_stack. simpl.
  destruct (decide (a < nx)%nat); [|done].
  rewrite broadcast_same by (rewrite length_take, length_drop; nia).
  simpl. rewrite <- firstn_map, <- skipn_map.
  set (E := map (cast dt float32) P).
  assert (length E = (nx * (ny * nz))%nat) as HlenE
    by (subst E; by rewrite length_map).
  do 2 f_equal.
  assert (length (take (a * (ny * nz)) E) = (a * (ny * nz))%nat) as Hta
    by (rewrite length_take; nia).
  rewrite take_app_length' by done.
  rewrite drop_app_ge by (rewrite Hta; lia).
  rewrite Hta, drop_replicate, app_assoc, take_take_drop.
  f_equal; [f_equal; lia | f_equal; nia].
Qed.

Lemma read_one_stack_any (dt : dtype) (fs : filesystem) (img : string)
    (P : list fval) (nx ny nz a : nat) (st : rstate) :
  imread fs img
    = Ok (Image dt ny nz (take (ny * nz) (drop (a * (ny * nz)) P))) ->
  length P = (nx * (ny * nz))%nat -> (a < nx)%nat ->
  r_a st = a ->
  (a <> 0%nat ->
   r_data st = Some (partial_stack (map (cast dt float32) P) nx ny nz a)) ->
  read_one fs img nx st
  = Ok (RState (a + 1)
          (Some (partial_stack (map (cast dt float32) P) nx ny nz (a + 1)))).
Proof.
  intros Him Hlen Ha Hst Hdata. unfold read_one. rewrite Him. simpl.
  assert ((if decide (r_a st = 0%nat)
           then Ok (np_zeros_float32 [nx; ny; nz])
           else match r_data st with
                | Some data => Ok data
                | None => Raise UnboundLocalError
                end)
          = Ok (partial_stack (map (cast dt float32) P) nx ny nz a)) as ->.
  { destruct (decide (r_a st = 0%nat)) as [E0|E0].
    - rewrite Hst in E0. subst a. unfold np_zeros_float32, partial_stack.
      rewrite E0. simpl. do 3 f_equal. lia.
    - rewrite Hdata by congruence. done. }
  simpl. rewrite Hst, setitem_partial_stack_any by done. done.
Qed.

Section ReadBackAny.
Variables (dt : dtype) (fs' : filesystem) (base : string) (id digit : Z)
          (P : list fval) (nx ny nz : nat).
Hypothesis Hdigit : 1 <= digit <= 18.
Hypothesis Hid : 0 <= id.
Hypothesis Hend : id + Z.of_nat nx <= 10 ^ digit.
Hypothesis Hlen : length P = (nx * (ny * nz))%nat.
Hypothesis Himg : forall j : nat, (j < nx)%nat ->
  fs_files fs' !! (stack_name base digit (id + Z.of_nat j) +:+ ".tiff")
  = Some (TiffFile (Image dt ny nz
                      (take (ny * nz) (drop (j * (ny * nz)) P)))).

Lemma read_tiff_inner_any (j : nat) (st : rstate) :
  (j < nx)%nat -> r_a st = j ->
  (j <> 0%nat ->
   r_data st = Some (partial_stack (map (cast dt float32) P) nx ny nz j)) ->
  read_tiff_inner fs' (base +:+ "_") "tiff"
    (map (fun x => zeros (digit - x - 1)) (range digit)) nx
    (id + Z.of_nat j) (range digit) st
  = Ok (RState (j + 1)
          (Some (partial_stack (map (cast dt float32) P) nx ny nz (j + 1)))).
Proof.
  intros Hj Hst Hdata.
  destruct (stack_name_bracket base digit (id + Z.of_nat j))
    as (k & Hk & Hlo & Hhi & _ & Hname); [done | lia |].
  rewrite (read_tiff_inner_bracket _ _ _ _ digit _ k) by (auto; lia).
  apply (read_one_stack_any dt); auto.
  unfold imread.
  assert (((((base +:+ "_") +:+ zeros (digit - k - 1))
              +:+ str (id + Z.of_nat j)) +:+ ".") +:+ "tiff"
          = stack_name base digit (id + Z.of_nat j) +:+ ".tiff") as ->.
  { rewrite Hname, !append_assoc. done. }
  by rewrite Himg.
Qed.

Lemma read_tiff_outer_any (cnt a : nat) (st : rstate) :
  (a + cnt = nx)%nat -> r_a st = a ->
  (a <> 0%nat ->
   r_data st = Some (partial_stack (map (cast dt float32) P) nx ny nz a)) ->
  exists st',
    read_tiff_outer fs' (base +:+ "_") "tiff"
      (map (fun x => zeros (digit - x - 1)) (range digit)) nx digit
      (map (fun i => id + Z.of_nat i) (seq a cnt)) st = Ok st'
    /\ r_a st' = nx
    /\ (nx <> 0%nat ->
        r_data st'
        = Some (partial_stack (map (cast dt float32) P) nx ny nz nx)).
Proof.
  revert a st. induction cnt as [|cnt IH]; intros a st Ha Hst Hdata; simpl.
  - exists st. split; [done|]. rewrite Nat.add_0_r in Ha. subst a.
    split; done.
  - rewrite (read_tiff_inner_any a st) by (auto; lia). simpl.
    apply IH; simpl; [lia | lia |].
    intros _. by rewrite Nat.add_1_r.
Qed.

(** Images of any type, saved under the writer's names, come back as
    one float32 volume of their converted elements. *)
Lemma read_tiff_stack_any :
  (0 < nx)%nat ->
  read_tiff_stack fs' (base +:+ "_") (id, id + Z.of_nat nx - 1) digit "tiff"
  = Ok (NdArray float32 [nx; ny; nz] (map (cast dt float32) P)).
Proof.
  intros Hnx. unfold read_tiff_stack, np_arange. simpl.
  replace (Z.to_nat (id + Z.of_nat nx - 1 + 1 - id)) with nx by lia.
  rewrite length_map, length_seq.
  destruct (read_tiff_outer_any nx 0 (RState 0 None))
    as (st' & -> & _ & Hdata); [lia | done | done |].
  simpl. rewrite Hdata by lia. unfold partial_stack.
  rewrite Nat.sub_diag. simpl.
  rewrite app_nil_r, take_ge by (rewrite length_map; lia). done.
Qed.
End ReadBackAny.

Lemma uint_value_clamp (bits : Z) (f : format) (scale lo hi v : Q) :
  (lo <= hi)%Q ->
  uint_value bits f scale lo hi (clamp lo hi v)
  = uint_value bits f scale lo hi v.
Proof.
  intros H. unfold uint_value.
  destruct (clamp_bounds lo hi v H) as [H1 H2].
  by rewrite (clamp_inside lo hi (clamp lo hi v)).
Qed.

(** One round of the writer, for plane [m] along axis 0 and dtype
    'uint8', on a volume of finite numbers of a floating type: the
    plane is rescaled with the bounds of the whole volume. *)
Lemma write_tiff_body_uint8 (fname : string) (id digit : Z)
    (overwrite : bool) (dt : dtype) (slo shi : scalar) (lo hi : Q) (m : Z)
    (qs : list Q) (fs : filesystem) (nx ny nz : nat) :
  is_float dt = true ->
  length qs = (nx * (ny * nz))%nat -> (0 < ny * nz)%nat ->
  is_bound dt slo lo -> is_bound dt shi hi -> (lo < hi)%Q ->
  divisor dt shi slo = fsub (float_format dt) (FNum hi) (FNum lo) ->
  1 <= digit <= 18 -> 0 <= id + m < 10 ^ digit ->
  0 <= m < Z.of_nat nx ->
  (overwrite = true
   \/ isfile fs (stack_name fname digit (id + m) +:+ ".tiff") = false) ->
  write_tiff_body fname ".tiff" 0 id digit overwrite "uint8" slo shi m
                  (WState (NdArray dt [nx; ny; nz] (reals qs)) fs)
  = (Ok tt, WState (NdArray dt [nx; ny; nz] (reals qs))
              (write_file fs (stack_name fname digit (id + m) +:+ ".tiff")
                 (TiffFile (uint8_image (float_format dt) lo hi qs
                              ny nz m)))).
Proof.
  intros Hdt Hlen Hpl Hlo Hhi Hlt Hdiv Hd Hind Hm How.
  destruct (stack_name_bracket fname digit (id + m) Hd Hind)
    as (k & _ & _ & _ & Hname & _).
  set (pl := take (ny * nz) (drop (Z.to_nat m * (ny * nz)) qs)).
  assert (pl <> []) as Hne.
  { intros E. apply (f_equal length) in E. subst pl.
    rewrite length_take, length_drop in E. simpl in E. nia. }
  destruct (np_min_finite pl Hne) as [mn Hmn].
  destruct (np_max_finite pl Hne) as [mx Hmx].
  pose proof (as_uint_rescale 8 255 dt pl (Some slo) (Some shi) mn mx lo hi
                Hdt Hmn Hmx Hlo Hhi Hlt Hdiv) as Hconv.
  unfold write_tiff_body. msimpl. rewrite Hname. simpl.
  assert ((if negb overwrite
           then if isfile fs (stack_name fname digit (id + m) +:+ ".tiff")
                then _suggest_new_fname fs
                       (stack_name fname digit (id + m) +:+ ".tiff")
                else Ok (stack_name fname digit (id + m) +:+ ".tiff")
           else Ok (stack_name fname digit (id + m) +:+ ".tiff"))
          = Ok (stack_name fname digit (id + m) +:+ ".tiff")) as ->.
  { destruct How as [->| ->]; [done | by destruct overwrite]. }
  simpl. unfold plane. simpl.
  destruct (decide (Z.to_nat m < nx)%nat); [|lia]. simpl.
  unfold convert_plane, as_uint8. simpl.
  unfold reals. rewrite skipn_map, firstn_map. fold pl.
  fold (reals pl). rewrite Hconv. simpl.
  unfold imsave. simpl. done.
Qed.

(** X28: a well-shaped non-empty 3-D volume of finite numbers of a
    floating type, with effective bounds [lo < hi] that are numbers of
    the type of the volume and whose difference, as the division takes
    it, is the positive finite difference of the arithmetic of the
    volume, written along axis 0 with dtype 'uint8' (overwriting, or
    with none of the target names taken, and with every index inside
    the digit width), is clipped in place, and read back with the
    writer's absolute name followed by ["_"] it comes back as a float32
    volume of the same shape whose elements are the 8-bit codes of the
    original ones, the integer part of
    [(clamp(v) - lo) / (hi - lo) * 255] as the arithmetic of the volume
    computes it: every plane is rescaled with the bounds of the whole
    volume, not with its own. *)
Theorem tiff_stack_roundtrip_uint8 `{OsPath} (data : ndarray) (dt : dtype)
    (qs : list Q) (fs : filesystem) (fname : string) (id digit : Z)
    (overwrite : bool) (dmin dmax : option Q) (nx ny nz : nat)
    (mn mx d : Q) :
  nd_dtype data = dt -> is_float dt = true ->
  nd_shape data = [nx; ny; nz] ->
  nd_elems data = reals qs ->
  well_shaped data ->
  np_min (reals qs) = Ok (FNum mn) -> np_max (reals qs) = Ok (FNum mx) ->
  (forall b, dmin = Some b \/ dmax = Some b ->
             cast float64 dt (FNum b) = FNum b) ->
  (default mn dmin < default mx dmax)%Q ->
  divisor dt (bound_or dt (py_floats dmax) mx)
             (bound_or dt (py_floats dmin) mn) = FNum d ->
  fsub (float_format dt) (FNum (default mx dmax)) (FNum (default mn dmin))
    = FNum d ->
  (0 < d)%Q ->
  1 <= digit <= 18 -> 0 <= id -> id + Z.of_nat nx <= 10 ^ digit ->
  (overwrite = true
   \/ forall m, 0 <= m < Z.of_nat nx ->
        isfile fs (stack_name (abspath fname) digit (id + m) +:+ ".tiff")
        = false) ->
  exists fs',
    write_tiff_stack fname 0 id digit overwrite "uint8" dmin dmax
                     (WState data fs)
    = (Ok tt,
       WState (NdArray dt [nx; ny; nz]
                 (reals (map (clamp (default mn dmin) (default mx dmax)) qs)))
              fs') /\
    read_tiff_stack fs' (abspath fname +:+ "_")
                    (id, id + Z.of_nat nx - 1) digit "tiff"
    = Ok (NdArray float32 [nx; ny; nz]
            (of_ints (map (uint_value 8 (float_format dt) 255
                             (default mn dmin) (default mx dmax)) qs))) /\
    Forall (fun z => 0 <= z <= 255)
           (map (uint_value 8 (float_format dt) 255
                   (default mn dmin) (default mx dmax)) qs).
Proof.
  intros Hdt Hf Hs He Hw Hmn Hmx Hrep Hlt Hdiv Hsub Hdpos Hd Hid Hend How.
  destruct data as [dt0 sh el]. simpl in Hdt, Hs, He. subst dt0 sh el.
  set (lo := default mn dmin) in *. set (hi := default mx dmax) in *.
  set (cq := map (clamp lo hi) qs).
  set (f := float_format dt) in *.
  set (fs1 := if negb (path_exists fs (dirname (abspath fname)))
              then makedirs fs (dirname (abspath fname)) else fs).
  assert (fs_files fs1 = fs_files fs) as Hfs1
    by (subst fs1; by destruct (negb _)).
  assert (length qs = (nx * (ny * nz))%nat) as Hlen.
  { unfold well_shaped in Hw. simpl in Hw. unfold reals in Hw.
    rewrite length_map in Hw. rewrite Hw. lia. }
  assert (0 < nx /\ 0 < ny * nz)%nat as [Hnx Hpl].
  { destruct qs as [|x xs]; [discriminate|]. simpl in Hlen. nia. }
  assert (forall m, (m ∈ range (Z.of_nat nx)) ->
                    0 <= m /\ id + m < 10 ^ digit) as Hrange.
  { intros m Hm%range_elem. lia. }
  assert (Forall (fun z => 0 <= z <= 255)
                 (map (uint_value 8 f 255 lo hi) qs)) as Hbytes.
  { apply Forall_forall. intros z Hz%list_elem_of_fmap.
    destruct Hz as (v & -> & _).
    by apply (uint_value_range dt 8 255 lo hi d ltac:(lia) eq_refl
                (rnd_255 dt)). }
  assert (map (uint_value 8 f 255 lo hi) cq
          = map (uint_value 8 f 255 lo hi) qs) as Hcodes.
  { subst cq. rewrite map_map. apply map_ext. intros v.
    apply uint_value_clamp. by apply Qlt_le_weak. }
  exists (saved_with (abspath fname) id digit (uint8_image f lo hi cq ny nz)
            fs1 (range (Z.of_nat nx))).
  split; [|split; [|exact Hbytes]].
  - unfold write_tiff_stack. rewrite M_bind_eq.
    rewrite (clip_in_place_eval dmin dmax dt [nx; ny; nz] qs fs mn mx)
      by done.
    cbn [fst snd w_data w_fs]. fold lo hi cq.
    rewrite (export_planes_axis0 _ _ _ _ _ _ _ _ _
               (NdArray dt [nx; ny; nz] (reals cq)) fs nx ny nz eq_refl).
    fold fs1.
    apply (for_each_saves_with (abspath fname) id digit
             (uint8_image f lo hi cq ny nz) Hd Hid
             (write_tiff_body (abspath fname) ".tiff" 0 id digit overwrite
                "uint8" (bound_or dt (py_floats dmin) mn)
                (bound_or dt (py_floats dmax) mx))
             overwrite (NdArray dt [nx; ny; nz] (reals cq))
             (range (Z.of_nat nx)) fs1).
    + apply range_NoDup.
    + exact Hrange.
    + intros m fs0 Hm%range_elem Hfree.
      apply (write_tiff_body_uint8 (abspath fname) id digit overwrite dt
               _ _ lo hi m cq fs0 nx ny nz); auto; try lia.
      * subst cq. by rewrite length_map.
      * apply is_bound_py; [done|]. intros q Hq. apply Hrep. by left.
      * apply is_bound_py; [done|]. intros q Hq. apply Hrep. by right.
      * etrans; [exact Hdiv | symmetry; exact Hsub].
    + destruct How as [->|How]; [by left | right].
      intros m Hm%range_elem. unfold isfile. rewrite Hfs1. by apply How.
  - rewrite (read_tiff_stack_any uint8 _ (abspath fname) id digit
               (of_ints (map (uint_value 8 f 255 lo hi) cq)) nx ny nz);
      auto.
    + rewrite Hcodes. by rewrite cast_bytes.
    + unfold of_ints. rewrite !length_map. subst cq.
      by rewrite length_map.
    + intros j Hj.
      rewrite (saved_with_lookup (abspath fname) id digit _ Hd Hid);
        auto.
      * unfold uint8_image. rewrite Nat2Z.id. do 3 f_equal.
        unfold of_ints. by rewrite !skipn_map, !firstn_map.
      * apply range_NoDup.
      * unfold range. apply list_elem_of_fmap. exists j. split; [done|].
        apply elem_of_seq. lia.
Qed.

Lemma tiff_stack_roundtrip_uint8_witness :
  exists fs',
    @write_tiff_stack cwd_paths "rec" 0 0 5 false "uint8" None None
                      (WState small_volume no_files)
    = (Ok tt, WState small_volume fs') /\
    read_tiff_stack fs' "/cwd/rec_" (0, 1) 5 "tiff"
    = Ok (NdArray float32 [2; 1; 2]%nat (reals [0; 42; 85; 255]%Q)).
Proof.
  destruct (@tiff_stack_roundtrip_uint8 cwd_paths small_volume float32
              [0; 1 # 2; 1; 3]%Q no_files
              "rec" 0 5 false None None 2 1 2 0%Q 3%Q 3%Q)
    as (fs' & Hw & Hr & _);
    [reflexivity | reflexivity | reflexivity | reflexivity | reflexivity
    | reflexivity | reflexivity | by intros b [|] | reflexivity
    | reflexivity | reflexivity | reflexivity
    | lia | lia | simpl; lia | right; intros m Hm; reflexivity |].
  exists fs'. split; [exact Hw | exact Hr].
Defined.
